(** * The trading engine of solana-jupiter-bot: a shallow embedding

    The TypeScript sources embedded here are

    - [utils] ([calculateProfit], [checkRoutesResponse], [verifyConfig]),
    - [strategies/ArbitrageStrategy.ts] (the two strategies that drive the
      shared [BotCache]),
    - [strategies/pingpong.ts] and [strategies/arbitrage.ts] (the strategies
      that implement [TradingStrategy]: [execute], which returns a
      [TradeResult], and [simulate]), and the plugin loader that follows
      the former,
    - [utils/transaction.ts] ([sendTransactionWithRetry], [loadWallet] and
      the balances of [TokenUtils]),
    - [core/EventEmitter.ts], the event bus of [core/events.ts] and the bot
      that follows it, and [core/app.ts],
    - the entry point (the ticks of [runTrading] and [runSimulation]) and
      the configuration loader ([mergeConfigs]).

    Conventions.  An [async] function is read as its sequential body (every
    [await] is a suspension point of a single logical thread).  A call of
    [process.exit] ends the run: it is the [Exited] completion.  What the
    collaborators (quote API, RPC connection, plugins, listeners) answer in
    one call is an explicit argument of the embedded function, so a theorem
    quantified over it holds for every behaviour of the collaborator.  The
    primitive type [number] is an interface ([JsNumber]): the embedded
    functions and most properties are generic in it, and an instance with
    exact arithmetic is used to evaluate them. *)

From Stdlib Require Import ZArith QArith Qround List Bool Lia String Ascii.
From stdpp Require Import gmap strings list.
Import ListNotations.

Local Open Scope Z_scope.

(** ** JavaScript values shared by all modules *)

Module Js.

(** A thrown value: an [Error] object with its message, or any other value
    with its [String(...)] rendering.  [describe] is the expression
    [error instanceof Error ? error.message : String(error)]. *)
Inductive Thrown : Type :=
| ErrorObject (message : string)
| ThrownValue (rendering : string).

Definition describe (e : Thrown) : string :=
  match e with
  | ErrorObject message => message
  | ThrownValue rendering => rendering
  end.

(** How a call ends as seen by its caller and by the surrounding process:
    it returns, it throws (an [async] function rejects), or it has called
    [process.exit(code)]. *)
Inductive Completion (A : Type) : Type :=
| Returned (a : A)
| Threw (e : Thrown)
| Exited (code : Z).
Arguments Returned {A} a.
Arguments Threw {A} e.
Arguments Exited {A} code.

Definition exited {A} (c : Completion A) : bool :=
  match c with
  | Exited _ => true
  | Returned _ | Threw _ => false
  end.

(** Computations over a mutable state [S]: they read and write the state
    and complete as [Completion] says.  A state written before a throw stays
    written, as with a JavaScript object mutated inside a [try] block. *)
Definition M (S A : Type) : Type := S -> S * Completion A.

Definition ret {S A} (a : A) : M S A := fun s => (s, Returned a).

Definition bind {S A B} (m : M S A) (k : A -> M S B) : M S B :=
  fun s =>
    match m s with
    | (s', Returned a) => k a s'
    | (s', Threw e) => (s', Threw e)
    | (s', Exited code) => (s', Exited code)
    end.

(** [try { body } catch (error) { handler }]. *)
Definition try_catch {S A} (body : M S A) (handler : Thrown -> M S A) : M S A :=
  fun s =>
    match body s with
    | (s', Threw e) => handler e s'
    | other => other
    end.

Definition get_state {S} : M S S := fun s => (s, Returned s).

Definition modify_state {S} (f : S -> S) : M S unit := fun s => (f s, Returned tt).

(** A call of a collaborator that answers or throws. *)
Definition lift {S A} (r : Thrown + A) : M S A :=
  fun s => match r with inl e => (s, Threw e) | inr a => (s, Returned a) end.

Definition complete {S A} (c : Completion A) : M S A := fun s => (s, c).

(** [process.exit(code)]. *)
Definition process_exit {S A} (code : Z) : M S A := complete (Exited code).

(** [Number(x)] of a JSBI big integer [x]: the conversion asks the object
    for its primitive value, and [valueOf] of a JSBI instance throws (the
    library wants [JSBI.toNumber(x)] to be called instead).  No number is
    produced, whatever the value. *)
Definition Number_of_JSBI {number : Type} (x : Z) : Thrown + number :=
  inl (ErrorObject "Convert JSBI instances to native numbers using `toNumber`.").

(** The calls a process makes one after another: the run ends with the call
    that exits the process, and the calls after it are never made. *)
Fixpoint run_calls {S C A} (step : C -> M S A) (calls : list C) (s : S)
  : S * list (Completion A) :=
  match calls with
  | [] => (s, [])
  | c :: rest =>
      match step c s with
      | (s', Exited code) => (s', [Exited code])
      | (s', done) =>
          let '(s'', outs) := run_calls step rest s' in (s'', done :: outs)
      end
  end.

Module MNotations.
Notation "x <- m ;; k" := (bind m (fun x => k))
  (at level 100, m at next level, right associativity).
Notation "m ;;; k" := (bind m (fun _ => k))
  (at level 100, right associativity).
End MNotations.

(** The operations of the primitive type [number] that the engine uses.
    The engine is written against this interface, so that what is proved of
    it does not depend on how doubles round. *)
Class JsNumber (number : Type) : Type := {
  num_of_Z : Z -> number;                    (* literals, [Number(bigint)] *)
  num_sub : number -> number -> number;       (* [a - b] *)
  num_mul : number -> number -> number;       (* [a * b] *)
  num_div : number -> number -> number;       (* [a / b] *)
  num_leb : number -> number -> bool;         (* [a <= b] *)
  num_gtb : number -> number -> bool;         (* [a > b] *)
  num_floor : number -> number;               (* [Math.floor(a)] *)
  num_pow : number -> number -> number;       (* [Math.pow(a, b)], [a ** b] *)
  parseFloat : string -> number;
  parseInt : string -> number;
  num_toString : number -> string             (* [a.toString()] *)
}.

(** A value of the union type [number | string]. *)
Inductive NumOrStr (number : Type) : Type :=
| IsNum (n : number)
| IsStr (s : string).
Arguments IsNum {number} n.
Arguments IsStr {number} s.

(** *** The exact instance

    Numbers with the special values of IEEE-754 and exact rational
    arithmetic on the finite ones: no rounding and no negative zero.  It is
    the instance at which the engine is evaluated on concrete inputs. *)
Inductive xnum : Type :=
| NaN
| Inf (negative : bool)
| Fin (q : Q).

Definition Qneg (q : Q) : bool := negb (Qle_bool 0 q).
Definition Qzero (q : Q) : bool := Qeq_bool q 0.

Definition x_neg (a : xnum) : xnum :=
  match a with
  | NaN => NaN
  | Inf s => Inf (negb s)
  | Fin q => Fin (Qopp q)
  end.

Definition x_add (a b : xnum) : xnum :=
  match a, b with
  | NaN, _ | _, NaN => NaN
  | Inf s, Inf t => if Bool.eqb s t then Inf s else NaN
  | Inf s, Fin _ => Inf s
  | Fin _, Inf t => Inf t
  | Fin p, Fin q => Fin (Qred (Qplus p q))
  end.

Definition x_sub (a b : xnum) : xnum := x_add a (x_neg b).

Definition x_mul (a b : xnum) : xnum :=
  match a, b with
  | NaN, _ | _, NaN => NaN
  | Inf s, Inf t => Inf (xorb s t)
  | Inf s, Fin q | Fin q, Inf s => if Qzero q then NaN else Inf (xorb s (Qneg q))
  | Fin p, Fin q => Fin (Qred (Qmult p q))
  end.

Definition x_div (a b : xnum) : xnum :=
  match a, b with
  | NaN, _ | _, NaN => NaN
  | Inf _, Inf _ => NaN
  | Inf s, Fin q => Inf (xorb s (Qneg q))
  | Fin _, Inf _ => Fin 0
  | Fin p, Fin q =>
      if Qzero q then (if Qzero p then NaN else Inf (Qneg p))
      else Fin (Qred (Qdiv p q))
  end.

Definition x_leb (a b : xnum) : bool :=
  match a, b with
  | NaN, _ | _, NaN => false
  | Inf s, Inf t => s || negb t
  | Inf s, Fin _ => s
  | Fin _, Inf t => negb t
  | Fin p, Fin q => Qle_bool p q
  end.

Definition x_gtb (a b : xnum) : bool :=
  match a, b with
  | NaN, _ | _, NaN => false
  | _, _ => negb (x_leb a b)
  end.

Definition x_floor (a : xnum) : xnum :=
  match a with
  | Fin q => Fin (inject_Z (Qfloor q))
  | _ => a
  end.

(** [Math.pow] on the arguments the engine gives it, a finite base and an
    integral exponent (a token's number of decimals); other arguments are
    outside this instance and answered [NaN]. *)
Definition x_pow (a b : xnum) : xnum :=
  match a, b with
  | Fin p, Fin q =>
      if Qeq_bool q (inject_Z (Qfloor q)) then
        if Qzero p && Qneg q then Inf false
        else Fin (Qred (Qpower p (Qfloor q)))
      else NaN
  | _, _ => NaN
  end.

(** Numeric literals.  [parseInt] (without a radix) reads an optional sign
    and a run of decimal digits, or of hexadecimal digits after the prefix
    [0x]; [parseFloat] reads an optional sign and [Infinity], or a decimal
    literal with an optional fractional part and an optional exponent;
    leading blanks are skipped and anything that follows the literal is
    ignored. *)
Definition digit_of (c : ascii) : option Z :=
  let n := Z.of_nat (nat_of_ascii c) in
  if (48 <=? n) && (n <=? 57) then Some (n - 48) else None.

Definition hex_digit_of (c : ascii) : option Z :=
  let n := Z.of_nat (nat_of_ascii c) in
  if (48 <=? n) && (n <=? 57) then Some (n - 48)
  else if (97 <=? n) && (n <=? 102) then Some (n - 87)
  else if (65 <=? n) && (n <=? 70) then Some (n - 55)
  else None.

Fixpoint read_number (digit : ascii -> option Z) (base : Z) (cs : list ascii)
    (acc : Z) (count : nat) : Z * nat * list ascii :=
  match cs with
  | c :: rest =>
      match digit c with
      | Some d => read_number digit base rest (base * acc + d) (S count)
      | None => (acc, count, cs)
      end
  | [] => (acc, count, [])
  end.

Definition read_digits (cs : list ascii) (acc : Z) (count : nat)
  : Z * nat * list ascii :=
  read_number digit_of 10 cs acc count.

Definition is_blank (c : ascii) : bool :=
  let n := nat_of_ascii c in
  (n =? 32)%nat || ((9 <=? n)%nat && (n <=? 13)%nat).

Fixpoint skip_blanks (cs : list ascii) : list ascii :=
  match cs with
  | c :: rest => if is_blank c then skip_blanks rest else cs
  | [] => []
  end.

Definition read_sign (cs : list ascii) : bool * list ascii :=
  match cs with
  | c :: rest =>
      if Ascii.eqb c "-"%char then (true, rest)
      else if Ascii.eqb c "+"%char then (false, rest)
      else (false, cs)
  | [] => (false, [])
  end.

Fixpoint starts_with (prefix cs : list ascii) : bool :=
  match prefix, cs with
  | [], _ => true
  | p :: prefix', c :: cs' => Ascii.eqb p c && starts_with prefix' cs'
  | _ :: _, [] => false
  end.

Definition signed (negative : bool) (q : Q) : Q :=
  if negative then Qopp q else q.

Definition x_parseInt (s : string) : xnum :=
  let '(negative, cs) := read_sign (skip_blanks (list_ascii_of_string s)) in
  let '(n, count, _) :=
    match cs with
    | zero :: x :: hex =>
        if Ascii.eqb zero "0"%char && (Ascii.eqb x "x"%char || Ascii.eqb x "X"%char)
        then read_number hex_digit_of 16 hex 0 0%nat
        else read_digits cs 0 0%nat
    | _ => read_digits cs 0 0%nat
    end in
  match count with
  | O => NaN
  | S _ => Fin (signed negative (inject_Z n))
  end.

(** The exponent part [e], sign, digits; without digits there is none. *)
Definition read_exponent (cs : list ascii) : Z :=
  match cs with
  | c :: more =>
      if Ascii.eqb c "e"%char || Ascii.eqb c "E"%char then
        let '(negative, digits) := read_sign more in
        let '(n, count, _) := read_digits digits 0 0%nat in
        match count with
        | O => 0
        | S _ => if negative then - n else n
        end
      else 0
  | [] => 0
  end.

Definition x_parseFloat (s : string) : xnum :=
  let '(negative, cs) := read_sign (skip_blanks (list_ascii_of_string s)) in
  if starts_with (list_ascii_of_string "Infinity") cs then Inf negative
  else
    let '(n, count, rest) := read_digits cs 0 0%nat in
    let '(f, fcount, after) :=
      match rest with
      | c :: more =>
          if Ascii.eqb c "."%char then read_digits more 0 0%nat
          else (0, 0%nat, rest)
      | [] => (0, 0%nat, [])
      end in
    match (count + fcount)%nat with
    | O => NaN
    | S _ =>
        Fin (signed negative
               (Qred (Qmult
                        (Qplus (inject_Z n)
                           (Qdiv (inject_Z f) (inject_Z (10 ^ Z.of_nat fcount))))
                        (Qpower (inject_Z 10) (read_exponent after)))))
    end.

(** [toString]: the decimal numeral of the integral part and, for a value
    with a fractional part, a point and the digits of the fraction (at most
    twelve of them; JavaScript prints the shortest numeral that reads back
    as the same double). *)
Definition digit_char (d : Z) : ascii := ascii_of_nat (Z.to_nat (48 + d)).

Fixpoint numeral (fuel : nat) (n : Z) (acc : list ascii) : list ascii :=
  match fuel with
  | O => acc
  | S fuel' =>
      let acc' := digit_char (n mod 10) :: acc in
      if n / 10 =? 0 then acc' else numeral fuel' (n / 10) acc'
  end.

Fixpoint fraction_digits (fuel : nat) (num den : Z) : list ascii :=
  match fuel with
  | O => []
  | S fuel' =>
      if num =? 0 then []
      else
        let d := (10 * num) / den in
        digit_char d :: fraction_digits fuel' (10 * num - d * den) den
  end.

Definition x_toString (a : xnum) : string :=
  match a with
  | NaN => "NaN"
  | Inf s => if s then "-Infinity" else "Infinity"
  | Fin q =>
      let num := Z.abs (Qnum q) in
      let den := Zpos (Qden q) in
      let whole := num / den in
      let rest := num mod den in
      let body :=
        numeral (S (Z.to_nat (Z.log2 whole))) whole []
        ++ (if rest =? 0 then []
            else "."%char :: fraction_digits 12 rest den) in
      string_of_list_ascii (if Qnum q <? 0 then "-"%char :: body else body)
  end.

#[export] Instance xnum_number : JsNumber xnum := {|
  num_of_Z := fun z => Fin (inject_Z z);
  num_sub := x_sub;
  num_mul := x_mul;
  num_div := x_div;
  num_leb := x_leb;
  num_gtb := x_gtb;
  num_floor := x_floor;
  num_pow := x_pow;
  parseFloat := x_parseFloat;
  parseInt := x_parseInt;
  num_toString := x_toString
|}.

End Js.
Export Js.

(** ** The data the engine exchanges with its collaborators *)

Module Types.

(** [Token] of [interfaces/config]. *)
Record Token (number : Type) : Type := {
  address : string;
  symbol : string;
  name : string;
  decimals : number
}.
Arguments address {number} _.
Arguments symbol {number} _.
Arguments name {number} _.
Arguments decimals {number} _.

(** A route of the quote service, with the fields the engine reads:
    [outAmount] is a big integer, [marketInfos] stands for the hops. *)
Record RouteInfo : Type := {
  marketInfos : list string;
  inAmount : Z;
  outAmount : Z;
  totalFees : Z
}.

(** The answer of [jupiter.computeRoutes]: [None] is a missing
    [routesInfos] property. *)
Record Routes : Type := {
  routesInfos : option (list RouteInfo)
}.

(** The request of [jupiter.computeRoutes]; the properties that are the same
    constants at every call site ([feeBps: 0], [forceFetch: true],
    [onlyDirectRoutes: false], [enforceSingleTx: false],
    [swapMode: 'ExactIn']) are left out. *)
Record RouteRequest (number : Type) : Type := {
  inputMint : string;
  outputMint : string;
  amount : Z;
  slippageBps : number;
  filterTopNResult : option Z
}.
Arguments inputMint {number} _.
Arguments outputMint {number} _.
Arguments amount {number} _.
Arguments slippageBps {number} _.
Arguments filterTopNResult {number} _.

(** [TradeResult] of [interfaces/strategy]. *)
Record TradeResult (number : Type) : Type := {
  success : bool;
  inputAmount : number;
  outputAmount : number;
  profit : number;
  profitPercentage : number;
  fees : option number;
  txId : option string;
  error : option string;
  latency : number
}.
Arguments success {number} _.
Arguments inputAmount {number} _.
Arguments outputAmount {number} _.
Arguments profit {number} _.
Arguments profitPercentage {number} _.
Arguments fees {number} _.
Arguments txId {number} _.
Arguments error {number} _.
Arguments latency {number} _.

End Types.
Export Types.

(** ** [utils]: profit percentage and the routes guard *)

Module Utils.

Section WithNumber.
Context {number : Type} `{JsNumber number}.

(** [typeof x === 'string' ? parseFloat(x) : x]. *)
Definition as_number (x : NumOrStr number) : number :=
  match x with
  | IsStr s => parseFloat s
  | IsNum n => n
  end.

(** [calculateProfit(baseAmount, newAmount)]. *)
Definition calculateProfit (baseAmount newAmount : NumOrStr number) : number :=
  let base := as_number baseAmount in
  let newAmt := as_number newAmount in
  if num_leb base (num_of_Z 0) then num_of_Z 0
  else num_mul (num_div (num_sub newAmt base) base) (num_of_Z 100).

End WithNumber.

(** What [checkRoutesResponse] prints before it gives up. *)
Inductive RoutesComplaint : Type :=
| NoRoutesFound      (* 'No routes found or something is wrong with RPC / Jupiter!' *)
| SomethingIsWrong.  (* 'Something is wrong with RPC / Jupiter!' *)

(** [checkRoutesResponse(routes)]: [routes] is [None] for a falsy answer.
    The result is the complaint printed and the completion. *)
Definition checkRoutesResponse (routes : option Routes)
  : option RoutesComplaint * Completion unit :=
  match routes with
  | Some {| routesInfos := Some infos |} =>
      if (length infos =? 0)%nat then (Some NoRoutesFound, Exited 1)
      else (None, Returned tt)
  | _ => (Some SomethingIsWrong, Exited 1)
  end.

End Utils.

(** ** [strategies/ArbitrageStrategy.ts]: the strategies on the shared cache *)

Module CacheStrategies.

Import MNotations.

Section WithNumber.
Context {number : Type} `{JsNumber number}.

Record Balances : Type := { tokenA : number; tokenB : number }.
Record AvailableRoutes : Type := { buy : nat; sell : nat }.

(** The part of the configuration the strategies read.  [slippage] is a
    number or a mode name, [tradeSize_strategy] is
    [config.tradeSize.strategy]. *)
Record Config : Type := {
  tradeSize_strategy : string;
  minPercProfit : number;
  slippage : NumOrStr number
}.

(** [BotCache], with the fields the strategies read or write.  [queue] is
    the in-flight map from iteration to status. *)
Record BotCache : Type := {
  iteration : Z;
  queue : gmap Z Z;
  sideBuy : bool;
  initialBalance : Balances;
  currentBalance : Balances;
  lastBalance : Balances;
  availableRoutes : AvailableRoutes;
  tradingEnabled : bool;
  config : Config
}.

Definition set_iteration (i : Z) (c : BotCache) : BotCache :=
  {| iteration := i; queue := queue c; sideBuy := sideBuy c;
     initialBalance := initialBalance c; currentBalance := currentBalance c;
     lastBalance := lastBalance c; availableRoutes := availableRoutes c;
     tradingEnabled := tradingEnabled c; config := config c |}.

Definition set_queue (q : gmap Z Z) (c : BotCache) : BotCache :=
  {| iteration := iteration c; queue := q; sideBuy := sideBuy c;
     initialBalance := initialBalance c; currentBalance := currentBalance c;
     lastBalance := lastBalance c; availableRoutes := availableRoutes c;
     tradingEnabled := tradingEnabled c; config := config c |}.

Definition set_sideBuy (b : bool) (c : BotCache) : BotCache :=
  {| iteration := iteration c; queue := queue c; sideBuy := b;
     initialBalance := initialBalance c; currentBalance := currentBalance c;
     lastBalance := lastBalance c; availableRoutes := availableRoutes c;
     tradingEnabled := tradingEnabled c; config := config c |}.

Definition set_availableRoutes (a : AvailableRoutes) (c : BotCache) : BotCache :=
  {| iteration := iteration c; queue := queue c; sideBuy := sideBuy c;
     initialBalance := initialBalance c; currentBalance := currentBalance c;
     lastBalance := lastBalance c; availableRoutes := a;
     tradingEnabled := tradingEnabled c; config := config c |}.

(** The lines the two strategies and [checkRoutesResponse] print. *)
Inductive LogLine : Type :=
| RoutesDump (routes : option Routes) (complaint : Utils.RoutesComplaint)
| NotEnoughRoutes
| ArbitrageBest (date : string) (i : Z) (profit : number) (analyzed : nat)
| ExecutingArbitrage (profit : number)
| ArbitrageError (e : Thrown)
| PingPongIteration (date : string) (i : Z) (buying : bool) (profit : number) (found : nat)
| TradeWouldBeExecuted (profit : number)
| PingPongError (e : Thrown).

(** The state a cycle runs in: the cache object, which the caller shares
    with the strategy, and the console. *)
Record World : Type := {
  cache : BotCache;
  console : list LogLine
}.

Definition get_cache : M World BotCache :=
  fun w => (w, Returned (cache w)).

Definition update_cache (f : BotCache -> BotCache) : M World unit :=
  fun w => ({| cache := f (cache w); console := console w |}, Returned tt).

Definition print (l : LogLine) : M World unit :=
  fun w => ({| cache := cache w; console := console w ++ [l] |}, Returned tt).

(** What is outside the strategy in one cycle: the big-integer and
    public-key constructors (both may throw on a malformed argument), the
    quote service, and the clock's rendering of the date.  The fields are
    functions of what they are asked, so that the requests of the cycle are
    part of the model; a field that gives the same kind of answer to every
    request describes a cycle in which the request made gets that answer. *)
Record Outside : Type := {
  BigInt : string -> Thrown + Z;
  PublicKey : string -> Thrown + string;
  computeRoutes : RouteRequest number -> Thrown + option Routes;
  localeDate : string
}.

(** [StrategyContext], without the cache (it is the world) and without the
    quote service (it is in [Outside]). *)
Record StrategyContext : Type := {
  ctx_tokenA : Token number;
  ctx_tokenB : Token number
}.

(** The call [checkRoutesResponse(routes)] inside a cycle. *)
Definition checkRoutes (routes : option Routes) : M World unit :=
  let '(complaint, completion) := Utils.checkRoutesResponse routes in
  match complaint with
  | Some c => print (RoutesDump routes c)
  | None => ret tt
  end ;;;
  complete completion.

(** [routes.routesInfos] once the guard has passed. *)
Definition infos_of (routes : option Routes) : list RouteInfo :=
  match routes with
  | Some {| routesInfos := Some infos |} => infos
  | _ => []
  end.

Definition slippage_of (c : BotCache) : number :=
  match slippage (config c) with
  | IsNum n => n
  | IsStr _ => num_of_Z 1
  end.

Definition profit_of (amountToTrade : number) (route : RouteInfo) : number :=
  Utils.calculateProfit (IsNum amountToTrade) (IsNum (num_of_Z (outAmount route))).

(** The loop [for (let j = 1; j < routes.routesInfos.length; j++)] of
    [ArbitrageStrategy.execute], on the routes from index 1 on, with the
    variables [mostProfitableRoute] and [highestProfit]. *)
Fixpoint scan_routes (amountToTrade : number) (rest : list RouteInfo)
    (mostProfitableRoute : RouteInfo) (highestProfit : number)
  : RouteInfo * number :=
  match rest with
  | [] => (mostProfitableRoute, highestProfit)
  | route :: rest' =>
      let profit := profit_of amountToTrade route in
      if num_gtb profit highestProfit
      then scan_routes amountToTrade rest' route profit
      else scan_routes amountToTrade rest' mostProfitableRoute highestProfit
  end.

(** "Find the most profitable route": the initialisation from index 0 and
    the loop. *)
Definition mostProfitable (amountToTrade : number) (first : RouteInfo)
    (rest : list RouteInfo) : RouteInfo * number :=
  scan_routes amountToTrade rest first (profit_of amountToTrade first).

Definition undefined_read (property : string) : Thrown :=
  ErrorObject ("Cannot read properties of undefined (reading '" ++ property ++ "')").

(** [ArbitrageStrategy.execute(context)].  The two readings of
    [performance.now()] are left out: their difference is computed and not
    used. *)
Definition ArbitrageStrategy_execute (out : Outside) (context : StrategyContext)
  : M World unit :=
  try_catch
    (update_cache (fun c => set_iteration (iteration c + 1) c) ;;;
     c0 <- get_cache ;;
     let i := iteration c0 in
     update_cache (fun c => set_queue (<[i := -1]> (queue c)) c) ;;;
     c <- get_cache ;;
     let amountToTrade :=
       if String.eqb (tradeSize_strategy (config c)) "cumulative"
       then tokenA (currentBalance c)
       else tokenA (initialBalance c) in
     amountInJSBI <- lift (BigInt out (num_toString amountToTrade)) ;;
     let slippage := slippage_of c in
     let inputToken := ctx_tokenA context in
     let outputToken := ctx_tokenA context in
     inputMint <- lift (PublicKey out (address inputToken)) ;;
     outputMint <- lift (PublicKey out (address outputToken)) ;;
     routes <- lift (computeRoutes out
                       {| inputMint := inputMint; outputMint := outputMint;
                          amount := amountInJSBI; slippageBps := slippage;
                          filterTopNResult := Some 5 |}) ;;
     checkRoutes routes ;;;
     update_cache (fun c => set_queue (<[i := 0]> (queue c)) c) ;;;
     let infos := infos_of routes in
     if (length infos <? 2)%nat then print NotEnoughRoutes
     else
       match infos with
       | [] => complete (Threw (undefined_read "outAmount"))
       | first :: rest =>
           let '(mostProfitableRoute, highestProfit) :=
             mostProfitable amountToTrade first rest in
           print (ArbitrageBest (localeDate out) i highestProfit (length infos)) ;;;
           c <- get_cache ;;
           if num_gtb highestProfit (minPercProfit (config c)) && tradingEnabled c
           then print (ExecutingArbitrage highestProfit)
           else ret tt
       end)
    (fun error => print (ArbitrageError error)).

(** [PingPongStrategy.execute(context)] of the same file, without the
    readings of [performance.now()] either. *)
Definition PingPongStrategy_execute (out : Outside) (context : StrategyContext)
  : M World unit :=
  try_catch
    (update_cache (fun c => set_iteration (iteration c + 1) c) ;;;
     c0 <- get_cache ;;
     let i := iteration c0 in
     update_cache (fun c => set_queue (<[i := -1]> (queue c)) c) ;;;
     c <- get_cache ;;
     let amountToTrade :=
       if String.eqb (tradeSize_strategy (config c)) "cumulative"
       then (if sideBuy c then tokenA else tokenB) (currentBalance c)
       else (if sideBuy c then tokenA else tokenB) (initialBalance c) in
     let baseAmount := (if sideBuy c then tokenB else tokenA) (lastBalance c) in
     let slippage := slippage_of c in
     let inputToken := if sideBuy c then ctx_tokenA context else ctx_tokenB context in
     let outputToken := if sideBuy c then ctx_tokenB context else ctx_tokenA context in
     amountInJSBI <- lift (BigInt out (num_toString amountToTrade)) ;;
     inputMint <- lift (PublicKey out (address inputToken)) ;;
     outputMint <- lift (PublicKey out (address outputToken)) ;;
     routes <- lift (computeRoutes out
                       {| inputMint := inputMint; outputMint := outputMint;
                          amount := amountInJSBI; slippageBps := slippage;
                          filterTopNResult := Some 2 |}) ;;
     checkRoutes routes ;;;
     let infos := infos_of routes in
     update_cache (fun c =>
       set_availableRoutes
         (if sideBuy c
          then {| buy := length infos; sell := sell (availableRoutes c) |}
          else {| buy := buy (availableRoutes c); sell := length infos |}) c) ;;;
     update_cache (fun c => set_queue (<[i := 0]> (queue c)) c) ;;;
     match infos with
     | [] => complete (Threw (undefined_read "outAmount"))
     | route :: _ =>
         let simulatedProfit :=
           Utils.calculateProfit (IsNum baseAmount) (IsNum (num_of_Z (outAmount route))) in
         c <- get_cache ;;
         print (PingPongIteration (localeDate out) i (sideBuy c) simulatedProfit
                  (length infos)) ;;;
         if num_gtb simulatedProfit (minPercProfit (config c)) && tradingEnabled c
         then
           print (TradeWouldBeExecuted simulatedProfit) ;;;
           update_cache (fun c => set_sideBuy (negb (sideBuy c)) c)
         else ret tt
     end)
    (fun error => print (PingPongError error)).

End WithNumber.

Arguments Balances : clear implicits.
Arguments Config : clear implicits.
Arguments BotCache : clear implicits.
Arguments LogLine : clear implicits.
Arguments World : clear implicits.
Arguments Outside : clear implicits.
Arguments StrategyContext : clear implicits.

End CacheStrategies.

(** ** [strategies/pingpong.ts]: ping-pong over the quote API *)

Module ApiPingPong.

Import MNotations.

Section WithNumber.
Context {number : Type} `{JsNumber number}.

Inductive Direction : Type := ping | pong.

Record Keypair : Type := { publicKey : string }.

Record LastTrade : Type := {
  lt_inputToken : Token number;
  lt_outputToken : Token number;
  lt_inputAmount : number;
  lt_outputAmount : number;
  lt_timestamp : number
}.

(** The fields of the strategy object that [execute] reads or writes. *)
Record Strategy : Type := {
  direction : Direction;
  errorCount : Z;
  wallet : option Keypair;
  lastTrade : option LastTrade
}.

Definition set_errorCount (n : Z) (t : Strategy) : Strategy :=
  {| direction := direction t; errorCount := n; wallet := wallet t;
     lastTrade := lastTrade t |}.

Definition set_lastTrade (l : option LastTrade) (t : Strategy) : Strategy :=
  {| direction := direction t; errorCount := errorCount t; wallet := wallet t;
     lastTrade := l |}.

Definition set_direction (d : Direction) (t : Strategy) : Strategy :=
  {| direction := d; errorCount := errorCount t; wallet := wallet t;
     lastTrade := lastTrade t |}.

(** One element of the quote answer, with the fields [execute] reads. *)
Record Quote : Type := {
  q_outAmount : string;
  q_routePlan : list string
}.

Record QuoteParams : Type := {
  qp_inputMint : string;
  qp_outputMint : string;
  qp_amount : string;
  qp_slippageBps : number
}.

Inductive LogLine : Type :=
| TradeExecutionError (e : Thrown)
| ErrorCountTooHigh (count : Z)
| EndingToStop.

Record World : Type := {
  this : Strategy;
  console : list LogLine
}.

Definition get_this : M World Strategy := fun w => (w, Returned (this w)).

Definition update_this (f : Strategy -> Strategy) : M World unit :=
  fun w => ({| this := f (this w); console := console w |}, Returned tt).

Definition print (l : LogLine) : M World unit :=
  fun w => ({| this := this w; console := console w ++ [l] |}, Returned tt).

(** What is outside the strategy during one call of [execute]: the quote
    API ([None] is an answer without data), the swap API, the decoding of
    the transaction, the connection, and the three readings of the clock
    (at the start, for the trade's timestamp, at the return). *)
Record Outside : Type := {
  get_quote : QuoteParams -> Thrown + option (list Quote);
  post_swap : Quote -> string -> Thrown + string;
  Transaction_from : string -> Thrown + string;
  sendTransaction : string -> Keypair -> Thrown + string;
  confirmTransaction : string -> Thrown + unit;
  now_start : number;
  now_stamp : number;
  now_end : number
}.

Definition failure (amount : number) (message : string) (elapsed : number)
  : TradeResult number :=
  {| success := false; inputAmount := amount; outputAmount := num_of_Z 0;
     profit := num_of_Z 0; profitPercentage := num_of_Z 0;
     fees := None; txId := None; error := Some message; latency := elapsed |}.

(** The [try] block of [execute]: the quote, the swap transaction, its
    submission and confirmation, and the bookkeeping of the trade. *)
Definition try_block (out : Outside) (inputToken outputToken : Token number)
    (amount slippage : number) (wallet : Keypair) (startTime : number)
  : M World (TradeResult number) :=
  let amountInAtomic :=
    num_toString
      (num_floor (num_mul amount (num_pow (num_of_Z 10) (decimals inputToken)))) in
  quoteResponse <- lift (get_quote out
                           {| qp_inputMint := address inputToken;
                              qp_outputMint := address outputToken;
                              qp_amount := amountInAtomic;
                              qp_slippageBps := slippage |}) ;;
  match quoteResponse with
  | None | Some [] =>
      ret (failure amount "No routes found" (num_sub (now_end out) startTime))
  | Some (bestRoute :: _) =>
      swapTransaction <- lift (post_swap out bestRoute (publicKey wallet)) ;;
      transaction <- lift (Transaction_from out swapTransaction) ;;
      signature <- lift (sendTransaction out transaction wallet) ;;
      confirmation <- lift (confirmTransaction out signature) ;;
      let outputAmount :=
        num_div (parseInt (q_outAmount bestRoute))
                (num_pow (num_of_Z 10) (decimals outputToken)) in
      t <- get_this ;;
      let '(profit, profitPercentage) :=
        match lastTrade t, direction t with
        | Some last, pong =>
            let profit := num_sub outputAmount (lt_inputAmount last) in
            (profit,
             num_mul (num_div profit (lt_inputAmount last)) (num_of_Z 100))
        | _, _ => (num_of_Z 0, num_of_Z 0)
        end in
      update_this (set_lastTrade
                     (Some {| lt_inputToken := inputToken;
                              lt_outputToken := outputToken;
                              lt_inputAmount := amount;
                              lt_outputAmount := outputAmount;
                              lt_timestamp := now_stamp out |})) ;;;
      update_this (fun t =>
        set_direction (match direction t with ping => pong | pong => ping end) t) ;;;
      ret {| success := true; inputAmount := amount;
             outputAmount := outputAmount; profit := profit;
             profitPercentage := profitPercentage;
             fees := Some (num_of_Z 0); txId := Some signature;
             error := None;
             latency := num_sub (now_end out) startTime |}
  end.

(** The [catch] block of [execute]. *)
Definition catch_block (out : Outside) (amount startTime : number) (error : Thrown)
  : M World (TradeResult number) :=
  update_this (fun t => set_errorCount (errorCount t + 1) t) ;;;
  print (TradeExecutionError error) ;;;
  t <- get_this ;;
  (if errorCount t >? 100
   then print (ErrorCountTooHigh (errorCount t)) ;;;
        print EndingToStop ;;;
        process_exit 1
   else ret tt) ;;;
  ret (failure amount (describe error) (num_sub (now_end out) startTime)).

(** [PingPongStrategy.execute(inputToken, outputToken, amount, slippage)]. *)
Definition execute (out : Outside) (inputToken outputToken : Token number)
    (amount slippage : number) : M World (TradeResult number) :=
  t0 <- get_this ;;
  match wallet t0 with
  | None => ret (failure amount "No wallet available for execution" (num_of_Z 0))
  | Some wallet =>
      let startTime := now_start out in
      try_catch
        (try_block out inputToken outputToken amount slippage wallet startTime)
        (catch_block out amount startTime)
  end.

(** One call of [execute] with what is outside during it. *)
Record Call : Type := {
  call_outside : Outside;
  call_inputToken : Token number;
  call_outputToken : Token number;
  call_amount : number;
  call_slippage : number
}.

Definition call (c : Call) : M World (TradeResult number) :=
  execute (call_outside c) (call_inputToken c) (call_outputToken c)
          (call_amount c) (call_slippage c).

End WithNumber.

Arguments LastTrade : clear implicits.
Arguments Strategy : clear implicits.
Arguments QuoteParams : clear implicits.
Arguments World : clear implicits.
Arguments Outside : clear implicits.
Arguments Call : clear implicits.

End ApiPingPong.

(** ** [strategies/arbitrage.ts]: arbitrage over the route SDK *)

Module SdkArbitrage.

Import MNotations.

Section WithNumber.
Context {number : Type} `{JsNumber number}.

(** The loaded SDK object; what it answers is in [Outside]. *)
Inductive Jupiter : Type := JupiterSdk.

Record Strategy : Type := {
  jupiter : option Jupiter;
  errorCount : Z
}.

Definition set_errorCount (n : Z) (t : Strategy) : Strategy :=
  {| jupiter := jupiter t; errorCount := n |}.

Inductive LogLine : Type :=
| TradeExecutionError (e : Thrown)
| ErrorCountTooHigh (count : Z)
| EndingToStop.

Record World : Type := {
  this : Strategy;
  console : list LogLine
}.

Definition get_this : M World Strategy := fun w => (w, Returned (this w)).

Definition update_this (f : Strategy -> Strategy) : M World unit :=
  fun w => ({| this := f (this w); console := console w |}, Returned tt).

Definition print (l : LogLine) : M World unit :=
  fun w => ({| this := this w; console := console w ++ [l] |}, Returned tt).

(** What is outside the strategy during one call of [execute]: the
    big-integer and public-key constructors, the SDK's [computeRoutes],
    [exchange] (it hands back the [execute] closure, here the route it was
    built for) and that closure, whose result may carry a [txid]; and the
    two readings of the clock. *)
Record Outside : Type := {
  BigInt : number -> Thrown + Z;
  PublicKey : string -> Thrown + string;
  computeRoutes : RouteRequest number -> Thrown + Routes;
  exchange : RouteInfo -> Thrown + RouteInfo;
  exchange_execute : RouteInfo -> Thrown + option string;
  now_start : number;
  now_end : number
}.

Definition failure (amount : number) (message : string) (elapsed : number)
  : TradeResult number :=
  {| success := false; inputAmount := amount; outputAmount := num_of_Z 0;
     profit := num_of_Z 0; profitPercentage := num_of_Z 0;
     fees := None; txId := None; error := Some message; latency := elapsed |}.

Definition undefined_read (property : string) : Thrown :=
  ErrorObject ("Cannot read properties of undefined (reading '" ++ property ++ "')").

(** The [try] block of [execute].  The routes of the SDK carry their
    amounts as JSBI big integers, and the block converts the output amount
    of the best route with [Number(...)] after the swap has been made. *)
Definition try_block (out : Outside) (inputToken outputToken : Token number)
    (amount slippage startTime : number) : M World (TradeResult number) :=
  amountInJSBI <- lift (BigInt out
                          (num_mul amount
                             (num_pow (num_of_Z 10) (decimals inputToken)))) ;;
  inputMint <- lift (PublicKey out (address inputToken)) ;;
  outputMint <- lift (PublicKey out (address outputToken)) ;;
  routes <- lift (computeRoutes out
                    {| inputMint := inputMint; outputMint := outputMint;
                       amount := amountInJSBI; slippageBps := slippage;
                       filterTopNResult := None |}) ;;
  match routesInfos routes with
  | None => complete (Threw (undefined_read "length"))
  | Some [] =>
      ret (failure amount "No routes found" (num_sub (now_end out) startTime))
  | Some (bestRoute :: _) =>
      execute <- lift (exchange out bestRoute) ;;
      result_txid <- lift (exchange_execute out execute) ;;
      converted <- lift (Number_of_JSBI (outAmount bestRoute)) ;;
      let outputAmount :=
        num_div converted (num_pow (num_of_Z 10) (decimals outputToken)) in
      let profit := num_sub outputAmount amount in
      let profitPercentage := num_mul (num_div profit amount) (num_of_Z 100) in
      ret {| success := true; inputAmount := amount;
             outputAmount := outputAmount; profit := profit;
             profitPercentage := profitPercentage;
             fees := Some (num_of_Z (totalFees bestRoute));
             txId := result_txid; error := None;
             latency := num_sub (now_end out) startTime |}
  end.

(** The [catch] block of [execute]. *)
Definition catch_block (out : Outside) (amount startTime : number) (error : Thrown)
  : M World (TradeResult number) :=
  update_this (fun t => set_errorCount (errorCount t + 1) t) ;;;
  print (TradeExecutionError error) ;;;
  t <- get_this ;;
  (if errorCount t >? 100
   then print (ErrorCountTooHigh (errorCount t)) ;;;
        print EndingToStop ;;;
        process_exit 1
   else ret tt) ;;;
  ret (failure amount (describe error) (num_sub (now_end out) startTime)).

(** [ArbitrageStrategy.execute(inputToken, outputToken, amount, slippage)]. *)
Definition execute (out : Outside) (inputToken outputToken : Token number)
    (amount slippage : number) : M World (TradeResult number) :=
  t0 <- get_this ;;
  match jupiter t0 with
  | None => ret (failure amount "Jupiter not initialized" (num_of_Z 0))
  | Some _ =>
      let startTime := now_start out in
      try_catch
        (try_block out inputToken outputToken amount slippage startTime)
        (catch_block out amount startTime)
  end.

Record Call : Type := {
  call_outside : Outside;
  call_inputToken : Token number;
  call_outputToken : Token number;
  call_amount : number;
  call_slippage : number
}.

Definition call (c : Call) : M World (TradeResult number) :=
  execute (call_outside c) (call_inputToken c) (call_outputToken c)
          (call_amount c) (call_slippage c).

End WithNumber.

Arguments Outside : clear implicits.
Arguments Call : clear implicits.

End SdkArbitrage.

(** ** [utils/transaction.ts]: submission with retry *)

Module TransactionUtils.

Import MNotations.

(** What can be observed of one call: the submissions, the retry lines on
    the console, and the waits (in milliseconds). *)
Inductive Event : Type :=
| Submitted (transaction : string) (signers : list string)
| RetryLogged (retries maxRetries : Z)
| Waited (ms : Z).

(** The state of one call: how many times [sendAndConfirmTransaction] has
    been called, and the events so far. *)
Record World : Type := {
  submissions : nat;
  timeline : list Event
}.

Definition observe (e : Event) : M World unit :=
  fun w => ({| submissions := submissions w; timeline := timeline w ++ [e] |},
            Returned tt).

(** [sendAndConfirmTransaction(connection, transaction, signers, options)]:
    [answers n] is what the connection answers to the call number [n]
    (from 0) of this run. *)
Definition sendAndConfirmTransaction (answers : nat -> Thrown + string)
    (transaction : string) (signers : list string) : M World string :=
  fun w =>
    let w' := {| submissions := S (submissions w);
                 timeline := timeline w ++ [Submitted transaction signers] |} in
    lift (answers (submissions w)) w'.

(** The loop [while (retries < maxRetries)] with the variables [signature]
    and [retries].  An iteration ends in [return signature] ([inl]), in a
    throw, or at the end of the [catch] block with [retries] incremented
    ([inr]), from where the loop goes on.  [fuel] bounds the number of
    iterations; the loop needs at most [maxRetries - retries] of them. *)
Fixpoint retry_loop (fuel : nat) (answers : nat -> Thrown + string)
    (transaction : string) (signers : list string) (maxRetries : Z)
    (signature : string) (retries : Z) : M World string :=
  if retries <? maxRetries then
    match fuel with
    | O => ret signature
    | S fuel' =>
        step <-
          try_catch
            (signature' <- sendAndConfirmTransaction answers transaction signers ;;
             ret (inl signature'))
            (fun error =>
               let retries' := retries + 1 in
               if retries' >=? maxRetries then complete (Threw error)
               else
                 observe (RetryLogged retries' maxRetries) ;;;
                 observe (Waited 1000) ;;;
                 ret (inr retries')) ;;
        match step with
        | inl signature' => ret signature'
        | inr retries' =>
            retry_loop fuel' answers transaction signers maxRetries
                       signature retries'
        end
    end
  else ret signature.

(** [TransactionUtils.sendTransactionWithRetry(connection, transaction,
    signers, options, maxRetries = 3)]; [None] is the omitted argument. *)
Definition sendTransactionWithRetry (answers : nat -> Thrown + string)
    (transaction : string) (signers : list string) (maxRetries : option Z)
  : M World string :=
  let maxRetries := match maxRetries with Some m => m | None => 3 end in
  retry_loop (Z.to_nat maxRetries) answers transaction signers maxRetries "" 0.

Definition fresh : World := {| submissions := 0; timeline := [] |}.

End TransactionUtils.

(** ** [core/EventEmitter.ts] *)

Module Emitter.

Import MNotations.

(** A callback is a function object.  [Listener id] is a function of the
    program, identified by [id]; [OnceCallback serial event callback] is the
    closure [onceCallback] that the call number [serial] of [once] creates. *)
Inductive Callback : Type :=
| Listener (id : nat)
| OnceCallback (serial : nat) (event : string) (callback : Callback).

#[export] Instance Callback_eq_dec : EqDecision Callback.
Proof. solve_decision. Defined.

Section WithListeners.
(** [Arg] are the values listeners are called with, [User] is the state of
    the program outside the emitter. *)
Context {Arg User : Type}.

Inductive LogLine : Type :=
| ListenerError (event : string) (err : Thrown).

(** The emitter object ([events], and the number of [once] closures made so
    far), the rest of the program and the console. *)
Record Heap : Type := {
  events : gmap string (list Callback);
  onceCount : nat;
  user : User;
  console : list LogLine
}.

Definition set_events (m : gmap string (list Callback)) (h : Heap) : Heap :=
  {| events := m; onceCount := onceCount h; user := user h; console := console h |}.

(** What the functions of the program do when they are called: anything,
    on the whole heap (they may register and remove listeners). *)
Variable react : nat -> list Arg -> M Heap unit.

(** [on(event, callback)]. *)
Definition on (event : string) (callback : Callback) : M Heap unit :=
  modify_state (fun h =>
    let callbacks := default [] (events h !! event) in
    set_events (<[event := callbacks ++ [callback]]> (events h)) h).

(** [callbacks.indexOf(callback)] and [callbacks.splice(index, 1)]. *)
Fixpoint indexOf (callbacks : list Callback) (callback : Callback) : option nat :=
  match callbacks with
  | [] => None
  | c :: rest =>
      if decide (c = callback) then Some O
      else option_map S (indexOf rest callback)
  end.

Fixpoint splice1 (callbacks : list Callback) (index : nat) : list Callback :=
  match callbacks, index with
  | [], _ => []
  | _ :: rest, O => rest
  | c :: rest, S index' => c :: splice1 rest index'
  end.

(** [off(event, callback)]. *)
Definition off (event : string) (callback : Callback) : M Heap unit :=
  modify_state (fun h =>
    match events h !! event with
    | None => h
    | Some callbacks =>
        match indexOf callbacks callback with
        | Some index =>
            let callbacks' := splice1 callbacks index in
            if (length callbacks' =? 0)%nat
            then set_events (delete event (events h)) h
            else set_events (<[event := callbacks']> (events h)) h
        | None => h
        end
    end).

(** [once(event, callback)]. *)
Definition once (event : string) (callback : Callback) : M Heap unit :=
  h <- get_state ;;
  let onceCallback := OnceCallback (onceCount h) event callback in
  modify_state (fun h =>
    {| events := events h; onceCount := S (onceCount h); user := user h;
       console := console h |}) ;;;
  on event onceCallback.

(** The call [callback(...args)]. *)
Fixpoint invoke (callback : Callback) (args : list Arg) : M Heap unit :=
  match callback with
  | Listener id => react id args
  | OnceCallback serial event inner =>
      off event (OnceCallback serial event inner) ;;;
      invoke inner args
  end.

(** The state in which [emit] is observed: the heap, and the calls that
    this [emit] has made so far (a record kept for the proofs; the
    listeners have no access to it). *)
Record Observed : Type := {
  heap : Heap;
  called : list Callback
}.

Definition in_heap {A} (m : M Heap A) : M Observed A :=
  fun o =>
    let '(h', c) := m (heap o) in ({| heap := h'; called := called o |}, c).

Definition note_call (callback : Callback) : M Observed unit :=
  modify_state (fun o => {| heap := heap o; called := called o ++ [callback] |}).

Definition console_error (l : LogLine) : M Heap unit :=
  modify_state (fun h =>
    {| events := events h; onceCount := onceCount h; user := user h;
       console := console h ++ [l] |}).

(** The loop [for (const callback of callbacks)] of [emit]. *)
Fixpoint emit_loop (event : string) (callbacks : list Callback) (args : list Arg)
  : M Observed unit :=
  match callbacks with
  | [] => ret tt
  | callback :: rest =>
      try_catch
        (note_call callback ;;; in_heap (invoke callback args))
        (fun err => in_heap (console_error (ListenerError event err))) ;;;
      emit_loop event rest args
  end.

(** [emit(event, ...args)]: the loop runs over a copy of the array. *)
Definition emit (event : string) (args : list Arg) : M Observed unit :=
  o <- get_state ;;
  match events (heap o) !! event with
  | None => ret tt
  | Some registered =>
      let callbacks := registered in
      emit_loop event callbacks args
  end.

(** [removeAllListeners(event?)] and [listenerCount(event)]. *)
Definition removeAllListeners (event : option string) : M Heap unit :=
  modify_state (fun h =>
    match event with
    | Some e => if decide (e = "") then set_events ∅ h
                else set_events (delete e (events h)) h
    | None => set_events ∅ h
    end).

Definition listenerCount (event : string) (h : Heap) : nat :=
  match events h !! event with
  | None => 0%nat
  | Some callbacks => length callbacks
  end.

End WithListeners.

Arguments Heap : clear implicits.
Arguments Observed : clear implicits.

End Emitter.

(** ** [core/events.ts]: the event bus

    [EventBus] wraps an emitter of the platform (the class [EventEmitter] of
    the module [events]) and hands its calls over to it.  Embedded are [on]
    and [emit]: the emitter of the platform keeps the listeners of an event
    in the order in which they were added, and its [emit] calls them one
    after the other with nothing around the calls, so that what a listener
    throws is thrown by [emit].  The events are those of [EventType]. *)

Module EventBus.

Import MNotations.

Inductive EventType : Type :=
| SYSTEM_READY | SYSTEM_SHUTDOWN | SYSTEM_ERROR
| TRADE_START | TRADE_COMPLETE | TRADE_ERROR | SIMULATION_COMPLETE
| CONFIG_LOADED | CONFIG_UPDATED
| UI_UPDATE | UI_KEYPRESS
| PLUGIN_LOADED | PLUGIN_STARTED | PLUGIN_STOPPED | PLUGIN_ERROR.

#[export] Instance EventType_eq_dec : EqDecision EventType.
Proof. solve_decision. Defined.

Section WithListeners.
(** [Data] are the values emitted with the events, [User] is the state of
    the program outside the bus. *)
Context {Data User : Type}.

(** The emitter of the platform (for every event its listeners, which are
    functions of the program identified by a number) and the rest of the
    program. *)
Record Heap : Type := {
  registered : EventType -> list nat;
  user : User
}.

(** What the functions of the program do when they are called: anything,
    on the whole heap. *)
Variable react : nat -> list Data -> M Heap unit.

(** [on(event, listener)]: [this.eventEmitter.on(event, listener)]. *)
Definition on (event : EventType) (listener : nat) : M Heap unit :=
  modify_state (fun h =>
    {| registered := fun e =>
         if decide (e = event) then registered h e ++ [listener]
         else registered h e;
       user := user h |}).

(** The calls that the emitter of the platform makes, over a copy of the
    array of listeners. *)
Fixpoint call_listeners (listeners : list nat) (args : list Data) : M Heap unit :=
  match listeners with
  | [] => ret tt
  | listener :: rest =>
      react listener args ;;;
      call_listeners rest args
  end.

(** [emit(event, data)]: [this.eventEmitter.emit(event, data)]. *)
Definition emit (event : EventType) (data : Data) : M Heap unit :=
  h <- get_state ;;
  call_listeners (registered h event) [data].

End WithListeners.

Arguments Heap : clear implicits.

End EventBus.

(** ** [core/app.ts]: the application and its plugins *)

Module App.

Import MNotations.

(** A plugin object: its name and version, and what its [initialize],
    [start] and [stop] do when the application calls them (they answer or
    throw). *)
Record Plugin : Type := {
  name : string;
  version : string;
  initialize : Thrown + unit;
  start : Thrown + unit;
  stop : Thrown + unit
}.

(** The events of [EventType] that the application emits, with their
    payloads. *)
Inductive BusEvent : Type :=
| PLUGIN_LOADED (name version : string)
| PLUGIN_STARTED (name : string)
| PLUGIN_STOPPED (name : string)
| PLUGIN_ERROR (name : string) (error : string)
| SYSTEM_READY
| SYSTEM_SHUTDOWN.

Inductive LogLine : Type :=
| AlreadyRunning
| Starting
| PluginStarted (name : string)
| FailedToStart (name : string) (e : Thrown)
| Started
| NotRunning
| Stopping
| PluginStopped (name : string)
| FailedToStop (name : string) (e : Thrown)
| Stopped
| PluginRegistered (name version : string).

(** The calls of plugin methods that the application makes (a record kept
    for the proofs). *)
Inductive Invocation : Type :=
| CalledInitialize (name : string)
| CalledStart (name : string)
| CalledStop (name : string).

(** The application object ([plugins] is a [Map], iterated in insertion
    order: here the list of its entries), the events it has emitted on the
    bus, the console and the calls made. *)
Record World : Type := {
  plugins : list (string * Plugin);
  isRunning : bool;
  emitted : list BusEvent;
  console : list LogLine;
  invocations : list Invocation
}.

Definition set_isRunning (b : bool) : M World unit :=
  modify_state (fun w =>
    {| plugins := plugins w; isRunning := b; emitted := emitted w;
       console := console w; invocations := invocations w |}).

Definition print (l : LogLine) : M World unit :=
  modify_state (fun w =>
    {| plugins := plugins w; isRunning := isRunning w; emitted := emitted w;
       console := console w ++ [l]; invocations := invocations w |}).

Definition invoked (i : Invocation) : M World unit :=
  modify_state (fun w =>
    {| plugins := plugins w; isRunning := isRunning w; emitted := emitted w;
       console := console w; invocations := invocations w ++ [i] |}).

(** What the subscribers of the bus do when an event is delivered to them,
    given the events emitted before it: they return, or one of them throws. *)
Definition Subscribers : Type := list BusEvent -> BusEvent -> Thrown + unit.

(** [this.eventBus.emit(type, data)].  [EventBus.emit] of [core/events.ts]
    hands the call to the emitter of the platform, which calls the
    subscribers with nothing around the calls: what a subscriber throws is
    thrown by [emit]. *)
Definition eventBus_emit (subscribers : Subscribers) (e : BusEvent) : M World unit :=
  w <- get_state ;;
  modify_state (fun w =>
    {| plugins := plugins w; isRunning := isRunning w;
       emitted := emitted w ++ [e];
       console := console w; invocations := invocations w |}) ;;;
  lift (subscribers (emitted w) e).

(** [this.plugins.has(name)] and [this.plugins.set(name, plugin)]. *)
Fixpoint has (entries : list (string * Plugin)) (key : string) : bool :=
  match entries with
  | [] => false
  | (k, _) :: rest => if String.eqb k key then true else has rest key
  end.

Fixpoint set (entries : list (string * Plugin)) (key : string) (p : Plugin)
  : list (string * Plugin) :=
  match entries with
  | [] => [(key, p)]
  | (k, q) :: rest =>
      if String.eqb k key then (k, p) :: rest else (k, q) :: set rest key p
  end.

(** [registerPlugin(plugin)]. *)
Definition registerPlugin (subscribers : Subscribers) (plugin : Plugin)
  : M World unit :=
  w <- get_state ;;
  if has (plugins w) (name plugin)
  then complete (Threw (ErrorObject
         ("Plugin '" ++ name plugin ++ "' is already registered")))
  else
    invoked (CalledInitialize (name plugin)) ;;;
    lift (initialize plugin) ;;;
    modify_state (fun w =>
      {| plugins := set (plugins w) (name plugin) plugin;
         isRunning := isRunning w; emitted := emitted w;
         console := console w; invocations := invocations w |}) ;;;
    eventBus_emit subscribers (PLUGIN_LOADED (name plugin) (version plugin)) ;;;
    print (PluginRegistered (name plugin) (version plugin)).

(** The loop [for (const [name, plugin] of this.plugins.entries())] of
    [start].  The [emit] of the [try] block is covered by the [catch]; the
    one of the [catch] block is not. *)
Fixpoint start_loop (subscribers : Subscribers) (entries : list (string * Plugin))
  : M World unit :=
  match entries with
  | [] => ret tt
  | (name, plugin) :: rest =>
      try_catch
        (invoked (CalledStart name) ;;;
         lift (start plugin) ;;;
         eventBus_emit subscribers (PLUGIN_STARTED name) ;;;
         print (PluginStarted name))
        (fun error =>
           print (FailedToStart name error) ;;;
           eventBus_emit subscribers (PLUGIN_ERROR name (describe error))) ;;;
      start_loop subscribers rest
  end.

(** [Application.start()]. *)
Definition Application_start (subscribers : Subscribers) : M World unit :=
  w <- get_state ;;
  if isRunning w then print AlreadyRunning
  else
    print Starting ;;;
    start_loop subscribers (plugins w) ;;;
    set_isRunning true ;;;
    eventBus_emit subscribers SYSTEM_READY ;;;
    print Started.

(** The loop of [stop]. *)
Fixpoint stop_loop (subscribers : Subscribers) (entries : list (string * Plugin))
  : M World unit :=
  match entries with
  | [] => ret tt
  | (name, plugin) :: rest =>
      try_catch
        (invoked (CalledStop name) ;;;
         lift (stop plugin) ;;;
         eventBus_emit subscribers (PLUGIN_STOPPED name) ;;;
         print (PluginStopped name))
        (fun error =>
           print (FailedToStop name error) ;;;
           eventBus_emit subscribers (PLUGIN_ERROR name (describe error))) ;;;
      stop_loop subscribers rest
  end.

(** [Application.stop()]. *)
Definition Application_stop (subscribers : Subscribers) : M World unit :=
  w <- get_state ;;
  if negb (isRunning w) then print NotRunning
  else
    print Stopping ;;;
    stop_loop subscribers (plugins w) ;;;
    set_isRunning false ;;;
    eventBus_emit subscribers SYSTEM_SHUTDOWN ;;;
    print Stopped.

(** The application as its constructor leaves it. *)
Definition fresh : World :=
  {| plugins := []; isRunning := false; emitted := []; console := [];
     invocations := [] |}.

End App.

(** ** [interfaces/strategy.ts] and the [simulate] methods *)

Module Simulation.

Import MNotations.

Section WithNumber.
Context {number : Type} `{JsNumber number}.

(** [SimulationResult]. *)
Record SimulationResult : Type := {
  sim_success : bool;
  sim_inputAmount : number;
  sim_outputAmount : number;
  expectedProfit : number;
  expectedProfitPercentage : number;
  sim_error : option string;
  sim_latency : number
}.

Definition sim_failure (amount : number) (message : string) (elapsed : number)
  : SimulationResult :=
  {| sim_success := false; sim_inputAmount := amount;
     sim_outputAmount := num_of_Z 0; expectedProfit := num_of_Z 0;
     expectedProfitPercentage := num_of_Z 0; sim_error := Some message;
     sim_latency := elapsed |}.

(** A strategy object (with the console lines of its [execute]) together
    with the errors that its [simulate] has printed
    ([console.error('Simulation error:', error)]). *)
Record Simulated (W : Type) : Type := {
  strategy : W;
  simulation_errors : list Thrown
}.
Arguments strategy {W} _.
Arguments simulation_errors {W} _.

Definition in_strategy {W A : Type} (m : M W A) : M (Simulated W) A :=
  fun s =>
    let '(w', c) := m (strategy s) in
    ({| strategy := w'; simulation_errors := simulation_errors s |}, c).

Definition print_simulation_error {W : Type} (error : Thrown) : M (Simulated W) unit :=
  modify_state (fun s =>
    {| strategy := strategy s;
       simulation_errors := simulation_errors s ++ [error] |}).

(** What is outside [PingPongStrategy.simulate] of [strategies/pingpong.ts]
    during one call: the answers of the quote API to the request of the
    first leg and to that of the way back, and the two readings of the
    clock. *)
Record PingPongOutside : Type := {
  get_quote : ApiPingPong.QuoteParams number
              -> Thrown + option (list ApiPingPong.Quote);
  get_pong_quote : ApiPingPong.QuoteParams number
                   -> Thrown + option (list ApiPingPong.Quote);
  pp_now_start : number;
  pp_now_end : number
}.

(** [PingPongStrategy.simulate(inputToken, outputToken, amount)] of
    [strategies/pingpong.ts]. *)
Definition PingPongStrategy_simulate (out : PingPongOutside)
    (inputToken outputToken : Token number) (amount : number)
  : M (Simulated (ApiPingPong.World number)) SimulationResult :=
  let startTime := pp_now_start out in
  try_catch
    (let amountInAtomic :=
       num_toString
         (num_floor (num_mul amount (num_pow (num_of_Z 10) (decimals inputToken)))) in
     quoteResponse <- lift (get_quote out
                              {| ApiPingPong.qp_inputMint := address inputToken;
                                 ApiPingPong.qp_outputMint := address outputToken;
                                 ApiPingPong.qp_amount := amountInAtomic;
                                 ApiPingPong.qp_slippageBps := num_of_Z 0 |}) ;;
     match quoteResponse with
     | None | Some [] =>
         ret (sim_failure amount "No routes found" (num_sub (pp_now_end out) startTime))
     | Some (bestRoute :: _) =>
         let outputAmount :=
           num_div (parseInt (ApiPingPong.q_outAmount bestRoute))
                   (num_pow (num_of_Z 10) (decimals outputToken)) in
         t <- in_strategy ApiPingPong.get_this ;;
         expected <-
           match ApiPingPong.direction t with
           | ApiPingPong.ping =>
               let pongAmount := outputAmount in
               let pongAmountAtomic :=
                 num_toString
                   (num_floor (num_mul pongAmount
                                 (num_pow (num_of_Z 10) (decimals outputToken)))) in
               pongQuoteResponse <-
                 lift (get_pong_quote out
                         {| ApiPingPong.qp_inputMint := address outputToken;
                            ApiPingPong.qp_outputMint := address inputToken;
                            ApiPingPong.qp_amount := pongAmountAtomic;
                            ApiPingPong.qp_slippageBps := num_of_Z 0 |}) ;;
               match pongQuoteResponse with
               | Some (roundTripOutput :: _) =>
                   let roundTripAmount :=
                     num_div (parseInt (ApiPingPong.q_outAmount roundTripOutput))
                             (num_pow (num_of_Z 10) (decimals inputToken)) in
                   let expectedProfit := num_sub roundTripAmount amount in
                   ret (expectedProfit,
                        num_mul (num_div expectedProfit amount) (num_of_Z 100))
               | _ => ret (num_of_Z 0, num_of_Z 0)
               end
           | ApiPingPong.pong =>
               match ApiPingPong.lastTrade t with
               | Some last =>
                   let expectedProfit :=
                     num_sub outputAmount (ApiPingPong.lt_inputAmount last) in
                   ret (expectedProfit,
                        num_mul (num_div expectedProfit (ApiPingPong.lt_inputAmount last))
                                (num_of_Z 100))
               | None => ret (num_of_Z 0, num_of_Z 0)
               end
           end ;;
         ret {| sim_success := true; sim_inputAmount := amount;
                sim_outputAmount := outputAmount;
                expectedProfit := fst expected;
                expectedProfitPercentage := snd expected;
                sim_error := None;
                sim_latency := num_sub (pp_now_end out) startTime |}
     end)
    (fun error =>
       print_simulation_error error ;;;
       ret (sim_failure amount (describe error) (num_sub (pp_now_end out) startTime))).

(** [ArbitrageStrategy.simulate(inputToken, outputToken, amount)] of
    [strategies/arbitrage.ts]; of what is outside it reads the constructors,
    [computeRoutes] and the clock.  The output amount of the best route is
    converted with [Number(...)], as in [execute]. *)
Definition ArbitrageStrategy_simulate (out : SdkArbitrage.Outside number)
    (inputToken outputToken : Token number) (amount : number)
  : M (Simulated SdkArbitrage.World) SimulationResult :=
  t0 <- in_strategy SdkArbitrage.get_this ;;
  match SdkArbitrage.jupiter t0 with
  | None => ret (sim_failure amount "Jupiter not initialized" (num_of_Z 0))
  | Some _ =>
      let startTime := SdkArbitrage.now_start out in
      try_catch
        (amountInJSBI <- lift (SdkArbitrage.BigInt out
                                 (num_mul amount
                                    (num_pow (num_of_Z 10) (decimals inputToken)))) ;;
         inputMint <- lift (SdkArbitrage.PublicKey out (address inputToken)) ;;
         outputMint <- lift (SdkArbitrage.PublicKey out (address outputToken)) ;;
         routes <- lift (SdkArbitrage.computeRoutes out
                           {| inputMint := inputMint; outputMint := outputMint;
                              amount := amountInJSBI; slippageBps := num_of_Z 0;
                              filterTopNResult := None |}) ;;
         match routesInfos routes with
         | None => complete (Threw (SdkArbitrage.undefined_read "length"))
         | Some [] =>
             ret (sim_failure amount "No routes found"
                    (num_sub (SdkArbitrage.now_end out) startTime))
         | Some (bestRoute :: _) =>
             converted <- lift (Number_of_JSBI (outAmount bestRoute)) ;;
             let outputAmount :=
               num_div converted (num_pow (num_of_Z 10) (decimals outputToken)) in
             let expectedProfit := num_sub outputAmount amount in
             let expectedProfitPercentage :=
               num_mul (num_div expectedProfit amount) (num_of_Z 100) in
             ret {| sim_success := true; sim_inputAmount := amount;
                    sim_outputAmount := outputAmount;
                    expectedProfit := expectedProfit;
                    expectedProfitPercentage := expectedProfitPercentage;
                    sim_error := None;
                    sim_latency := num_sub (SdkArbitrage.now_end out) startTime |}
         end)
        (fun error =>
           print_simulation_error error ;;;
           ret (sim_failure amount (describe error)
                  (num_sub (SdkArbitrage.now_end out) startTime)))
  end.

End WithNumber.

Arguments SimulationResult : clear implicits.
Arguments PingPongOutside : clear implicits.
Arguments strategy {W} _.
Arguments simulation_errors {W} _.

End Simulation.

(** ** The trading loop of the entry point *)

Module Bot.

Import MNotations.

Section WithNumber.
Context {number : Type} `{JsNumber number}.

(** [config.trading], with the properties the loop reads. *)
Record TradingConfig : Type := {
  inputToken : Token number;
  outputToken : Token number;
  tradeSize : number;
  minPercProfit : number;
  slippage : number
}.

(** The two methods of [TradingStrategy] that the loop calls, on a strategy
    object of type [W]: what they do during one tick. *)
Record TradingStrategy (W : Type) : Type := {
  simulate : Token number -> Token number -> number
             -> M W (Simulation.SimulationResult number);
  execute : Token number -> Token number -> number -> number
            -> M W (TradeResult number)
}.
Arguments simulate {W} _.
Arguments execute {W} _.

Inductive BusEvent : Type :=
| SIMULATION_COMPLETE (result : Simulation.SimulationResult number)
| TRADE_COMPLETE (result : TradeResult number).

Inductive LogLine : Type :=
| SimulationNotProfitable
| TradingError (e : Thrown)
| SimulationError (e : Thrown).

(** The process during the loop: the strategy object, the events emitted
    on the bus and the console of the loop. *)
Record World (W : Type) : Type := {
  strategy_object : W;
  emitted : list BusEvent;
  console : list LogLine
}.
Arguments strategy_object {W} _.
Arguments emitted {W} _.
Arguments console {W} _.

Definition on_strategy {W A : Type} (m : M W A) : M (World W) A :=
  fun b =>
    let '(w', c) := m (strategy_object b) in
    ({| strategy_object := w'; emitted := emitted b; console := console b |}, c).

Definition print {W : Type} (l : LogLine) : M (World W) unit :=
  modify_state (fun b =>
    {| strategy_object := strategy_object b; emitted := emitted b;
       console := console b ++ [l] |}).

(** [EventBus.getInstance().emit(type, data)]: the emitter of the platform
    calls the listeners, and what a listener throws is thrown by [emit];
    [listeners] is what the listeners of the event do. *)
Definition eventBus_emit {W : Type} (listeners : BusEvent -> Thrown + unit)
    (e : BusEvent) : M (World W) unit :=
  modify_state (fun b =>
    {| strategy_object := strategy_object b; emitted := emitted b ++ [e];
       console := console b |}) ;;;
  lift (listeners e).

(** One run of the callback that [runSimulation] gives to [setInterval]. *)
Definition runSimulation_tick {W : Type} (strategy : TradingStrategy W)
    (config : TradingConfig) (listeners : BusEvent -> Thrown + unit)
  : M (World W) unit :=
  try_catch
    (result <- on_strategy (simulate strategy (inputToken config)
                              (outputToken config) (tradeSize config)) ;;
     eventBus_emit listeners (SIMULATION_COMPLETE result))
    (fun error => print (SimulationError error)).

(** One run of the callback that [runTrading] gives to [setInterval]; the
    comparison [a >= b] is [b <= a]. *)
Definition runTrading_tick {W : Type} (strategy : TradingStrategy W)
    (config : TradingConfig) (listeners : BusEvent -> Thrown + unit)
  : M (World W) unit :=
  try_catch
    (simResult <- on_strategy (simulate strategy (inputToken config)
                                 (outputToken config) (tradeSize config)) ;;
     if Simulation.sim_success simResult
        && num_leb (minPercProfit config)
                   (Simulation.expectedProfitPercentage simResult)
     then
       tradeResult <- on_strategy (execute strategy (inputToken config)
                                     (outputToken config) (tradeSize config)
                                     (slippage config)) ;;
       eventBus_emit listeners (TRADE_COMPLETE tradeResult)
     else print SimulationNotProfitable)
    (fun error => print (TradingError error)).

End WithNumber.

Arguments TradingConfig : clear implicits.
Arguments TradingStrategy : clear implicits.
Arguments BusEvent : clear implicits.
Arguments World : clear implicits.
Arguments simulate {number W} _.
Arguments execute {number W} _.
Arguments strategy_object {number W} _.
Arguments emitted {number W} _.
Arguments console {number W} _.

End Bot.

(** ** Configuration: [verifyConfig] of [utils] and [mergeConfigs] of the
    configuration loader *)

Module Config.

Import MNotations.

(** A value that [JSON.parse] gives.  An object is the list of its own
    properties, looked up by key; its prototype is [Object.prototype], and
    the order of enumeration is not part of the model. *)
#[warnings="-register-all"]
Inductive Json : Type :=
| JNull
| JBool (b : bool)
| JNum (q : Q)
| JStr (s : string)
| JArr (items : list Json)
| JObj (fields : list (string * Json)).

(** [!!value]. *)
Definition truthy (value : Json) : bool :=
  match value with
  | JNull => false
  | JBool b => b
  | JNum q => negb (Qeq_bool q 0)
  | JStr s => negb (String.eqb s "")
  | JArr _ | JObj _ => true
  end.

(** [isObject(item)]: [item && typeof item === 'object' &&
    !Array.isArray(item)]. *)
Definition isObject (item : Json) : bool :=
  match item with
  | JObj _ => true
  | _ => false
  end.

(** [object[key]] on own properties ([None] is [undefined]) and the
    assignment of an own property. *)
Fixpoint get (fields : list (string * Json)) (key : string) : option Json :=
  match fields with
  | [] => None
  | (k, v) :: rest => if String.eqb k key then Some v else get rest key
  end.

Fixpoint set (fields : list (string * Json)) (key : string) (value : Json)
  : list (string * Json) :=
  match fields with
  | [] => [(key, value)]
  | (k, v) :: rest =>
      if String.eqb k key then (k, value) :: rest else (k, v) :: set rest key value
  end.

(** The own property [key] of a value that is not [null]; for the keys
    that are not names of [Object.prototype] it is [value[key]]. *)
Definition property (value : Json) (key : string) : option Json :=
  match value with
  | JObj fields => get fields key
  | _ => None
  end.

(** The own enumerable properties that [{ ...target }] copies: those of an
    object, the elements of an array and the characters of a string under
    their indices, and nothing for the other values. *)
Definition index_key (n : nat) : string := x_toString (Fin (inject_Z (Z.of_nat n))).

Fixpoint indexed (values : list Json) (from : nat) : list (string * Json) :=
  match values with
  | [] => []
  | v :: rest => (index_key from, v) :: indexed rest (S from)
  end.

Definition characters (s : string) : list Json :=
  map (fun c => JStr (String c EmptyString)) (list_ascii_of_string s).

Definition spread (target : Json) : list (string * Json) :=
  match target with
  | JObj fields => fields
  | JArr items => indexed items 0
  | JStr s => indexed (characters s) 0
  | JNull | JBool _ | JNum _ => []
  end.

(** The names that every object inherits from [Object.prototype]: under
    them [key in target] holds of every object, and [target[key]] is a
    function of the prototype, except under [__proto__], where it is the
    prototype itself. *)
Definition inherited : list string :=
  ["constructor"; "__defineGetter__"; "__defineSetter__"; "hasOwnProperty";
   "__lookupGetter__"; "__lookupSetter__"; "isPrototypeOf";
   "propertyIsEnumerable"; "toString"; "valueOf"; "__proto__"; "toLocaleString"].

Definition is_inherited (key : string) : bool :=
  existsb (String.eqb key) inherited.

(** The own properties of [output] after [output[key] = value], which is
    also what [Object.assign(output, { [key]: value })] does to them.  Under
    the name [__proto__] an object without an own property of that name has
    the accessor of its prototype: the assignment calls the accessor, and no
    own property is written. *)
Definition assign (output : list (string * Json)) (key : string) (value : Json)
  : list (string * Json) :=
  match get output key with
  | Some _ => set output key value
  | None => if String.eqb key "__proto__" then output else set output key value
  end.

(** [mergeConfigs(target, source)]; the result is given by its own
    properties (a key [__proto__] of the source that the target does not
    have as an own property replaces the prototype of the result, which is
    not represented).  For an object of the source under a key that the
    target has by inheritance only, [target[key]] is a function: it is not
    an object for [isObject] and has nothing that [{ ...target }] copies, so
    that the merge into it gives the empty object. *)
Fixpoint mergeConfigs (target source : Json) {struct source} : Json :=
  let output := spread target in
  match source with
  | JObj entries =>
      if isObject target then
        JObj ((fix forEach (entries : list (string * Json))
                   (output : list (string * Json)) : list (string * Json) :=
                 match entries with
                 | [] => output
                 | (key, value) :: rest =>
                     forEach rest
                       (match value with
                        | JObj _ =>
                            match property target key with
                            | Some inner =>
                                assign output key (mergeConfigs inner value)
                            | None =>
                                if is_inherited key
                                then assign output key (JObj [])
                                else assign output key value
                            end
                        | _ => assign output key value
                        end)
                 end) entries output)
      else JObj output
  | _ => JObj output
  end.

(** [verifyConfig(config)]: the keys it requires, the line it prints, and
    the function; reading a property of [null] throws. *)
Definition requiredKeys : list string :=
  ["network"; "rpc"; "tradingStrategy"; "tokens"; "tradeSize"; "minPercProfit";
   "slippage"].

Inductive LogLine : Type :=
| MissingRequiredKeys (missingKeys : list string).

Definition falsy_property (config : Json) (key : string) : bool :=
  match property config key with
  | Some value => negb (truthy value)
  | None => true
  end.

Definition verifyConfig (config : Json) : M (list LogLine) bool :=
  match config with
  | JNull =>
      complete (Threw (ErrorObject
        "Cannot read properties of null (reading 'network')"))
  | _ =>
      let missingKeys := filter (falsy_property config) requiredKeys in
      if (0 <? length missingKeys)%nat
      then modify_state (fun console => console ++ [MissingRequiredKeys missingKeys]) ;;;
           ret false
      else ret true
  end.

End Config.

(** ** The plugin loader that follows [strategies/pingpong.ts] *)

Module PluginLoader.

Import MNotations.

(** A plugin of [types]: its identifier, its name, whether it is enabled,
    and what its [execute] does when it is called. *)
Record Plugin : Type := {
  id : string;
  name : string;
  enabled : bool;
  execute : Thrown + unit
}.

Inductive LogLine : Type :=
| PluginDirectoryNotFound (pluginsDir : string)
| PluginLoaded (name id : string)
| FailedToLoad (file : string) (err : Thrown)
| LoadedPlugins (size : nat)
| ErrorLoadingPlugins (err : Thrown)
| ErrorExecuting (name : string) (err : Thrown).

(** The loader ([plugins] is a [Map], here the list of its entries in
    insertion order), the console, and the records kept for the proofs: the
    paths given to [require] and the plugins whose [execute] was called. *)
Record World : Type := {
  plugins : list (string * Plugin);
  console : list LogLine;
  required : list string;
  executed : list string
}.

Definition print (l : LogLine) : M World unit :=
  modify_state (fun w =>
    {| plugins := plugins w; console := console w ++ [l];
       required := required w; executed := executed w |}).

(** [this.plugins.set(key, plugin)]. *)
Fixpoint set (entries : list (string * Plugin)) (key : string) (p : Plugin)
  : list (string * Plugin) :=
  match entries with
  | [] => [(key, p)]
  | (k, q) :: rest =>
      if String.eqb k key then (k, p) :: rest else (k, q) :: set rest key p
  end.

(** [file.endsWith(suffix)]. *)
Definition endsWith (file suffix : string) : bool :=
  let n := String.length file in
  let k := String.length suffix in
  (k <=? n)%nat && String.eqb (substring (n - k) k file) suffix.

(** The file system and the module loader: [require] gives the default
    export of the module when there is one and [isValidPlugin] accepts it,
    [None] otherwise, or throws. *)
Record Outside : Type := {
  existsSync : string -> bool;
  readdirSync : string -> Thrown + list string;
  path_join : string -> string -> string;
  require : string -> Thrown + option Plugin
}.

(** The loop [for (const file of files)] of [loadPlugins]. *)
Fixpoint load_loop (out : Outside) (pluginsDir : string) (files : list string)
  : M World unit :=
  match files with
  | [] => ret tt
  | file :: rest =>
      try_catch
        (let pluginPath := path_join out pluginsDir file in
         modify_state (fun w =>
           {| plugins := plugins w; console := console w;
              required := required w ++ [pluginPath]; executed := executed w |}) ;;;
         pluginModule <- lift (require out pluginPath) ;;
         match pluginModule with
         | Some plugin =>
             modify_state (fun w =>
               {| plugins := set (plugins w) (id plugin) plugin;
                  console := console w; required := required w;
                  executed := executed w |}) ;;;
             print (PluginLoaded (name plugin) (id plugin))
         | None => ret tt
         end)
        (fun err => print (FailedToLoad file err)) ;;;
      load_loop out pluginsDir rest
  end.

(** [loadPlugins()]. *)
Definition loadPlugins (out : Outside) (pluginsDir : string) : M World unit :=
  try_catch
    (if negb (existsSync out pluginsDir)
     then print (PluginDirectoryNotFound pluginsDir)
     else
       entries <- lift (readdirSync out pluginsDir) ;;
       let files :=
         List.filter (fun file => endsWith file ".js" || endsWith file ".ts") entries in
       load_loop out pluginsDir files ;;;
       w <- get_state ;;
       print (LoadedPlugins (length (plugins w))))
    (fun err => print (ErrorLoadingPlugins err)).

(** The loop of [executePlugins(context)]. *)
Fixpoint execute_loop (entries : list (string * Plugin)) : M World unit :=
  match entries with
  | [] => ret tt
  | (_, plugin) :: rest =>
      (if enabled plugin
       then
         try_catch
           (modify_state (fun w =>
              {| plugins := plugins w; console := console w;
                 required := required w;
                 executed := executed w ++ [id plugin] |}) ;;;
            lift (execute plugin))
           (fun err => print (ErrorExecuting (name plugin) err))
       else ret tt) ;;;
      execute_loop rest
  end.

Definition executePlugins : M World unit :=
  w <- get_state ;;
  execute_loop (plugins w).

(** [getPlugin(id)], [getAllPlugins()] and [getEnabledPlugins()]. *)
Fixpoint getPlugin (entries : list (string * Plugin)) (key : string) : option Plugin :=
  match entries with
  | [] => None
  | (k, p) :: rest => if String.eqb k key then Some p else getPlugin rest key
  end.

Definition getAllPlugins (w : World) : list Plugin := map snd (plugins w).

Definition getEnabledPlugins (w : World) : list Plugin :=
  List.filter enabled (getAllPlugins w).

End PluginLoader.

(** ** [utils/transaction.ts]: the wallet and the balances *)

Module Wallet.

Import MNotations.

Inductive LogLine : Type :=
| NoPrivateKeyProvided
| ErrorLoadingWallet (error : Thrown).

(** The decoder of base 58 and the constructor of key pairs; both throw on
    a malformed argument. *)
Record Outside : Type := {
  bs58_decode : string -> Thrown + list Byte.byte;
  fromSecretKey : list Byte.byte -> Thrown + ApiPingPong.Keypair
}.

(** [createKeypairFromPrivateKey(privateKey)]: a string ([inl]) or the
    bytes ([inr]). *)
Definition createKeypairFromPrivateKey (out : Outside)
    (privateKey : string + list Byte.byte) : Thrown + ApiPingPong.Keypair :=
  match match privateKey with
        | inl encoded => bs58_decode out encoded
        | inr bytes => inr bytes
        end with
  | inl e => inl e
  | inr secretKey => fromSecretKey out secretKey
  end.

(** [a || b] on optional strings: the empty string is falsy. *)
Definition or_else (a b : option string) : option string :=
  match a with
  | Some s => if String.eqb s "" then b else a
  | None => b
  end.

(** [loadWallet(privateKey?)]; [env] is
    [process.env.SOLANA_WALLET_PRIVATE_KEY]. *)
Definition loadWallet (out : Outside) (env privateKey : option string)
  : M (list LogLine) (option ApiPingPong.Keypair) :=
  try_catch
    (match or_else privateKey env with
     | None =>
         modify_state (fun console => console ++ [NoPrivateKeyProvided]) ;;;
         ret None
     | Some key =>
         if String.eqb key ""
         then modify_state (fun console => console ++ [NoPrivateKeyProvided]) ;;;
              ret None
         else
           keypair <- lift (createKeypairFromPrivateKey out (inl key)) ;;
           ret (Some keypair)
     end)
    (fun error =>
       modify_state (fun console => console ++ [ErrorLoadingWallet error]) ;;;
       ret None).

End Wallet.

Module TokenUtils.

Import MNotations.

Section WithNumber.
Context {number : Type} `{JsNumber number}.

(** A parsed token account, with the properties [getTokenBalance] reads:
    [uiAmount] is a number or [null]. *)
Record TokenAccount : Type := {
  mint : string;
  uiAmount : option number
}.

(** The connection: what it answers to [getBalance] and to
    [getParsedTokenAccountsByOwner]. *)
Record Connection : Type := {
  getBalance : string -> Thrown + number;
  getParsedTokenAccountsByOwner : string -> Thrown + list TokenAccount
}.

Inductive LogLine : Type :=
| ErrorGettingTokenBalance (error : Thrown).

(** [getTokenBalance(connection, walletAddress, token)]: the result is a
    number, or the [null] of a [uiAmount]. *)
Definition getTokenBalance (connection : Connection) (walletAddress : string)
    (token : Token number) : M (list LogLine) (option number) :=
  try_catch
    (if String.eqb (address token) "So11111111111111111111111111111111111111112"
     then
       balance <- lift (getBalance connection walletAddress) ;;
       ret (Some (num_div balance (num_pow (num_of_Z 10) (decimals token))))
     else
       tokenAccounts <- lift (getParsedTokenAccountsByOwner connection walletAddress) ;;
       match List.find (fun account => String.eqb (mint account) (address token))
               tokenAccounts with
       | None => ret (Some (num_of_Z 0))
       | Some tokenAccount => ret (uiAmount tokenAccount)
       end)
    (fun error =>
       modify_state (fun console => console ++ [ErrorGettingTokenBalance error]) ;;;
       ret (Some (num_of_Z 0))).

(** [hasSufficientBalance(connection, walletAddress, token, amount)]: in
    [balance >= amount], that is [amount <= balance], [null] counts as 0. *)
Definition hasSufficientBalance (connection : Connection) (walletAddress : string)
    (token : Token number) (amount : number) : M (list LogLine) bool :=
  balance <- getTokenBalance connection walletAddress token ;;
  ret (num_leb amount (match balance with
                       | Some b => b
                       | None => num_of_Z 0
                       end)).

End WithNumber.

Arguments TokenAccount : clear implicits.
Arguments Connection : clear implicits.

End TokenUtils.

(** ** The bot that follows [core/events.ts] *)

Module BotCore.

Import MNotations.

Section WithNumber.
Context {number : Type} `{JsNumber number}.

(** The two subclasses of [BaseStrategy] and the names their constructors
    give them. *)
Inductive StrategyClass : Type := ArbitrageStrategy | PingPongStrategy.

Definition strategy_name (s : StrategyClass) : string :=
  match s with
  | ArbitrageStrategy => "arbitrage"
  | PingPongStrategy => "pingpong"
  end.

(** [TradingConfig], with the properties [start] reads. *)
Record TradingConfig : Type := {
  tradingStrategy : string;
  tokens_tokenA : Token number;
  tokens_tokenB : Token number
}.

(** The console of the process: the lines of the bot and, between them,
    those of the strategy it runs. *)
Inductive LogLine : Type :=
| StrategyRegistered (name : string)
| AlreadyRunning
| NotProperlyInitialized
| BotStarted
| StrategyInitialized (name : string)
| ErrorStartingBot (err : Thrown)
| NotRunning
| BotStopped
| FromStrategy (line : CacheStrategies.LogLine number).

(** The fields of the bot that [start], [stop] and [registerStrategy] read
    or write; [None] is [null]. *)
Record World : Type := {
  connection : option string;
  wallet : option ApiPingPong.Keypair;
  jupiter : option unit;
  strategies : list (string * StrategyClass);
  cache : option (CacheStrategies.BotCache number);
  config : option TradingConfig;
  isRunning : bool;
  console : list LogLine
}.

Definition print (l : LogLine) : M World unit :=
  modify_state (fun w =>
    {| connection := connection w; wallet := wallet w; jupiter := jupiter w;
       strategies := strategies w; cache := cache w; config := config w;
       isRunning := isRunning w; console := console w ++ [l] |}).

Definition set_isRunning (b : bool) : M World unit :=
  modify_state (fun w =>
    {| connection := connection w; wallet := wallet w; jupiter := jupiter w;
       strategies := strategies w; cache := cache w; config := config w;
       isRunning := b; console := console w |}).

(** [this.strategies.get(name)] and [this.strategies.set(name, strategy)]. *)
Fixpoint get (entries : list (string * StrategyClass)) (key : string)
  : option StrategyClass :=
  match entries with
  | [] => None
  | (k, s) :: rest => if String.eqb k key then Some s else get rest key
  end.

Fixpoint set (entries : list (string * StrategyClass)) (key : string)
    (s : StrategyClass) : list (string * StrategyClass) :=
  match entries with
  | [] => [(key, s)]
  | (k, q) :: rest =>
      if String.eqb k key then (k, s) :: rest else (k, q) :: set rest key s
  end.

(** [registerStrategy(strategy)]. *)
Definition registerStrategy (s : StrategyClass) : M World unit :=
  modify_state (fun w =>
    {| connection := connection w; wallet := wallet w; jupiter := jupiter w;
       strategies := set (strategies w) (strategy_name s) s; cache := cache w;
       config := config w; isRunning := isRunning w; console := console w |}) ;;;
  print (StrategyRegistered (strategy_name s)).

(** The call [strategy.execute(strategyContext)] with [cache: this.cache!].
    The strategy works on the cache object of the bot and prints on the
    console of the process.  With a cache that is [null] the first
    statement of its [try] block throws, and its [catch] block prints the
    error. *)
Definition strategy_execute (out : CacheStrategies.Outside number)
    (s : StrategyClass) (context : CacheStrategies.StrategyContext number)
  : M World unit :=
  fun w =>
    let after (c' : option (CacheStrategies.BotCache number))
              (lines : list (CacheStrategies.LogLine number)) :=
      {| connection := connection w; wallet := wallet w; jupiter := jupiter w;
         strategies := strategies w; cache := c'; config := config w;
         isRunning := isRunning w;
         console := console w ++ map FromStrategy lines |} in
    match cache w with
    | None =>
        let error :=
          ErrorObject "Cannot read properties of null (reading 'iteration')" in
        (after None [match s with
                     | ArbitrageStrategy => CacheStrategies.ArbitrageError error
                     | PingPongStrategy => CacheStrategies.PingPongError error
                     end],
         Returned tt)
    | Some c =>
        let '(sw, completion) :=
          match s with
          | ArbitrageStrategy => CacheStrategies.ArbitrageStrategy_execute out context
          | PingPongStrategy => CacheStrategies.PingPongStrategy_execute out context
          end {| CacheStrategies.cache := c; CacheStrategies.console := [] |} in
        (after (Some (CacheStrategies.cache sw)) (CacheStrategies.console sw),
         completion)
    end.

(** [start()]; [out] is what is outside the strategy during its cycle. *)
Definition start (out : CacheStrategies.Outside number) : M World unit :=
  w <- get_state ;;
  if isRunning w then print AlreadyRunning
  else
    match config w, connection w, wallet w, jupiter w with
    | Some config, Some _, Some _, Some _ =>
        try_catch
          (set_isRunning true ;;;
           print BotStarted ;;;
           match get (strategies w) (tradingStrategy config) with
           | None =>
               complete (Threw (ErrorObject
                 ("Strategy " ++ tradingStrategy config ++ " not found")))
           | Some strategy =>
               print (StrategyInitialized (strategy_name strategy)) ;;;
               let tokenA := tokens_tokenA config in
               let tokenB := tokens_tokenB config in
               strategy_execute out strategy
                 {| CacheStrategies.ctx_tokenA := tokenA;
                    CacheStrategies.ctx_tokenB := tokenB |}
           end)
          (fun err => print (ErrorStartingBot err) ;;; set_isRunning false)
    | _, _, _, _ => print NotProperlyInitialized
    end.

(** [stop()]. *)
Definition stop : M World unit :=
  w <- get_state ;;
  if negb (isRunning w) then print NotRunning
  else set_isRunning false ;;; print BotStopped.

(** The bot as its constructor leaves it: one built-in strategy. *)
Definition constructed : World :=
  fst (registerStrategy PingPongStrategy
         {| connection := None; wallet := None; jupiter := None; strategies := [];
            cache := None; config := None; isRunning := false; console := [] |}).

End WithNumber.

Arguments TradingConfig : clear implicits.
Arguments LogLine : clear implicits.
Arguments World : clear implicits.

End BotCore.

(** * Vocabulary of the properties *)

(** The profit percentage in exact arithmetic, with the normalisations that
    the exact instance applies after every operation. *)
Definition pct (q : Q) (out : Z) : Q :=
  Qred (Qmult (Qred (Qdiv (Qred (Qplus (inject_Z out) (Qopp q))) q)) (inject_Z 100)).

(** The comparison [>] orders the profits of the candidates: of two
    profits at most one is greater than the other, and "not greater than" is
    transitive.  Numbers compare so as long as none of the profits is NaN. *)
Definition comparable_profits {number : Type} `{JsNumber number}
    (amount : number) (candidates : list RouteInfo) : Prop :=
  let profit := CacheStrategies.profit_of amount in
  (forall a b, In a candidates -> In b candidates ->
     num_gtb (profit a) (profit b) = true -> num_gtb (profit b) (profit a) = false)
  /\ (forall a b c, In a candidates -> In b candidates -> In c candidates ->
        num_gtb (profit a) (profit b) = false ->
        num_gtb (profit b) (profit c) = false ->
        num_gtb (profit a) (profit c) = false).

(** Two routes that differ only in their hops, for the examples. *)
Definition route_via (hop : string) (out : Z) : RouteInfo :=
  {| marketInfos := [hop]; inAmount := 100; outAmount := out; totalFees := 0 |}.

(** The tokens, the cache and the collaborators of the examples: a cache
    as [initializeCache] builds it, with 100 units of token A, a minimum
    profit of 0.5 %, and a quote service that gives [answer]. *)
Definition USDC : Token xnum :=
  {| address := "EPjFWdd5AufqSSqeM2qN1xzybapC8G4wEGGkZwyTDt1v";
     symbol := "USDC"; name := "USD Coin"; decimals := Fin 6 |}.

Definition SOL : Token xnum :=
  {| address := "So11111111111111111111111111111111111111112";
     symbol := "SOL"; name := "Wrapped SOL"; decimals := Fin 9 |}.

Definition example_context : CacheStrategies.StrategyContext xnum :=
  {| CacheStrategies.ctx_tokenA := USDC; CacheStrategies.ctx_tokenB := SOL |}.

Definition example_cache (enabled : bool) : CacheStrategies.BotCache xnum :=
  {| CacheStrategies.iteration := 0;
     CacheStrategies.queue := ∅;
     CacheStrategies.sideBuy := true;
     CacheStrategies.initialBalance :=
       {| CacheStrategies.tokenA := Fin 100; CacheStrategies.tokenB := Fin 0 |};
     CacheStrategies.currentBalance :=
       {| CacheStrategies.tokenA := Fin 100; CacheStrategies.tokenB := Fin 0 |};
     CacheStrategies.lastBalance :=
       {| CacheStrategies.tokenA := Fin 100; CacheStrategies.tokenB := Fin 100 |};
     CacheStrategies.availableRoutes :=
       {| CacheStrategies.buy := 0; CacheStrategies.sell := 0 |};
     CacheStrategies.tradingEnabled := enabled;
     CacheStrategies.config :=
       {| CacheStrategies.tradeSize_strategy := "fixed";
          CacheStrategies.minPercProfit := Fin (1 # 2);
          CacheStrategies.slippage := IsNum (Fin 1) |} |}.

Definition example_world (enabled : bool) : CacheStrategies.World xnum :=
  {| CacheStrategies.cache := example_cache enabled;
     CacheStrategies.console := [] |}.

Definition example_BigInt (s : string) : Z :=
  match x_parseInt s with
  | Fin q => Qfloor q
  | _ => 0
  end.

Definition example_outside (answer : Thrown + option Routes)
  : CacheStrategies.Outside xnum :=
  {| CacheStrategies.BigInt := fun s => inr (example_BigInt s);
     CacheStrategies.PublicKey := fun s => inr s;
     CacheStrategies.computeRoutes := fun _ => answer;
     CacheStrategies.localeDate := "11/2/2026, 9:00:00 AM" |}.

(** *** Counted errors

    The error counter of a strategy counts the calls of [execute] whose
    [try] block raises an error, whatever raised it: the quote request, the
    swap, a conversion.  The early returns (no wallet, no SDK, no routes)
    raise nothing. *)
Definition is_threw {A} (c : Completion A) : bool :=
  match c with
  | Threw _ => true
  | _ => false
  end.

Definition api_raises {number : Type} `{JsNumber number}
    (c : ApiPingPong.Call number) (w : ApiPingPong.World number) : bool :=
  match ApiPingPong.wallet (ApiPingPong.this w) with
  | Some wallet =>
      is_threw (snd (ApiPingPong.try_block (ApiPingPong.call_outside c)
                       (ApiPingPong.call_inputToken c) (ApiPingPong.call_outputToken c)
                       (ApiPingPong.call_amount c) (ApiPingPong.call_slippage c)
                       wallet (ApiPingPong.now_start (ApiPingPong.call_outside c)) w))
  | None => false
  end.

Definition sdk_raises {number : Type} `{JsNumber number}
    (c : SdkArbitrage.Call number) (w : SdkArbitrage.World) : bool :=
  match SdkArbitrage.jupiter (SdkArbitrage.this w) with
  | Some _ =>
      is_threw (snd (SdkArbitrage.try_block (SdkArbitrage.call_outside c)
                       (SdkArbitrage.call_inputToken c) (SdkArbitrage.call_outputToken c)
                       (SdkArbitrage.call_amount c) (SdkArbitrage.call_slippage c)
                       (SdkArbitrage.now_start (SdkArbitrage.call_outside c)) w))
  | None => false
  end.

(** Along a run, which calls raise; how many there are in a list of flags;
    and how many flags in a row end a list of flags. *)
Fixpoint raise_flags {S C A} (step : C -> M S A) (raises : C -> S -> bool)
    (calls : list C) (s : S) : list bool :=
  match calls with
  | [] => []
  | c :: rest => raises c s :: raise_flags step raises rest (fst (step c s))
  end.

Fixpoint count_true (flags : list bool) : Z :=
  match flags with
  | [] => 0
  | b :: rest => (if b then 1 else 0) + count_true rest
  end.



(** The calls of the examples: the quote API throws, or everything
    answers. *)
Definition api_outside (quote : Thrown + option (list (ApiPingPong.Quote)))
  : ApiPingPong.Outside xnum :=
  {| ApiPingPong.get_quote := fun _ => quote;
     ApiPingPong.post_swap := fun _ _ => inr "AQAAAA==";
     ApiPingPong.Transaction_from := fun s => inr s;
     ApiPingPong.sendTransaction := fun _ _ => inr "5VERv8NMvzbJMEkV8xnrLkEaWRtSz9CosKDYjCJjBRnb";
     ApiPingPong.confirmTransaction := fun _ => inr tt;
     ApiPingPong.now_start := Fin 1000;
     ApiPingPong.now_stamp := Fin 1200;
     ApiPingPong.now_end := Fin 1250 |}.

Definition api_call (quote : Thrown + option (list (ApiPingPong.Quote)))
  : ApiPingPong.Call xnum :=
  {| ApiPingPong.call_outside := api_outside quote;
     ApiPingPong.call_inputToken := USDC;
     ApiPingPong.call_outputToken := SOL;
     ApiPingPong.call_amount := Fin 100;
     ApiPingPong.call_slippage := Fin 50 |}.

Definition failing_call : ApiPingPong.Call xnum :=
  api_call (inl (ErrorObject "Request failed with status code 429")).

Definition good_call : ApiPingPong.Call xnum :=
  api_call (inr (Some [ {| ApiPingPong.q_outAmount := "101000000000";
                           ApiPingPong.q_routePlan := ["Orca"] |} ])).

(** A call whose quote and swap transaction arrive and whose submission is
    refused by the network: a failure of the execution itself. *)
Definition rejected_call : ApiPingPong.Call xnum :=
  {| ApiPingPong.call_outside :=
       {| ApiPingPong.get_quote := fun _ =>
            inr (Some [ {| ApiPingPong.q_outAmount := "101000000000";
                           ApiPingPong.q_routePlan := ["Orca"] |} ]);
          ApiPingPong.post_swap := fun _ _ => inr "AQAAAA==";
          ApiPingPong.Transaction_from := fun s => inr s;
          ApiPingPong.sendTransaction := fun _ _ =>
            inl (ErrorObject "Transaction simulation failed: Blockhash not found");
          ApiPingPong.confirmTransaction := fun _ => inr tt;
          ApiPingPong.now_start := Fin 1000;
          ApiPingPong.now_stamp := Fin 1200;
          ApiPingPong.now_end := Fin 1250 |};
     ApiPingPong.call_inputToken := USDC;
     ApiPingPong.call_outputToken := SOL;
     ApiPingPong.call_amount := Fin 100;
     ApiPingPong.call_slippage := Fin 50 |}.


(** Calls of [execute] of [strategies/arbitrage.ts]: the SDK gives one
    route, and the swap does what [swap] says. *)
Definition sdk_call (swap : Thrown + option string) : SdkArbitrage.Call xnum :=
  {| SdkArbitrage.call_outside :=
       {| SdkArbitrage.BigInt := fun n =>
            match n with
            | Fin q => inr (Qfloor q)
            | _ => inl (ErrorObject "The number is not a safe integer")
            end;
          SdkArbitrage.PublicKey := fun s => inr s;
          SdkArbitrage.computeRoutes := fun _ =>
            inr {| routesInfos := Some [route_via "Orca" 101000000000] |};
          SdkArbitrage.exchange := fun r => inr r;
          SdkArbitrage.exchange_execute := fun _ => swap;
          SdkArbitrage.now_start := Fin 1000;
          SdkArbitrage.now_end := Fin 1250 |};
     SdkArbitrage.call_inputToken := USDC;
     SdkArbitrage.call_outputToken := SOL;
     SdkArbitrage.call_amount := Fin 100;
     SdkArbitrage.call_slippage := Fin 50 |}.

Definition sdk_fresh : SdkArbitrage.World :=
  {| SdkArbitrage.this :=
       {| SdkArbitrage.jupiter := Some SdkArbitrage.JupiterSdk;
          SdkArbitrage.errorCount := 0 |};
     SdkArbitrage.console := [] |}.

(** The strategy as [initialize] leaves it when a wallet is configured. *)
Definition api_fresh : ApiPingPong.World xnum :=
  {| ApiPingPong.this :=
       {| ApiPingPong.direction := ApiPingPong.ping;
          ApiPingPong.errorCount := 0;
          ApiPingPong.wallet :=
            Some {| ApiPingPong.publicKey := "7xKXtg2CW87d97TXJSDpbD5jBkheTqA83TZRuJosgAsU" |};
          ApiPingPong.lastTrade := None |};
     ApiPingPong.console := [] |}.

(** *** Plugins

    The event that the application emits for a plugin when it starts it or
    stops it, and an application with three plugins whose second one fails
    to start and to stop. *)
Definition start_event (entry : string * App.Plugin) : App.BusEvent :=
  match App.start (snd entry) with
  | inr _ => App.PLUGIN_STARTED (fst entry)
  | inl e => App.PLUGIN_ERROR (fst entry) (describe e)
  end.

Definition stop_event (entry : string * App.Plugin) : App.BusEvent :=
  match App.stop (snd entry) with
  | inr _ => App.PLUGIN_STOPPED (fst entry)
  | inl e => App.PLUGIN_ERROR (fst entry) (describe e)
  end.

Definition plugin (name : string) (broken : bool) : App.Plugin :=
  {| App.name := name; App.version := "1.0.0";
     App.initialize := inr tt;
     App.start := if broken then inl (ErrorObject "port in use") else inr tt;
     App.stop := if broken then inl (ThrownValue "not started") else inr tt |}.

(** Subscribers that never throw, and the bus without subscribers; a
    subscriber of the error event that throws. *)
Definition subscribers_quiet (subscribers : App.Subscribers) : Prop :=
  forall history e, subscribers history e = inr tt.

Definition no_subscribers : App.Subscribers := fun _ _ => inr tt.

Definition alerting_subscriber : App.Subscribers :=
  fun _ e =>
    match e with
    | App.PLUGIN_ERROR _ _ => inl (ErrorObject "alert channel unavailable")
    | _ => inr tt
    end.

Definition three_plugins : App.World :=
  fst (bind (App.registerPlugin no_subscribers (plugin "logger" false))
         (fun _ => bind (App.registerPlugin no_subscribers (plugin "telegram" true))
         (fun _ => App.registerPlugin no_subscribers (plugin "metrics" false)))
         App.fresh).

Definition called_start (entry : string * App.Plugin) : App.Invocation :=
  App.CalledStart (fst entry).

Definition called_stop (entry : string * App.Plugin) : App.Invocation :=
  App.CalledStop (fst entry).

(** *** Listeners

    Three listeners on a state that records who ran; the second one
    throws. *)
Definition example_react (id : nat) (args : list string)
  : M (Emitter.Heap (list nat)) unit :=
  fun h =>
    if (id =? 2)%nat then (h, Threw (ErrorObject "listener failed"))
    else ({| Emitter.events := Emitter.events h;
             Emitter.onceCount := Emitter.onceCount h;
             Emitter.user := Emitter.user h ++ [id];
             Emitter.console := Emitter.console h |}, Returned tt).

Definition three_listeners : Emitter.Heap (list nat) :=
  fst (bind (Emitter.on "trade:complete" (Emitter.Listener 1))
         (fun _ => bind (Emitter.on "trade:complete" (Emitter.Listener 2))
         (fun _ => Emitter.once "trade:complete" (Emitter.Listener 3)))
         {| Emitter.events := ∅; Emitter.onceCount := 0;
            Emitter.user := []; Emitter.console := [] |}).

(** *** What an emission delivers

    The call of a callback of [core/EventEmitter.ts], in terms of the
    functions of the program: a function of the program does what [react]
    says; the closure that [once] made runs the function it wraps on the
    heap from which its own registration has been taken out. *)
Fixpoint callback_effect {Arg User : Type}
    (react : nat -> list Arg -> M (Emitter.Heap User) unit)
    (callback : Emitter.Callback) (args : list Arg) : M (Emitter.Heap User) unit :=
  match callback with
  | Emitter.Listener id => react id args
  | Emitter.OnceCallback serial event inner =>
      fun h =>
        callback_effect react inner args
          (fst (Emitter.off event (Emitter.OnceCallback serial event inner) h))
  end.

Definition logged {User : Type} (line : Emitter.LogLine) (h : Emitter.Heap User)
  : Emitter.Heap User :=
  {| Emitter.events := Emitter.events h; Emitter.onceCount := Emitter.onceCount h;
     Emitter.user := Emitter.user h; Emitter.console := Emitter.console h ++ [line] |}.


(** [delivered_to_all react event args callbacks h outcome]: calling
    the callbacks one after the other from the heap [h], each on the heap
    that the one before it left, gives [outcome].  A callback that throws
    leaves a line on the console and the callbacks after it are called all
    the same; only a callback that ends the process ends the sequence. *)
Inductive delivered_to_all {Arg User : Type}
    (react : nat -> list Arg -> M (Emitter.Heap User) unit)
    (event : string) (args : list Arg)
  : list Emitter.Callback -> Emitter.Heap User
    -> Emitter.Heap User * Completion unit -> Prop :=
| delivered_nothing h :
    delivered_to_all react event args [] h (h, Returned tt)
| delivered_returned callback rest h h1 outcome :
    callback_effect react callback args h = (h1, Returned tt) ->
    delivered_to_all react event args rest h1 outcome ->
    delivered_to_all react event args (callback :: rest) h outcome
| delivered_caught callback rest h h1 err outcome :
    callback_effect react callback args h = (h1, Threw err) ->
    delivered_to_all react event args rest
      (logged (Emitter.ListenerError event err) h1) outcome ->
    delivered_to_all react event args (callback :: rest) h outcome
| delivered_exit callback rest h h1 code :
    callback_effect react callback args h = (h1, Exited code) ->
    delivered_to_all react event args (callback :: rest) h (h1, Exited code).

(** [delivered_until_throw react args listeners h outcome]: calling the
    listeners of the bus one after the other from the heap [h] gives
    [outcome]; the first listener that throws (or ends the process) ends the
    sequence, and what it threw is the outcome. *)
Inductive delivered_until_throw {Data User : Type}
    (react : nat -> list Data -> M (EventBus.Heap User) unit) (args : list Data)
  : list nat -> EventBus.Heap User
    -> EventBus.Heap User * Completion unit -> Prop :=
| bus_nothing h :
    delivered_until_throw react args [] h (h, Returned tt)
| bus_returned listener rest h h1 outcome :
    react listener args h = (h1, Returned tt) ->
    delivered_until_throw react args rest h1 outcome ->
    delivered_until_throw react args (listener :: rest) h outcome
| bus_threw listener rest h h1 e :
    react listener args h = (h1, Threw e) ->
    delivered_until_throw react args (listener :: rest) h (h1, Threw e)
| bus_exited listener rest h h1 code :
    react listener args h = (h1, Exited code) ->
    delivered_until_throw react args (listener :: rest) h (h1, Exited code).

(** Three listeners of the bus on a state that records who ran; the second
    one throws. *)
Definition bus_react (listener : nat) (args : list string)
  : M (EventBus.Heap (list nat)) unit :=
  fun h =>
    if (listener =? 2)%nat then (h, Threw (ErrorObject "listener failed"))
    else ({| EventBus.registered := EventBus.registered h;
             EventBus.user := EventBus.user h ++ [listener] |}, Returned tt).

Definition three_bus_listeners : EventBus.Heap (list nat) :=
  fst (bind (EventBus.on EventBus.TRADE_COMPLETE 1%nat)
         (fun _ => bind (EventBus.on EventBus.TRADE_COMPLETE 2%nat)
         (fun _ => EventBus.on EventBus.TRADE_COMPLETE 3%nat))
         {| EventBus.registered := fun _ => []; EventBus.user := [] |}).

(** *** The registrations of the emitter *)

(** No event of the map keeps an empty array of callbacks. *)
Definition no_empty_arrays {User : Type} (h : Emitter.Heap User) : Prop :=
  map_Forall (fun (_ : string) (callbacks : list Emitter.Callback) => callbacks <> [])
    (Emitter.events h).


(** The emitter as its constructor leaves it, and with two listeners. *)
Definition no_listeners : Emitter.Heap (list nat) :=
  {| Emitter.events := ∅; Emitter.onceCount := 0;
     Emitter.user := []; Emitter.console := [] |}.

Definition two_listeners : Emitter.Heap (list nat) :=
  fst (bind (Emitter.on "trade:complete" (Emitter.Listener 1))
         (fun _ => Emitter.on "trade:complete" (Emitter.Listener 2))
         no_listeners).

(** *** The map of plugins

    The entries of the map are keyed by the names of the plugins, and no two
    entries have the same key. *)
Definition keyed_by_name (entries : list (string * App.Plugin)) : Prop :=
  NoDup (map fst entries)
  /\ Forall (fun entry => fst entry = App.name (snd entry)) entries.

(** *** Submissions

    The events of a call of [sendTransactionWithRetry] whose first [failed]
    submissions fail and are followed by one more submission, counted from
    [retries] failures on. *)
Fixpoint attempts (transaction : string) (signers : list string) (maxRetries : Z)
    (failed : nat) (retries : Z) : list TransactionUtils.Event :=
  TransactionUtils.Submitted transaction signers
  :: match failed with
     | O => []
     | S failed' =>
         TransactionUtils.RetryLogged (retries + 1) maxRetries
         :: TransactionUtils.Waited 1000
         :: attempts transaction signers maxRetries failed' (retries + 1)
     end.

(** *** Runs of cycles

    The cycles that a bot makes one after another on the same cache, each
    with one of the two strategies and with the collaborators of its
    time. *)
Inductive Cycle (number : Type) : Type :=
| ArbitrageCycle (out : CacheStrategies.Outside number)
    (context : CacheStrategies.StrategyContext number)
| PingPongCycle (out : CacheStrategies.Outside number)
    (context : CacheStrategies.StrategyContext number).
Arguments ArbitrageCycle {number} out context.
Arguments PingPongCycle {number} out context.

Definition run_cycle {number : Type} `{JsNumber number} (c : Cycle number)
  : M (CacheStrategies.World number) unit :=
  match c with
  | ArbitrageCycle out context => CacheStrategies.ArbitrageStrategy_execute out context
  | PingPongCycle out context => CacheStrategies.PingPongStrategy_execute out context
  end.

(** The fields of the cache that say how much is traded and when. *)
Definition same_funds {number : Type} (c c' : CacheStrategies.BotCache number) : Prop :=
  CacheStrategies.initialBalance c' = CacheStrategies.initialBalance c
  /\ CacheStrategies.currentBalance c' = CacheStrategies.currentBalance c
  /\ CacheStrategies.lastBalance c' = CacheStrategies.lastBalance c
  /\ CacheStrategies.config c' = CacheStrategies.config c
  /\ CacheStrategies.tradingEnabled c' = CacheStrategies.tradingEnabled c.

(** *** Trades of [strategies/pingpong.ts] *)

Definition flip (d : ApiPingPong.Direction) : ApiPingPong.Direction :=
  match d with
  | ApiPingPong.ping => ApiPingPong.pong
  | ApiPingPong.pong => ApiPingPong.ping
  end.

(** The strategy before [initialize] has loaded a wallet or the SDK. *)
Definition api_without_wallet : ApiPingPong.World xnum :=
  {| ApiPingPong.this :=
       {| ApiPingPong.direction := ApiPingPong.ping;
          ApiPingPong.errorCount := 0;
          ApiPingPong.wallet := None;
          ApiPingPong.lastTrade := None |};
     ApiPingPong.console := [] |}.

(** *** The strategies behind the loop

    The two classes that implement [TradingStrategy], with what is outside
    them during one tick: the collaborators of [simulate] and those of
    [execute]. *)
Definition api_strategy {number : Type} `{JsNumber number}
    (sim_out : Simulation.PingPongOutside number)
    (exec_out : ApiPingPong.Outside number)
  : Bot.TradingStrategy number (Simulation.Simulated (ApiPingPong.World number)) :=
  {| Bot.simulate := Simulation.PingPongStrategy_simulate sim_out;
     Bot.execute := fun inputToken outputToken amount slippage =>
       Simulation.in_strategy
         (ApiPingPong.execute exec_out inputToken outputToken amount slippage) |}.

Definition sdk_strategy {number : Type} `{JsNumber number}
    (sim_out exec_out : SdkArbitrage.Outside number)
  : Bot.TradingStrategy number (Simulation.Simulated SdkArbitrage.World) :=
  {| Bot.simulate := Simulation.ArbitrageStrategy_simulate sim_out;
     Bot.execute := fun inputToken outputToken amount slippage =>
       Simulation.in_strategy
         (SdkArbitrage.execute exec_out inputToken outputToken amount slippage) |}.

(** The condition under which a tick of [runTrading] trades. *)
Definition clears_minimum {number : Type} `{JsNumber number}
    (config : Bot.TradingConfig number) (r : Simulation.SimulationResult number)
  : bool :=
  Simulation.sim_success r
  && num_leb (Bot.minPercProfit config) (Simulation.expectedProfitPercentage r).

(** What a strategy and the listeners of the bus do during one tick. *)
Record Tick (number W : Type) : Type := {
  tick_strategy : Bot.TradingStrategy number W;
  tick_listeners : Bot.BusEvent number -> Thrown + unit
}.
Arguments tick_strategy {number W} _.
Arguments tick_listeners {number W} _.

(** A tick of the loop with one or the other strategy: the collaborators
    of its [simulate], those of its [execute], and the listeners. *)
Definition api_tick {number : Type} `{JsNumber number}
    (outside : Simulation.PingPongOutside number * ApiPingPong.Outside number
               * (Bot.BusEvent number -> Thrown + unit))
  : Tick number (Simulation.Simulated (ApiPingPong.World number)) :=
  let '(sim_out, exec_out, listeners) := outside in
  {| tick_strategy := api_strategy sim_out exec_out; tick_listeners := listeners |}.

Definition sdk_tick {number : Type} `{JsNumber number}
    (outside : SdkArbitrage.Outside number * SdkArbitrage.Outside number
               * (Bot.BusEvent number -> Thrown + unit))
  : Tick number (Simulation.Simulated SdkArbitrage.World) :=
  let '(sim_out, exec_out, listeners) := outside in
  {| tick_strategy := sdk_strategy sim_out exec_out; tick_listeners := listeners |}.

Definition simulation_tick {number W : Type} `{JsNumber number}
    (config : Bot.TradingConfig number) (t : Tick number W)
  : M (Bot.World number W) unit :=
  Bot.runSimulation_tick (tick_strategy t) config (tick_listeners t).

Definition trading_tick {number W : Type} `{JsNumber number}
    (config : Bot.TradingConfig number) (t : Tick number W)
  : M (Bot.World number W) unit :=
  Bot.runTrading_tick (tick_strategy t) config (tick_listeners t).

(** The loop of the examples: 100 USDC for SOL, a minimum of 0.5 %, and a
    quote API that gives [there] for the first leg and [back] for the way
    back. *)
Definition example_config : Bot.TradingConfig xnum :=
  {| Bot.inputToken := USDC; Bot.outputToken := SOL; Bot.tradeSize := Fin 100;
     Bot.minPercProfit := Fin (1 # 2); Bot.slippage := Fin 50 |}.

Definition quote_of (outAmount : string) : Thrown + option (list ApiPingPong.Quote) :=
  inr (Some [ {| ApiPingPong.q_outAmount := outAmount;
                 ApiPingPong.q_routePlan := ["Orca"] |} ]).

Definition example_simulation (there back : Thrown + option (list ApiPingPong.Quote))
  : Simulation.PingPongOutside xnum :=
  {| Simulation.get_quote := fun _ => there;
     Simulation.get_pong_quote := fun _ => back;
     Simulation.pp_now_start := Fin 900;
     Simulation.pp_now_end := Fin 950 |}.

Definition example_tick (there back : Thrown + option (list ApiPingPong.Quote))
  : Tick xnum (Simulation.Simulated (ApiPingPong.World xnum)) :=
  api_tick (example_simulation there back, api_outside there, fun _ => inr tt).

Definition example_bot : Bot.World xnum (Simulation.Simulated (ApiPingPong.World xnum)) :=
  {| Bot.strategy_object :=
       {| Simulation.strategy := api_fresh; Simulation.simulation_errors := [] |};
     Bot.emitted := []; Bot.console := [] |}.

(** *** Configuration objects

    The loop [Object.keys(source).forEach] of [mergeConfigs], and the
    configuration of the examples. *)
Fixpoint forEach (target : Config.Json) (entries output : list (string * Config.Json))
  : list (string * Config.Json) :=
  match entries with
  | [] => output
  | (key, value) :: rest =>
      forEach target rest
        (match value with
         | Config.JObj _ =>
             match Config.property target key with
             | Some inner =>
                 Config.assign output key (Config.mergeConfigs inner value)
             | None =>
                 if Config.is_inherited key
                 then Config.assign output key (Config.JObj [])
                 else Config.assign output key value
             end
         | _ => Config.assign output key value
         end)
  end.

(** The own property that [mergeConfigs] leaves under a key of the source,
    given the own property of the target under that key.  A key that the
    target has gets the value of the source, an object of the source being
    merged into the value of the target.  A key that the target does not
    have gets the value of the source, except that under a name of
    [Object.prototype] an object of the source is replaced by the empty
    object, and that nothing is stored under [__proto__]. *)
Definition merged_value (own : option Config.Json) (key : string)
    (value : Config.Json) : option Config.Json :=
  match own with
  | Some inner =>
      Some (match value with
            | Config.JObj _ => Config.mergeConfigs inner value
            | _ => value
            end)
  | None =>
      if String.eqb key "__proto__" then None
      else Some (match value with
                 | Config.JObj _ =>
                     if Config.is_inherited key then Config.JObj [] else value
                 | _ => value
                 end)
  end.

Definition example_defaults : Config.Json :=
  Config.JObj
    [("trading", Config.JObj [("strategy", Config.JStr "arbitrage");
                              ("tradeSize", Config.JNum 1);
                              ("minPercProfit", Config.JNum (1 # 10))]);
     ("onlyDirectRoutes", Config.JBool false)].

Definition example_file : Config.Json :=
  Config.JObj
    [("trading", Config.JObj [("strategy", Config.JStr "pingpong");
                              ("tradeSize", Config.JObj [("value", Config.JNum 5)])])].

(** *** The plugins of the loader

    The lines that [executePlugins] prints for the entries of the map: one
    for every enabled plugin whose [execute] throws. *)
Definition execution_errors (entries : list (string * PluginLoader.Plugin))
  : list PluginLoader.LogLine :=
  flat_map (fun entry =>
    if PluginLoader.enabled (snd entry)
    then match PluginLoader.execute (snd entry) with
         | inl err => [PluginLoader.ErrorExecuting (PluginLoader.name (snd entry)) err]
         | inr _ => []
         end
    else []) entries.

(** The entries of the map are keyed by the identifiers of the plugins, and
    no two entries have the same key. *)
Definition keyed_by_id (entries : list (string * PluginLoader.Plugin)) : Prop :=
  NoDup (map fst entries)
  /\ Forall (fun entry => fst entry = PluginLoader.id (snd entry)) entries.

Definition is_plugin_file (file : string) : bool :=
  PluginLoader.endsWith file ".js" || PluginLoader.endsWith file ".ts".

(** A directory with a plugin that loads, a file that is not a module, a
    module that throws when it is loaded, and a second plugin. *)
Definition loader_plugin (id : string) (enabled broken : bool) : PluginLoader.Plugin :=
  {| PluginLoader.id := id; PluginLoader.name := id;
     PluginLoader.enabled := enabled;
     PluginLoader.execute :=
       if broken then inl (ErrorObject "webhook unreachable") else inr tt |}.

Definition example_directory : PluginLoader.Outside :=
  {| PluginLoader.existsSync := fun _ => true;
     PluginLoader.readdirSync := fun _ =>
       inr ["logger.js"; "README.md"; "broken.ts"; "notify.ts"];
     PluginLoader.path_join := fun dir file => (dir ++ "/" ++ file)%string;
     PluginLoader.require := fun path =>
       if String.eqb path "plugins/logger.js"
       then inr (Some (loader_plugin "logger" true false))
       else if String.eqb path "plugins/notify.ts"
       then inr (Some (loader_plugin "notify" true true))
       else inl (ErrorObject "Unexpected token") |}.

Definition empty_loader : PluginLoader.World :=
  {| PluginLoader.plugins := []; PluginLoader.console := [];
     PluginLoader.required := []; PluginLoader.executed := [] |}.

(** *** Wallets and balances of the examples *)

Definition example_keys : Wallet.Outside :=
  {| Wallet.bs58_decode := fun encoded =>
       if String.eqb encoded "not base58!" then inl (ErrorObject "Non-base58 character")
       else inr [Byte.x01; Byte.x02];
     Wallet.fromSecretKey := fun _ =>
       inr {| ApiPingPong.publicKey := "7xKXtg2CW87d97TXJSDpbD5jBkheTqA83TZRuJosgAsU" |} |}.

(** A wallet with two accounts of USDC, the first of which is empty. *)
Definition example_connection : TokenUtils.Connection xnum :=
  {| TokenUtils.getBalance := fun _ => inr (Fin 2500000000);
     TokenUtils.getParsedTokenAccountsByOwner := fun _ =>
       inr [ {| TokenUtils.mint := "So11111111111111111111111111111111111111112";
                TokenUtils.uiAmount := Some (Fin 3) |};
             {| TokenUtils.mint := "EPjFWdd5AufqSSqeM2qN1xzybapC8G4wEGGkZwyTDt1v";
                TokenUtils.uiAmount := Some (Fin 0) |};
             {| TokenUtils.mint := "EPjFWdd5AufqSSqeM2qN1xzybapC8G4wEGGkZwyTDt1v";
                TokenUtils.uiAmount := Some (Fin 250) |} ] |}.

Definition native_mint : string := "So11111111111111111111111111111111111111112".

(** *** The bot

    The cycle that the bot runs for a strategy class, and a bot that has
    been initialised for the ping-pong strategy. *)
Definition cycle_of {number : Type} (s : BotCore.StrategyClass)
    (out : CacheStrategies.Outside number) (config : BotCore.TradingConfig number)
  : Cycle number :=
  let context :=
    {| CacheStrategies.ctx_tokenA := BotCore.tokens_tokenA config;
       CacheStrategies.ctx_tokenB := BotCore.tokens_tokenB config |} in
  match s with
  | BotCore.ArbitrageStrategy => ArbitrageCycle out context
  | BotCore.PingPongStrategy => PingPongCycle out context
  end.

Definition with_line {number : Type} (l : BotCore.LogLine number)
    (w : BotCore.World number) : BotCore.World number :=
  {| BotCore.connection := BotCore.connection w; BotCore.wallet := BotCore.wallet w;
     BotCore.jupiter := BotCore.jupiter w; BotCore.strategies := BotCore.strategies w;
     BotCore.cache := BotCore.cache w; BotCore.config := BotCore.config w;
     BotCore.isRunning := BotCore.isRunning w;
     BotCore.console := BotCore.console w ++ [l] |}.

Definition initialised {number : Type} (w : BotCore.World number) : bool :=
  match BotCore.config w, BotCore.connection w, BotCore.wallet w, BotCore.jupiter w with
  | Some _, Some _, Some _, Some _ => true
  | _, _, _, _ => false
  end.

Definition example_core (strategy : string) : BotCore.World xnum :=
  {| BotCore.connection := Some "https://api.mainnet-beta.solana.com";
     BotCore.wallet :=
       Some {| ApiPingPong.publicKey := "7xKXtg2CW87d97TXJSDpbD5jBkheTqA83TZRuJosgAsU" |};
     BotCore.jupiter := Some tt;
     BotCore.strategies := BotCore.strategies (BotCore.constructed (number := xnum));
     BotCore.cache := Some (example_cache true);
     BotCore.config :=
       Some {| BotCore.tradingStrategy := strategy;
               BotCore.tokens_tokenA := USDC; BotCore.tokens_tokenB := SOL |};
     BotCore.isRunning := false;
     BotCore.console := [] |}.

(** * Properties *)

(** ** Profit percentage *)

Section ProfitGeneric.
Context {number : Type} `{JsNumber number}.

(** C10: for every base amount that is less than or equal to zero (a number,
    or a string that [parseFloat] reads as such a number) and for every new
    amount, [calculateProfit] returns 0: the division by the base is not
    evaluated. *)
Theorem calculateProfit_nonpositive_base (baseAmount newAmount : NumOrStr number) :
  num_leb (Utils.as_number baseAmount) (num_of_Z 0) = true ->
  Utils.calculateProfit baseAmount newAmount = num_of_Z 0.
Proof.
  intros Hle. unfold Utils.calculateProfit. cbv zeta. rewrite Hle. reflexivity.
Qed.

End ProfitGeneric.

(** The theorem at a base of zero, at a negative base given as a string, and
    at minus infinity. *)
Lemma calculateProfit_nonpositive_base_witness :
  Utils.calculateProfit (IsNum (Fin 0)) (IsNum (Fin 5)) = Fin 0
  /\ Utils.calculateProfit (IsStr "-2.5") (IsNum NaN) = Fin 0
  /\ Utils.calculateProfit (IsNum (Inf true)) (IsStr "7 units") = Fin 0.
Proof.
  split; [|split].
  - exact (calculateProfit_nonpositive_base (IsNum (Fin 0)) (IsNum (Fin 5)) eq_refl).
  - exact (calculateProfit_nonpositive_base (IsStr "-2.5") (IsNum NaN) eq_refl).
  - exact (calculateProfit_nonpositive_base (IsNum (Inf true)) (IsStr "7 units") eq_refl).
Defined.

(** The end-to-end figures of the specification: 100 in, 101 out is 1 %. *)
Example calculateProfit_100_101 :
  Utils.calculateProfit (IsNum (Fin 100)) (IsNum (Fin 101)) = Fin 1.
Proof. reflexivity. Qed.

(** A base that is not a number is not "less than or equal to zero": the
    guard does not fire and the result is not a number either. *)
Example calculateProfit_nan_base :
  Utils.calculateProfit (IsStr "n/a") (IsNum (Fin 101)) = NaN.
Proof. reflexivity. Qed.

(** What [parseFloat] and [parseInt] read. *)
Example parse_numbers :
  x_parseFloat "  1.5e3 USDC" = Fin 1500
  /\ x_parseFloat "-Infinity" = Inf true
  /\ x_parseFloat ".5" = Fin (1 # 2)
  /\ x_parseFloat "e5" = NaN
  /\ x_parseInt "101000000000" = Fin 101000000000
  /\ x_parseInt "12.7" = Fin 12
  /\ x_parseInt "-0x1A" = Fin (-26)
  /\ x_parseInt "Infinity" = NaN.
Proof. vm_compute. repeat split; reflexivity. Qed.

(** ** The cycles of the arbitrage strategy *)

(** Evaluation of a cycle: the monad's operations are unfolded and every
    answer of a collaborator is split into its cases. *)
Ltac unfold_monad :=
  cbv beta iota zeta delta
    [bind ret try_catch lift complete process_exit get_state modify_state
     CacheStrategies.get_cache CacheStrategies.update_cache
     CacheStrategies.print CacheStrategies.checkRoutes
     Utils.checkRoutesResponse CacheStrategies.infos_of].

Ltac split_cases :=
  repeat match goal with
    | |- context [match ?x with _ => _ end] =>
        lazymatch x with
        | context [match _ with _ => _ end] => fail
        | _ => destruct x eqn:?
        end; cbn -[Z.add] in *
    end.

Section Evaluation.
Context {number : Type} {JN : JsNumber number}.
Implicit Types (out : CacheStrategies.Outside number)
  (ctx : CacheStrategies.StrategyContext number)
  (w : CacheStrategies.World number).

(** What a cycle of the arbitrage strategy does with the routes of the
    quote: with one route it ends without a selection; with two or more it
    prints the profit of the selected route, and the line of the trade when
    that profit is above the minimum and trading is enabled. *)
Lemma ArbitrageStrategy_evaluation out ctx w (big : string -> Z)
    (pk : string -> string) (first : RouteInfo) (rest : list RouteInfo) :
  (forall s, CacheStrategies.BigInt out s = inr (big s)) ->
  (forall s, CacheStrategies.PublicKey out s = inr (pk s)) ->
  (forall req, CacheStrategies.computeRoutes out req
               = inr (Some {| routesInfos := Some (first :: rest) |})) ->
  let c := CacheStrategies.cache w in
  let amountToTrade :=
    if String.eqb (CacheStrategies.tradeSize_strategy (CacheStrategies.config c))
                  "cumulative"
    then CacheStrategies.tokenA (CacheStrategies.currentBalance c)
    else CacheStrategies.tokenA (CacheStrategies.initialBalance c) in
  let highest := snd (CacheStrategies.mostProfitable amountToTrade first rest) in
  let '(w', o) := CacheStrategies.ArbitrageStrategy_execute out ctx w in
  o = Returned tt
  /\ CacheStrategies.console w'
     = CacheStrategies.console w
       ++ match rest with
          | [] => [CacheStrategies.NotEnoughRoutes]
          | _ :: _ =>
              CacheStrategies.ArbitrageBest (CacheStrategies.localeDate out)
                (CacheStrategies.iteration c + 1) highest (length (first :: rest))
              :: (if num_gtb highest
                       (CacheStrategies.minPercProfit (CacheStrategies.config c))
                     && CacheStrategies.tradingEnabled c
                  then [CacheStrategies.ExecutingArbitrage highest]
                  else [])
          end.
Proof.
  intros Hbig Hpk Hquote c amountToTrade highest.
  subst c amountToTrade highest.
  unfold CacheStrategies.ArbitrageStrategy_execute. unfold_monad.
  cbn -[Z.add CacheStrategies.mostProfitable].
  destruct (String.eqb _ _);
    rewrite !Hbig, !Hpk, !Hquote; cbn -[Z.add CacheStrategies.mostProfitable];
    (destruct rest as [|second rest];
     [ cbn; split; reflexivity |]);
    cbn -[Z.add CacheStrategies.mostProfitable];
    destruct (CacheStrategies.mostProfitable _ first (second :: rest))
      as [best highest];
    cbn -[Z.add];
    destruct (num_gtb highest _); destruct (CacheStrategies.tradingEnabled _);
    cbn -[Z.add]; rewrite <- ?app_assoc; split; reflexivity.
Qed.

End Evaluation.

(** ** The multi-route evaluation *)

Section Selection.
Context {number : Type} {JN : JsNumber number}.
Variable amount : number.

Abbreviation profit := (CacheStrategies.profit_of amount).

Section Ordered.
Variable candidates : list RouteInfo.
Hypothesis comparable : comparable_profits amount candidates.

Lemma profit_gt_trans (a b c : RouteInfo) :
  In a candidates -> In b candidates -> In c candidates ->
  num_gtb (profit a) (profit b) = true ->
  num_gtb (profit b) (profit c) = true ->
  num_gtb (profit a) (profit c) = true.
Proof.
  intros Ha Hb Hc Hab Hbc.
  destruct comparable as [Hasym Hneg].
  destruct (num_gtb (profit a) (profit c)) eqn:Hac; [reflexivity|].
  pose proof (Hasym b c Hb Hc Hbc) as Hcb.
  pose proof (Hneg a c b Ha Hc Hb Hac Hcb) as Hab'.
  congruence.
Qed.

Lemma profit_gt_irrefl (a : RouteInfo) :
  In a candidates -> num_gtb (profit a) (profit a) = false.
Proof.
  intros Ha. destruct comparable as [Hasym _].
  destruct (num_gtb (profit a) (profit a)) eqn:Haa; [|reflexivity].
  pose proof (Hasym a a Ha Ha Haa). congruence.
Qed.

(** The loop keeps the first route with the greatest profit: the routes
    before it have a smaller profit, the routes after it do not have a
    greater one. *)
Lemma scan_routes_first_max (rest : list RouteInfo) :
  forall best : RouteInfo,
    (forall r, In r (best :: rest) -> In r candidates) ->
    exists (pre post : list RouteInfo) (b : RouteInfo),
      CacheStrategies.scan_routes amount rest best (profit best) = (b, profit b)
      /\ best :: rest = pre ++ b :: post
      /\ Forall (fun r => num_gtb (profit b) (profit r) = true) pre
      /\ Forall (fun r => num_gtb (profit r) (profit b) = false) post.
Proof.
  induction rest as [|route rest IH]; intros best Hsub.
  - exists [], [], best. cbn. repeat split; constructor.
  - cbn [CacheStrategies.scan_routes]. cbv zeta.
    assert (Hbest : In best candidates) by (apply Hsub; left; reflexivity).
    assert (Hroute : In route candidates) by (apply Hsub; right; left; reflexivity).
    assert (Hrest : forall r, In r rest -> In r candidates)
      by (intros r Hr; apply Hsub; right; right; exact Hr).
    destruct (num_gtb (profit route) (profit best)) eqn:E.
    + destruct (IH route) as (pre & post & b & Hscan & Hsplit & Hpre & Hpost).
      { intros r [<-|Hr]; [exact Hroute | exact (Hrest r Hr)]. }
      assert (Hb : In b candidates).
      { assert (Hin : In b (route :: rest))
          by (rewrite Hsplit; apply in_or_app; right; left; reflexivity).
        destruct Hin as [<-|Hr]; [exact Hroute | exact (Hrest b Hr)]. }
      exists (best :: pre), post, b. rewrite Hscan.
      split; [reflexivity|]. split; [rewrite Hsplit; reflexivity|].
      split; [|exact Hpost].
      constructor; [|exact Hpre].
      destruct pre as [|p pre'].
      * cbn in Hsplit. injection Hsplit as <- _. exact E.
      * cbn in Hsplit. injection Hsplit as <- _.
        apply Forall_inv in Hpre. cbv beta in Hpre.
        exact (profit_gt_trans b route best Hb Hroute Hbest Hpre E).
    + destruct (IH best) as (pre & post & b & Hscan & Hsplit & Hpre & Hpost).
      { intros r [<-|Hr]; [exact Hbest | exact (Hrest r Hr)]. }
      assert (Hb : In b candidates).
      { assert (Hin : In b (best :: rest))
          by (rewrite Hsplit; apply in_or_app; right; left; reflexivity).
        destruct Hin as [<-|Hr]; [exact Hbest | exact (Hrest b Hr)]. }
      rewrite Hscan.
      destruct pre as [|p pre'].
      * cbn in Hsplit. injection Hsplit as <- ->.
        exists [], (route :: post), best.
        split; [reflexivity|]. split; [reflexivity|].
        split; [constructor|]. constructor; [exact E | exact Hpost].
      * cbn in Hsplit. injection Hsplit as <- ->.
        exists (best :: route :: pre'), post, b.
        split; [reflexivity|]. split; [reflexivity|].
        split; [|exact Hpost].
        pose proof (Forall_inv Hpre) as Hover. cbv beta in Hover.
        constructor; [exact Hover|].
        constructor; [|exact (Forall_inv_tail Hpre)].
        destruct (num_gtb (profit b) (profit route)) eqn:Hbr; [reflexivity|].
        pose proof (proj2 comparable b route best Hb Hroute Hbest Hbr E) as Hnot.
        congruence.
Qed.

(** What the selection returns: a route of the list, with its profit, and
    no route of the list has a greater profit. *)
Lemma mostProfitable_max (first : RouteInfo) (rest : list RouteInfo) :
  (forall r, In r (first :: rest) -> In r candidates) ->
  let best := fst (CacheStrategies.mostProfitable amount first rest) in
  snd (CacheStrategies.mostProfitable amount first rest) = profit best
  /\ In best (first :: rest)
  /\ forall r, In r (first :: rest) -> num_gtb (profit r) (profit best) = false.
Proof.
  intros Hsub. unfold CacheStrategies.mostProfitable.
  destruct (scan_routes_first_max rest first Hsub)
    as (pre & post & b & Hscan & Hsplit & Hpre & Hpost).
  rewrite Hscan. cbn [fst snd].
  assert (Hin : In b (first :: rest))
    by (rewrite Hsplit; apply in_or_app; right; left; reflexivity).
  split; [reflexivity|]. split; [exact Hin|].
  intros r Hr. pose proof (Hsub r Hr) as Hrc. rewrite Hsplit in Hr.
  apply in_app_or in Hr. destruct Hr as [Hr|[<-|Hr]].
  - rewrite Forall_forall in Hpre. apply list_elem_of_In in Hr.
    apply (proj1 comparable b r (Hsub b Hin) Hrc). exact (Hpre r Hr).
  - apply profit_gt_irrefl. exact Hrc.
  - rewrite Forall_forall in Hpost. apply list_elem_of_In in Hr.
    exact (Hpost r Hr).
Qed.

End Ordered.

(** C2 (amended): on two or more candidates and an amount that is not
    "less than or equal to zero", the profit of every candidate is
    [(outAmount - amount) / amount * 100], computed in [number]; when the
    comparison orders these profits, the selection returns the first
    candidate with the greatest profit (every candidate before it has a
    smaller profit, no candidate after it has a greater one), and the cycle
    prints that profit, and the line of the trade when the profit is above
    the minimum and trading is enabled.  Under a permutation of the
    candidates the selection has a profit that is neither greater nor
    smaller, and the selected route is the same when the profit of no other
    candidate ties with it. *)
Theorem mostProfitable_first_maximum (first second : RouteInfo)
    (rest : list RouteInfo) :
  let candidates := first :: second :: rest in
  num_leb amount (num_of_Z 0) = false ->
  comparable_profits amount candidates ->
  exists (pre post : list RouteInfo) (best : RouteInfo),
    CacheStrategies.mostProfitable amount first (second :: rest) = (best, profit best)
    /\ candidates = pre ++ best :: post
    /\ Forall (fun r => num_gtb (profit best) (profit r) = true) pre
    /\ Forall (fun r => num_gtb (profit r) (profit best) = false) post
    /\ (forall r : RouteInfo,
          profit r
          = num_mul (num_div (num_sub (num_of_Z (outAmount r)) amount) amount)
                    (num_of_Z 100))
    /\ (forall (first' : RouteInfo) (rest' : list RouteInfo),
          Permutation candidates (first' :: rest') ->
          let selected := CacheStrategies.mostProfitable amount first' rest' in
          snd selected = profit (fst selected)
          /\ In (fst selected) candidates
          /\ num_gtb (snd selected) (profit best) = false
          /\ num_gtb (profit best) (snd selected) = false
          /\ ((forall r, In r candidates ->
                         num_gtb (profit best) (profit r) = false -> r = best) ->
              fst selected = best))
    /\ (forall (out : CacheStrategies.Outside number)
               (ctx : CacheStrategies.StrategyContext number)
               (w : CacheStrategies.World number)
               (big : string -> Z) (pk : string -> string),
          (forall s, CacheStrategies.BigInt out s = inr (big s)) ->
          (forall s, CacheStrategies.PublicKey out s = inr (pk s)) ->
          (forall req, CacheStrategies.computeRoutes out req
                       = inr (Some {| routesInfos := Some candidates |})) ->
          let c := CacheStrategies.cache w in
          (if String.eqb (CacheStrategies.tradeSize_strategy (CacheStrategies.config c))
                         "cumulative"
           then CacheStrategies.tokenA (CacheStrategies.currentBalance c)
           else CacheStrategies.tokenA (CacheStrategies.initialBalance c)) = amount ->
          let '(w', o) := CacheStrategies.ArbitrageStrategy_execute out ctx w in
          o = Returned tt
          /\ CacheStrategies.console w'
             = CacheStrategies.console w
               ++ CacheStrategies.ArbitrageBest (CacheStrategies.localeDate out)
                    (CacheStrategies.iteration c + 1) (profit best) (length candidates)
                  :: (if num_gtb (profit best)
                           (CacheStrategies.minPercProfit (CacheStrategies.config c))
                         && CacheStrategies.tradingEnabled c
                      then [CacheStrategies.ExecutingArbitrage (profit best)]
                      else [])).
Proof.
  intros candidates Hpositive Hcomparable.
  destruct (scan_routes_first_max candidates Hcomparable (second :: rest) first
              (fun r Hr => Hr))
    as (pre & post & b & Hscan & Hsplit & Hpre & Hpost).
  exists pre, post, b.
  assert (Hsel : CacheStrategies.mostProfitable amount first (second :: rest)
                 = (b, profit b)) by exact Hscan.
  split; [exact Hsel|]. split; [exact Hsplit|].
  split; [exact Hpre|]. split; [exact Hpost|].
  split.
  { intros r. unfold CacheStrategies.profit_of, Utils.calculateProfit, Utils.as_number.
    cbv zeta. rewrite Hpositive. reflexivity. }
  split.
  { intros first' rest' Hperm selected.
    pose proof (mostProfitable_max candidates Hcomparable first (second :: rest)
                  (fun r Hr => Hr)) as (_ & Hin & Hmax).
    rewrite Hsel in Hin, Hmax. cbn [fst] in Hin, Hmax.
    assert (Hsub : forall r, In r (first' :: rest') -> In r candidates)
      by (intros r Hr; eapply Permutation_in; [symmetry; exact Hperm | exact Hr]).
    pose proof (mostProfitable_max candidates Hcomparable first' rest' Hsub)
      as (Hsnd' & Hin' & Hmax').
    fold selected in Hsnd', Hin', Hmax'.
    assert (Hback : num_gtb (profit b) (profit (fst selected)) = false)
      by (apply Hmax'; eapply Permutation_in; [exact Hperm | exact Hin]).
    split; [exact Hsnd'|]. split; [exact (Hsub _ Hin')|].
    split; [rewrite Hsnd'; exact (Hmax _ (Hsub _ Hin'))|].
    split; [rewrite Hsnd'; exact Hback|].
    intros Huniq. exact (Huniq _ (Hsub _ Hin') Hback). }
  intros out ctx w big pk Hbig Hpk Hquote c Hamount.
  pose proof (ArbitrageStrategy_evaluation out ctx w big pk first (second :: rest)
                Hbig Hpk Hquote) as Heval.
  cbv zeta in Heval. fold c in Heval. rewrite Hamount, Hsel in Heval.
  cbn [snd] in Heval. exact Heval.
Qed.

End Selection.

(** *** The exact instance *)

Section ExactProfits.

Local Open Scope Q_scope.

Lemma pct_formula (q : Q) (out : Z) :
  pct q out == (inject_Z out - q) / q * 100.
Proof.
  unfold pct. rewrite !Qred_correct. reflexivity.
Qed.

Lemma profit_of_positive (q : Q) (r : RouteInfo) :
  0 < q ->
  CacheStrategies.profit_of (Fin q) r = Fin (pct q (outAmount r)).
Proof.
  intros Hq.
  unfold CacheStrategies.profit_of, Utils.calculateProfit, Utils.as_number.
  cbn [num_leb num_of_Z num_mul num_div num_sub xnum_number x_leb].
  assert (Hle : Qle_bool q (inject_Z 0) = false).
  { destruct (Qle_bool q (inject_Z 0)) eqn:E; [|reflexivity].
    apply Qle_bool_iff in E. exfalso. apply (Qlt_not_le _ _ Hq). exact E. }
  rewrite Hle.
  unfold x_sub, x_neg, x_add, x_div, x_mul, Qzero.
  assert (Hz : Qeq_bool q 0 = false).
  { destruct (Qeq_bool q 0) eqn:E; [|reflexivity].
    apply Qeq_bool_iff in E. rewrite E in Hq. exfalso. exact (Qlt_irrefl _ Hq). }
  rewrite Hz. reflexivity.
Qed.

Lemma pct_le (q : Q) (a b : Z) :
  0 < q -> (pct q a <= pct q b <-> (a <= b)%Z).
Proof.
  intros Hq. rewrite !pct_formula.
  assert (Hc : 0 < / q * 100).
  { apply Qmult_lt_0_compat; [apply Qinv_lt_0_compat; exact Hq | reflexivity]. }
  unfold Qdiv, Qminus. rewrite <- !Qmult_assoc.
  rewrite (Qmult_le_r _ _ _ Hc).
  rewrite Qplus_le_l. rewrite <- Zle_Qle. reflexivity.
Qed.

(** In exact arithmetic and on a positive amount, comparing two profits is
    comparing the two output amounts. *)
Lemma profit_gtb (q : Q) (r1 r2 : RouteInfo) :
  0 < q ->
  num_gtb (CacheStrategies.profit_of (Fin q) r1)
          (CacheStrategies.profit_of (Fin q) r2)
  = (outAmount r2 <? outAmount r1)%Z.
Proof.
  intros Hq. rewrite !profit_of_positive by exact Hq.
  cbn [num_gtb xnum_number x_gtb x_leb].
  destruct (Qle_bool (pct q (outAmount r1)) (pct q (outAmount r2))) eqn:E.
  - apply Qle_bool_iff in E. apply pct_le in E; [|exact Hq].
    symmetry. apply Z.ltb_ge. exact E.
  - symmetry. apply Z.ltb_lt.
    destruct (Z.lt_ge_cases (outAmount r2) (outAmount r1)) as [Hlt|Hge]; [exact Hlt|].
    apply (pct_le q) in Hge; [|exact Hq].
    apply Qle_bool_iff in Hge. congruence.
Qed.

(** So that the profits of any candidates are ordered by the comparison. *)
Lemma exact_profits_comparable (q : Q) (candidates : list RouteInfo) :
  0 < q -> comparable_profits (Fin q) candidates.
Proof.
  intros Hq. split.
  - intros a b _ _. rewrite !(profit_gtb q) by exact Hq.
    intros Hab. apply Z.ltb_lt in Hab. apply Z.ltb_ge. lia.
  - intros a b c _ _ _. rewrite !(profit_gtb q) by exact Hq.
    intros Hab Hbc. apply Z.ltb_ge in Hab, Hbc. apply Z.ltb_ge. lia.
Qed.

End ExactProfits.

(** The theorem at four candidates, two of which tie for the maximum: the
    first of the two is selected, with a profit of 1 %. *)
Lemma mostProfitable_first_maximum_witness :
  exists (pre post : list RouteInfo) (best : RouteInfo),
    CacheStrategies.mostProfitable (Fin 100) (route_via "Orca" 99)
      [route_via "Raydium" 101; route_via "Meteora" 101; route_via "Lifinity" 100]
    = (best, CacheStrategies.profit_of (Fin 100) best)
    /\ best = route_via "Raydium" 101
    /\ CacheStrategies.profit_of (Fin 100) best = Fin 1.
Proof.
  destruct (mostProfitable_first_maximum (JN := xnum_number) (Fin 100)
              (route_via "Orca" 99)
              (route_via "Raydium" 101)
              [route_via "Meteora" 101; route_via "Lifinity" 100] eq_refl
              (exact_profits_comparable 100 _ eq_refl))
    as (pre & post & best & Hsel & _).
  exists pre, post, best.
  split; [exact Hsel|].
  vm_compute in Hsel. injection Hsel as <- _.
  split; reflexivity.
Defined.

(** C2, as stated, fails: two candidates with the same profit, in the two
    orders; the route selected is the one that comes first. *)
Lemma selected_route_depends_on_order :
  Permutation [route_via "Orca" 110; route_via "Raydium" 110]
              [route_via "Raydium" 110; route_via "Orca" 110]
  /\ fst (CacheStrategies.mostProfitable (Fin 100) (route_via "Orca" 110)
            [route_via "Raydium" 110])
     <> fst (CacheStrategies.mostProfitable (Fin 100) (route_via "Raydium" 110)
               [route_via "Orca" 110]).
Proof.
  split; [apply perm_swap|].
  vm_compute. discriminate.
Qed.

(** ** The cycles of the strategies on the shared cache *)

Section CacheCycles.
Context {number : Type} {JN : JsNumber number}.
Implicit Types (out : CacheStrategies.Outside number)
  (ctx : CacheStrategies.StrategyContext number)
  (w : CacheStrategies.World number).

(** On every path of a cycle, the iteration counter is incremented by
    exactly one. *)
Lemma ArbitrageStrategy_iteration out ctx w :
  CacheStrategies.iteration
    (CacheStrategies.cache (fst (CacheStrategies.ArbitrageStrategy_execute out ctx w)))
  = CacheStrategies.iteration (CacheStrategies.cache w) + 1.
Proof.
  unfold CacheStrategies.ArbitrageStrategy_execute. unfold_monad.
  cbn -[Z.add]. split_cases; reflexivity.
Qed.

Lemma PingPongStrategy_iteration out ctx w :
  CacheStrategies.iteration
    (CacheStrategies.cache (fst (CacheStrategies.PingPongStrategy_execute out ctx w)))
  = CacheStrategies.iteration (CacheStrategies.cache w) + 1.
Proof.
  unfold CacheStrategies.PingPongStrategy_execute. unfold_monad.
  cbn -[Z.add]. split_cases; reflexivity.
Qed.

(** A cycle never throws to its caller: the [catch] block takes every
    error. *)
Lemma ArbitrageStrategy_never_throws out ctx w e :
  snd (CacheStrategies.ArbitrageStrategy_execute out ctx w) <> Threw e.
Proof.
  unfold CacheStrategies.ArbitrageStrategy_execute. unfold_monad.
  cbn -[Z.add]. split_cases; cbn; discriminate.
Qed.

Lemma PingPongStrategy_never_throws out ctx w e :
  snd (CacheStrategies.PingPongStrategy_execute out ctx w) <> Threw e.
Proof.
  unfold CacheStrategies.PingPongStrategy_execute. unfold_monad.
  cbn -[Z.add]. split_cases; cbn; discriminate.
Qed.

(** The status of the cycle's iteration when the cycle has ended: 0 if the
    routes guard was passed, and the -1 written at the start otherwise. *)
Lemma ArbitrageStrategy_status out ctx w :
  let '(w', c) := CacheStrategies.ArbitrageStrategy_execute out ctx w in
  let i := CacheStrategies.iteration (CacheStrategies.cache w) + 1 in
  CacheStrategies.queue (CacheStrategies.cache w')
  = <[i := 0]> (<[i := -1]> (CacheStrategies.queue (CacheStrategies.cache w)))
  \/ (CacheStrategies.queue (CacheStrategies.cache w')
      = <[i := -1]> (CacheStrategies.queue (CacheStrategies.cache w))
      /\ ((exists e, CacheStrategies.console w'
                     = CacheStrategies.console w ++ [CacheStrategies.ArbitrageError e])
          \/ c = Exited 1)).
Proof.
  unfold CacheStrategies.ArbitrageStrategy_execute. unfold_monad.
  cbn -[Z.add]. split_cases;
    solve [ left; reflexivity
          | right; split; [reflexivity | left; eexists; reflexivity]
          | right; split; [reflexivity | right; reflexivity] ].
Qed.

Lemma PingPongStrategy_status out ctx w :
  let '(w', c) := CacheStrategies.PingPongStrategy_execute out ctx w in
  let i := CacheStrategies.iteration (CacheStrategies.cache w) + 1 in
  CacheStrategies.queue (CacheStrategies.cache w')
  = <[i := 0]> (<[i := -1]> (CacheStrategies.queue (CacheStrategies.cache w)))
  \/ (CacheStrategies.queue (CacheStrategies.cache w')
      = <[i := -1]> (CacheStrategies.queue (CacheStrategies.cache w))
      /\ ((exists e, CacheStrategies.console w'
                     = CacheStrategies.console w ++ [CacheStrategies.PingPongError e])
          \/ c = Exited 1)).
Proof.
  unfold CacheStrategies.PingPongStrategy_execute. unfold_monad.
  cbn -[Z.add]. split_cases;
    solve [ left; reflexivity
          | right; split; [reflexivity | left; eexists; reflexivity]
          | right; split; [reflexivity | right; reflexivity] ].
Qed.

(** C5: on the error path the status of the iteration is not updated.  When
    the quote service throws, the cycle returns to its caller with the
    iteration incremented by one and its status still -1 (pending). *)
Theorem quote_error_leaves_pending out ctx w (e : Thrown) :
  (forall req, CacheStrategies.computeRoutes out req = inl e) ->
  let i := CacheStrategies.iteration (CacheStrategies.cache w) + 1 in
  (let '(w', c) := CacheStrategies.ArbitrageStrategy_execute out ctx w in
   c = Returned tt
   /\ CacheStrategies.iteration (CacheStrategies.cache w') = i
   /\ CacheStrategies.queue (CacheStrategies.cache w') !! i = Some (-1))
  /\
  (let '(w', c) := CacheStrategies.PingPongStrategy_execute out ctx w in
   c = Returned tt
   /\ CacheStrategies.iteration (CacheStrategies.cache w') = i
   /\ CacheStrategies.queue (CacheStrategies.cache w') !! i = Some (-1)).
Proof.
  intros Hquote i. split.
  - unfold CacheStrategies.ArbitrageStrategy_execute. unfold_monad.
    cbn -[Z.add]. rewrite ?Hquote.
    split_cases;
      try match goal with
          | H : CacheStrategies.computeRoutes _ _ = inr _ |- _ =>
              rewrite Hquote in H; discriminate H
          end;
      (split; [reflexivity|]; split; [reflexivity|]; apply lookup_insert_eq).
  - unfold CacheStrategies.PingPongStrategy_execute. unfold_monad.
    cbn -[Z.add]. rewrite ?Hquote.
    split_cases;
      try match goal with
          | H : CacheStrategies.computeRoutes _ _ = inr _ |- _ =>
              rewrite Hquote in H; discriminate H
          end;
      (split; [reflexivity|]; split; [reflexivity|]; apply lookup_insert_eq).
Qed.

(** The routes guard ends the process exactly when there is no route to
    read. *)
Lemma checkRoutesResponse_exits (routes : option Routes) :
  snd (Utils.checkRoutesResponse routes)
  = match CacheStrategies.infos_of routes with
    | [] => Exited 1
    | _ :: _ => Returned tt
    end.
Proof.
  destruct routes as [[[[|r l]|]]|]; reflexivity.
Qed.

(** C4 (amended): a failure raised by the quote service is cycle-scoped: the
    cycle ends early, returns to its caller, and the console has one more
    line, the error.  An answer with zero routes, or without a list of
    routes, is not: the routes guard prints it and requests the termination
    of the process with exit code 1. *)
Theorem quote_failure_scope out ctx w :
  (forall e : Thrown,
      (forall req, CacheStrategies.computeRoutes out req = inl e) ->
      (let '(w', c) := CacheStrategies.ArbitrageStrategy_execute out ctx w in
       c = Returned tt
       /\ exists e', CacheStrategies.console w'
                     = CacheStrategies.console w ++ [CacheStrategies.ArbitrageError e'])
      /\
      (let '(w', c) := CacheStrategies.PingPongStrategy_execute out ctx w in
       c = Returned tt
       /\ exists e', CacheStrategies.console w'
                     = CacheStrategies.console w ++ [CacheStrategies.PingPongError e']))
  /\
  (forall (routes : option Routes) (big : string -> Z) (pk : string -> string),
      (forall s, CacheStrategies.BigInt out s = inr (big s)) ->
      (forall s, CacheStrategies.PublicKey out s = inr (pk s)) ->
      (forall req, CacheStrategies.computeRoutes out req = inr routes) ->
      CacheStrategies.infos_of routes = [] ->
      (let '(w', c) := CacheStrategies.ArbitrageStrategy_execute out ctx w in
       c = Exited 1
       /\ exists complaint,
            CacheStrategies.console w'
            = CacheStrategies.console w ++ [CacheStrategies.RoutesDump routes complaint])
      /\
      (let '(w', c) := CacheStrategies.PingPongStrategy_execute out ctx w in
       c = Exited 1
       /\ exists complaint,
            CacheStrategies.console w'
            = CacheStrategies.console w ++ [CacheStrategies.RoutesDump routes complaint])).
Proof.
  split.
  - intros e Hquote. split.
    + unfold CacheStrategies.ArbitrageStrategy_execute. unfold_monad.
      cbn -[Z.add].
      split_cases;
        try match goal with
            | H : CacheStrategies.computeRoutes _ _ = inr _ |- _ =>
                rewrite Hquote in H; discriminate H
            end;
        (split; [reflexivity | eexists; reflexivity]).
    + unfold CacheStrategies.PingPongStrategy_execute. unfold_monad.
      cbn -[Z.add].
      split_cases;
        try match goal with
            | H : CacheStrategies.computeRoutes _ _ = inr _ |- _ =>
                rewrite Hquote in H; discriminate H
            end;
        (split; [reflexivity | eexists; reflexivity]).
  - intros routes big pk Hbig Hpk Hquote Hnone. split.
    + unfold CacheStrategies.ArbitrageStrategy_execute. unfold_monad.
      cbn -[Z.add]. rewrite !Hbig, !Hpk, !Hquote.
      destruct routes as [[[[|r l]|]]|]; try discriminate Hnone;
        cbn; (split; [reflexivity | eexists; reflexivity]).
    + unfold CacheStrategies.PingPongStrategy_execute. unfold_monad.
      cbn -[Z.add].
      destruct (CacheStrategies.sideBuy (CacheStrategies.cache w));
        destruct (String.eqb _ _);
        rewrite !Hbig, !Hpk, !Hquote;
        destruct routes as [[[[|r l]|]]|]; try discriminate Hnone;
        cbn; (split; [reflexivity | eexists; reflexivity]).
Qed.

End CacheCycles.

(** The theorem at a fresh cache and a quote service that fails. *)
Lemma quote_error_leaves_pending_witness :
  let out := example_outside (inl (ErrorObject "fetch failed")) in
  (let '(w', c) := CacheStrategies.ArbitrageStrategy_execute out example_context
                     (example_world true) in
   c = Returned tt
   /\ CacheStrategies.iteration (CacheStrategies.cache w') = 1
   /\ CacheStrategies.queue (CacheStrategies.cache w') !! 1 = Some (-1))
  /\
  (let '(w', c) := CacheStrategies.PingPongStrategy_execute out example_context
                     (example_world true) in
   c = Returned tt
   /\ CacheStrategies.iteration (CacheStrategies.cache w') = 1
   /\ CacheStrategies.queue (CacheStrategies.cache w') !! 1 = Some (-1)).
Proof.
  exact (quote_error_leaves_pending
           (example_outside (inl (ErrorObject "fetch failed")))
           example_context (example_world true) (ErrorObject "fetch failed")
           (fun _ => eq_refl)).
Defined.

(** The theorem at a quote service that fails, and at one that answers with
    zero routes. *)
Lemma quote_failure_scope_witness :
  (let '(w', c) :=
     CacheStrategies.PingPongStrategy_execute
       (example_outside (inl (ErrorObject "fetch failed")))
       example_context (example_world true) in
   c = Returned tt
   /\ exists e', CacheStrategies.console w' = [] ++ [CacheStrategies.PingPongError e'])
  /\
  (let '(w', c) :=
     CacheStrategies.PingPongStrategy_execute
       (example_outside (inr (Some {| routesInfos := Some [] |})))
       example_context (example_world true) in
   c = Exited 1
   /\ exists complaint,
        CacheStrategies.console w'
        = [] ++ [CacheStrategies.RoutesDump (Some {| routesInfos := Some [] |}) complaint]).
Proof.
  split.
  - exact (proj2 (proj1 (quote_failure_scope
                           (example_outside (inl (ErrorObject "fetch failed")))
                           example_context (example_world true))
                   (ErrorObject "fetch failed") (fun _ => eq_refl))).
  - exact (proj2 (proj2 (quote_failure_scope
                           (example_outside (inr (Some {| routesInfos := Some [] |})))
                           example_context (example_world true))
                   (Some {| routesInfos := Some [] |}) example_BigInt (fun s => s)
                   (fun _ => eq_refl) (fun _ => eq_refl) (fun _ => eq_refl) eq_refl)).
Defined.

(** C4, as stated, fails: a cycle whose quote has zero routes requests the
    termination of the process. *)
Lemma zero_routes_exit_the_process :
  snd (CacheStrategies.PingPongStrategy_execute
         (example_outside (inr (Some {| routesInfos := Some [] |})))
         example_context (example_world true))
  = Exited 1
  /\ snd (CacheStrategies.ArbitrageStrategy_execute
            (example_outside (inr (Some {| routesInfos := Some [] |})))
            example_context (example_world true))
     = Exited 1.
Proof. split; vm_compute; reflexivity. Qed.

(** ** The error counter and the circuit breaker *)

Section CircuitBreaker.
(** A step function that counts its failed executions and exits when the
    count has passed 100. *)
Context {S C A : Type}.
Variables (step : C -> M S A) (count : S -> Z) (raises : C -> S -> bool).
Hypothesis step_counts :
  forall c s, count (fst (step c s)) = count s + (if raises c s then 1 else 0).
Hypothesis step_exits :
  forall c s,
    (snd (step c s) = Exited 1 /\ raises c s = true /\ 100 < count s + 1)
    \/ (exited (snd (step c s)) = false /\ (raises c s = false \/ count s + 1 <= 100)).

Lemma count_true_nonneg (flags : list bool) : 0 <= count_true flags.
Proof. induction flags as [|[] flags IH]; cbn [count_true]; lia. Qed.



(** After a run the count is the count before it plus the number of calls
    of the run that raised. *)
Lemma run_counts (calls : list C) :
  forall s : S,
    count (fst (run_calls step calls s))
    = count s
      + count_true (take (length (snd (run_calls step calls s)))
                      (raise_flags step raises calls s)).
Proof.
  induction calls as [|c calls IH]; intros s.
  - cbn. lia.
  - cbn [run_calls raise_flags].
    pose proof (step_counts c s) as Hcount.
    destruct (step c s) as [s' o]. cbn [fst] in Hcount.
    specialize (IH s').
    destruct (run_calls step calls s') as [s'' outs]. cbn [fst snd] in IH.
    destruct o as [a|e|code]; cbn [fst snd length].
    + change (take (Datatypes.S (length outs)) (raises c s :: raise_flags step raises calls s'))
        with (raises c s :: take (length outs) (raise_flags step raises calls s')).
      cbn [count_true]. lia.
    + change (take (Datatypes.S (length outs)) (raises c s :: raise_flags step raises calls s'))
        with (raises c s :: take (length outs) (raise_flags step raises calls s')).
      cbn [count_true]. lia.
    + change (take 1 (raises c s :: raise_flags step raises calls s'))
        with (raises c s :: take 0 (raise_flags step raises calls s')).
      rewrite take_0. cbn [count_true]. lia.
Qed.


End CircuitBreaker.

Ltac unfold_api :=
  cbv beta iota zeta delta
    [api_raises ApiPingPong.call ApiPingPong.execute ApiPingPong.try_block
     ApiPingPong.catch_block ApiPingPong.get_this ApiPingPong.update_this
     ApiPingPong.print
     bind ret try_catch lift complete process_exit get_state modify_state].

Ltac unfold_sdk :=
  cbv beta iota zeta delta
    [sdk_raises SdkArbitrage.call SdkArbitrage.execute SdkArbitrage.try_block
     SdkArbitrage.catch_block SdkArbitrage.get_this SdkArbitrage.update_this
     SdkArbitrage.print
     bind ret try_catch lift complete process_exit get_state modify_state].


Section ErrorCounter.
Context {number : Type} {JN : JsNumber number}.

Lemma api_step_counts (c : ApiPingPong.Call number) (w : ApiPingPong.World number) :
  ApiPingPong.errorCount (ApiPingPong.this (fst (ApiPingPong.call c w)))
  = ApiPingPong.errorCount (ApiPingPong.this w)
    + (if api_raises c w then 1 else 0).
Proof.
  unfold_api. cbn -[Z.add]. split_cases; cbn -[Z.add]; lia.
Qed.


Lemma sdk_step_counts (c : SdkArbitrage.Call number) (w : SdkArbitrage.World) :
  SdkArbitrage.errorCount (SdkArbitrage.this (fst (SdkArbitrage.call c w)))
  = SdkArbitrage.errorCount (SdkArbitrage.this w)
    + (if sdk_raises c w then 1 else 0).
Proof.
  unfold_sdk. cbn -[Z.add]. split_cases; cbn -[Z.add]; lia.
Qed.


Lemma api_success_not_counted (c : ApiPingPong.Call number)
    (w : ApiPingPong.World number) (r : TradeResult number) :
  snd (ApiPingPong.call c w) = Returned r -> success r = true ->
  api_raises c w = false
  /\ ApiPingPong.errorCount (ApiPingPong.this (fst (ApiPingPong.call c w)))
     = ApiPingPong.errorCount (ApiPingPong.this w).
Proof.
  unfold_api. cbn -[Z.add]. split_cases; cbn -[Z.add]; intros Hr Hs;
    try discriminate Hr; injection Hr as <-; try discriminate Hs;
    split; reflexivity.
Qed.

(** C3 (amended): the error counter is incremented by exactly one by every
    call of [execute] whose [try] block raises an error, and is left as it
    is by every other call; it is never reset.  After a call that returns
    success=true the counter has the value it had before the call, and after
    a run of calls it is what it was before the run plus the number of calls
    of the run that raised. *)
Theorem error_counter_is_never_reset :
  (forall (c : ApiPingPong.Call number) (w : ApiPingPong.World number),
      ApiPingPong.errorCount (ApiPingPong.this (fst (ApiPingPong.call c w)))
      = ApiPingPong.errorCount (ApiPingPong.this w)
        + (if api_raises c w then 1 else 0))
  /\ (forall (c : ApiPingPong.Call number) (w : ApiPingPong.World number)
             (r : TradeResult number),
         snd (ApiPingPong.call c w) = Returned r -> success r = true ->
         ApiPingPong.errorCount (ApiPingPong.this (fst (ApiPingPong.call c w)))
         = ApiPingPong.errorCount (ApiPingPong.this w))
  /\ (forall (calls : list (ApiPingPong.Call number)) (w : ApiPingPong.World number),
         let '(w', outs) := run_calls ApiPingPong.call calls w in
         ApiPingPong.errorCount (ApiPingPong.this w')
         = ApiPingPong.errorCount (ApiPingPong.this w)
           + count_true (take (length outs)
                           (raise_flags ApiPingPong.call api_raises calls w)))
  /\ (forall (c : SdkArbitrage.Call number) (w : SdkArbitrage.World),
         SdkArbitrage.errorCount (SdkArbitrage.this (fst (SdkArbitrage.call c w)))
         = SdkArbitrage.errorCount (SdkArbitrage.this w)
           + (if sdk_raises c w then 1 else 0))
  /\ (forall (calls : list (SdkArbitrage.Call number)) (w : SdkArbitrage.World),
         let '(w', outs) := run_calls SdkArbitrage.call calls w in
         SdkArbitrage.errorCount (SdkArbitrage.this w')
         = SdkArbitrage.errorCount (SdkArbitrage.this w)
           + count_true (take (length outs)
                           (raise_flags SdkArbitrage.call sdk_raises calls w))).
Proof.
  split; [exact api_step_counts|].
  split; [intros c w r Hr Hs; exact (proj2 (api_success_not_counted c w r Hr Hs))|].
  split.
  { intros calls w.
    pose proof (run_counts ApiPingPong.call
                  (fun w => ApiPingPong.errorCount (ApiPingPong.this w))
                  api_raises api_step_counts calls w) as H.
    destruct (run_calls ApiPingPong.call calls w) as [w' outs]. exact H. }
  split; [exact sdk_step_counts|].
  intros calls w.
  pose proof (run_counts SdkArbitrage.call
                (fun w => SdkArbitrage.errorCount (SdkArbitrage.this w))
                sdk_raises sdk_step_counts calls w) as H.
  destruct (run_calls SdkArbitrage.call calls w) as [w' outs]. exact H.
Qed.


End ErrorCounter.

(** The theorem at a rejected submission followed by a successful call, and
    at a call of [strategies/arbitrage.ts] whose swap is refused. *)
Lemma error_counter_is_never_reset_witness :
  let w1 := fst (ApiPingPong.call rejected_call api_fresh) in
  ApiPingPong.errorCount (ApiPingPong.this w1) = 1
  /\ ApiPingPong.errorCount (ApiPingPong.this (fst (ApiPingPong.call good_call w1)))
     = ApiPingPong.errorCount (ApiPingPong.this w1)
  /\ SdkArbitrage.errorCount
       (SdkArbitrage.this
          (fst (SdkArbitrage.call (sdk_call (inl (ErrorObject "Slippage tolerance exceeded")))
                  sdk_fresh)))
     = 1.
Proof.
  split; [|split].
  - exact (proj1 error_counter_is_never_reset rejected_call api_fresh).
  - eapply (proj1 (proj2 error_counter_is_never_reset) good_call).
    + vm_compute. reflexivity.
    + reflexivity.
  - exact (proj1 (proj2 (proj2 (proj2 error_counter_is_never_reset)))
             (sdk_call (inl (ErrorObject "Slippage tolerance exceeded"))) sdk_fresh).
Defined.

(** C3, as stated, fails: a rejected submission, then a success; the
    counter is 1 after the call that returned success=true. *)
Lemma success_leaves_counter_nonzero :
  let w1 := fst (ApiPingPong.call rejected_call api_fresh) in
  let '(w2, o) := ApiPingPong.call good_call w1 in
  (exists r, o = Returned r /\ success r = true)
  /\ ApiPingPong.errorCount (ApiPingPong.this w2) = 1
  /\ ApiPingPong.errorCount (ApiPingPong.this w2) <> 0.
Proof.
  vm_compute. split; [eexists; split; reflexivity|]. split; [reflexivity | discriminate].
Qed.



(** ** The direction flag of the two-token strategies *)

Section SideFlag.
Context {number : Type} {JN : JsNumber number}.







End SideFlag.


(** ** Submission with retry *)

Section Retry.
Variables (answers : nat -> Thrown + string) (transaction : string)
  (signers : list string).

(** The loop does not run out of fuel: any two amounts of fuel that cover
    the iterations left give the same run. *)
Lemma retry_loop_fuel (maxRetries : Z) (signature : string) :
  forall (fuel1 fuel2 : nat) (retries : Z) (w : TransactionUtils.World),
    (Z.to_nat (maxRetries - retries) <= fuel1)%nat ->
    (Z.to_nat (maxRetries - retries) <= fuel2)%nat ->
    TransactionUtils.retry_loop fuel1 answers transaction signers maxRetries
      signature retries w
    = TransactionUtils.retry_loop fuel2 answers transaction signers maxRetries
        signature retries w.
Proof.
  induction fuel1 as [|fuel1 IH]; intros fuel2 retries w H1 H2.
  - destruct fuel2 as [|fuel2]; [reflexivity|].
    cbn [TransactionUtils.retry_loop].
    destruct (retries <? maxRetries) eqn:E; [|reflexivity].
    apply Z.ltb_lt in E. lia.
  - destruct fuel2 as [|fuel2].
    + cbn [TransactionUtils.retry_loop].
      destruct (retries <? maxRetries) eqn:E; [|reflexivity].
      apply Z.ltb_lt in E. lia.
    + cbn [TransactionUtils.retry_loop].
      destruct (retries <? maxRetries) eqn:E; [|reflexivity].
      apply Z.ltb_lt in E.
      unfold bind, try_catch, TransactionUtils.sendAndConfirmTransaction, lift,
        ret, complete, TransactionUtils.observe.
      destruct (answers (TransactionUtils.submissions w)) as [e|sig]; [|reflexivity].
      destruct (retries + 1 >=? maxRetries) eqn:G; [reflexivity|].
      rewrite Z.geb_leb in G. apply Z.leb_gt in G.
      apply IH; lia.
Qed.

(** Whatever the budget, the loop submits at most as many times as the
    budget leaves. *)
Lemma retry_loop_submissions (maxRetries : Z) (signature : string) :
  forall (fuel : nat) (retries : Z) (w : TransactionUtils.World),
    (TransactionUtils.submissions
       (fst (TransactionUtils.retry_loop fuel answers transaction signers
               maxRetries signature retries w))
     <= TransactionUtils.submissions w + Z.to_nat (maxRetries - retries))%nat.
Proof.
  induction fuel as [|fuel IH]; intros retries w.
  - cbn [TransactionUtils.retry_loop].
    destruct (retries <? maxRetries); cbn; lia.
  - cbn [TransactionUtils.retry_loop].
    destruct (retries <? maxRetries) eqn:E; [|cbn; lia].
    apply Z.ltb_lt in E.
    unfold bind, try_catch, TransactionUtils.sendAndConfirmTransaction, lift,
      ret, complete, TransactionUtils.observe.
    destruct (answers (TransactionUtils.submissions w)) as [e|sig]; [|cbn; lia].
    destruct (retries + 1 >=? maxRetries) eqn:G; [cbn; lia|].
    rewrite Z.geb_leb in G. apply Z.leb_gt in G.
    eapply Nat.le_trans; [apply IH|]. cbn. lia.
Qed.

(** C7: with the default budget, [sendTransactionWithRetry] submits at most
    three times, waits 1000 ms between two submissions, returns the
    signature of the first submission that succeeds, and re-raises the
    error of the third submission when all three fail.  With a connection
    that fails twice and then succeeds, it returns the signature. *)
Theorem sendTransactionWithRetry_default :
  let '(w', c) :=
    TransactionUtils.sendTransactionWithRetry answers transaction signers None
      TransactionUtils.fresh in
  let submit := TransactionUtils.Submitted transaction signers in
  let retry n := [TransactionUtils.RetryLogged n 3; TransactionUtils.Waited 1000] in
  (TransactionUtils.submissions w' <= 3)%nat
  /\ match answers 0%nat, answers 1%nat, answers 2%nat with
     | inr signature, _, _ =>
         c = Returned signature /\ TransactionUtils.submissions w' = 1%nat
         /\ TransactionUtils.timeline w' = [submit]
     | inl _, inr signature, _ =>
         c = Returned signature /\ TransactionUtils.submissions w' = 2%nat
         /\ TransactionUtils.timeline w' = [submit] ++ retry 1 ++ [submit]
     | inl _, inl _, inr signature =>
         c = Returned signature /\ TransactionUtils.submissions w' = 3%nat
         /\ TransactionUtils.timeline w'
            = [submit] ++ retry 1 ++ [submit] ++ retry 2 ++ [submit]
     | inl _, inl _, inl error =>
         c = Threw error /\ TransactionUtils.submissions w' = 3%nat
         /\ TransactionUtils.timeline w'
            = [submit] ++ retry 1 ++ [submit] ++ retry 2 ++ [submit]
     end.
Proof.
  cbv.
  destruct (answers 0%nat) as [e0|s0]; [|repeat split; lia].
  destruct (answers 1%nat) as [e1|s1]; [|repeat split; lia].
  destruct (answers 2%nat) as [e2|s2]; repeat split; lia.
Qed.

End Retry.

(** The scenario of the specification: the connection fails twice, then
    succeeds. *)
Example sendTransactionWithRetry_fails_twice :
  let answers n :=
    match n with
    | 0%nat => inl (ErrorObject "Blockhash not found")
    | 1%nat => inl (ErrorObject "Node is behind")
    | _ => inr "3nVfDq5sLYTiSKGt5BAjLRU5PqDApcLVkUEPjqPYy4Wp"
    end in
  let '(w', c) :=
    TransactionUtils.sendTransactionWithRetry answers "tx" ["payer"] None
      TransactionUtils.fresh in
  c = Returned "3nVfDq5sLYTiSKGt5BAjLRU5PqDApcLVkUEPjqPYy4Wp"
  /\ TransactionUtils.timeline w'
     = [TransactionUtils.Submitted "tx" ["payer"];
        TransactionUtils.RetryLogged 1 3; TransactionUtils.Waited 1000;
        TransactionUtils.Submitted "tx" ["payer"];
        TransactionUtils.RetryLogged 2 3; TransactionUtils.Waited 1000;
        TransactionUtils.Submitted "tx" ["payer"]].
Proof. vm_compute. split; reflexivity. Qed.

(** ** The event emitter *)

Section Emission.
Context {Arg User : Type}.
Variable react : nat -> list Arg -> M (Emitter.Heap User) unit.

Abbreviation invoke := (Emitter.invoke react).
Abbreviation emit_loop := (Emitter.emit_loop react).
Abbreviation emit := (Emitter.emit react).

(** [on] puts the callback at the end of the callbacks of its event:
    the array is in registration order. *)
Lemma on_appends (event : string) (callback : Emitter.Callback)
    (h : Emitter.Heap User) :
  Emitter.events (fst (Emitter.on event callback h)) !! event
  = Some (default [] (Emitter.events h !! event) ++ [callback])
  /\ snd (Emitter.on event callback h) = Returned tt.
Proof.
  unfold Emitter.on, modify_state. cbn. split; [apply lookup_insert_eq | reflexivity].
Qed.

(** One turn of the loop of [emit]: the callback is called; what it raises
    is caught and printed, and the loop goes on with the callbacks that
    follow; only a callback that exits the process ends the loop. *)
Lemma emit_loop_turn (event : string) (callback : Emitter.Callback)
    (rest : list Emitter.Callback) (args : list Arg) (o : Emitter.Observed User) :
  emit_loop event (callback :: rest) args o
  = let called' := Emitter.called o ++ [callback] in
    match invoke callback args (Emitter.heap o) with
    | (h', Returned _) =>
        emit_loop event rest args {| Emitter.heap := h'; Emitter.called := called' |}
    | (h', Threw err) =>
        emit_loop event rest args
          {| Emitter.heap :=
               {| Emitter.events := Emitter.events h';
                  Emitter.onceCount := Emitter.onceCount h';
                  Emitter.user := Emitter.user h';
                  Emitter.console :=
                    Emitter.console h' ++ [Emitter.ListenerError event err] |};
             Emitter.called := called' |}
    | (h', Exited code) =>
        ({| Emitter.heap := h'; Emitter.called := called' |}, Exited code)
    end.
Proof.
  cbn [Emitter.emit_loop].
  unfold bind, try_catch, Emitter.note_call, Emitter.in_heap, modify_state,
    Emitter.console_error.
  cbn.
  destruct (invoke callback args (Emitter.heap o)) as [h' [[]|err|code]];
    reflexivity.
Qed.

(** The call that [emit] makes does to the heap what the callback does. *)
Lemma invoke_effect (callback : Emitter.Callback) (args : list Arg) :
  forall h : Emitter.Heap User,
    invoke callback args h = callback_effect react callback args h.
Proof.
  induction callback as [id|serial event inner IH]; intros h; [reflexivity|].
  cbn [Emitter.invoke callback_effect]. unfold bind.
  assert (Hoff : Emitter.off event (Emitter.OnceCallback serial event inner) h
                 = (fst (Emitter.off event (Emitter.OnceCallback serial event inner) h),
                    Returned tt)) by reflexivity.
  rewrite Hoff. apply IH.
Qed.

(** The loop delivers the event to all the callbacks of the list. *)
Lemma emit_loop_delivers (event : string) (args : list Arg)
    (callbacks : list Emitter.Callback) :
  forall o : Emitter.Observed User,
    delivered_to_all react event args callbacks (Emitter.heap o)
      (Emitter.heap (fst (emit_loop event callbacks args o)),
       snd (emit_loop event callbacks args o)).
Proof.
  induction callbacks as [|callback rest IH]; intros o.
  - cbn. constructor.
  - rewrite emit_loop_turn. cbv zeta. rewrite invoke_effect.
    destruct (callback_effect react callback args (Emitter.heap o))
      as [h' [[]|err|code]] eqn:Heffect.
    + eapply delivered_returned; [exact Heffect|].
      match goal with
      | |- context [emit_loop event rest args ?o1] => exact (IH o1)
      end.
    + eapply delivered_caught; [exact Heffect|].
      match goal with
      | |- context [emit_loop event rest args ?o1] => exact (IH o1)
      end.
    + cbn [fst snd Emitter.heap]. eapply delivered_exit. exact Heffect.
Qed.

(** The loop never throws, and when it returns it has called all the
    callbacks of the list, in the order of the list. *)
Lemma emit_loop_calls_all (event : string) (args : list Arg)
    (callbacks : list Emitter.Callback) :
  forall o : Emitter.Observed User,
    let '(o', c) := emit_loop event callbacks args o in
    (forall e, c <> Threw e)
    /\ (c = Returned tt -> Emitter.called o' = Emitter.called o ++ callbacks)
    /\ (forall code, c = Exited code ->
        exists n, Emitter.called o' = Emitter.called o ++ take n callbacks).
Proof.
  induction callbacks as [|callback rest IH]; intros o.
  - cbn. split; [discriminate|]. split.
    + intros _. symmetry. apply app_nil_r.
    + discriminate.
  - rewrite emit_loop_turn. cbv zeta.
    destruct (invoke callback args (Emitter.heap o)) as [h' [[]|err|code]].
    + match goal with
      | |- context [emit_loop event rest args ?o1] => specialize (IH o1)
      end.
      destruct (emit_loop _ _ _ _) as [o' c]. cbn [Emitter.called] in IH.
      destruct IH as (Hthrow & Hret & Hexit).
      split; [exact Hthrow|]. split.
      * intros Hc. rewrite (Hret Hc), <- app_assoc. reflexivity.
      * intros code Hc. destruct (Hexit code Hc) as [n Hn].
        exists (Datatypes.S n). rewrite Hn, <- app_assoc. reflexivity.
    + match goal with
      | |- context [emit_loop event rest args ?o1] => specialize (IH o1)
      end.
      destruct (emit_loop _ _ _ _) as [o' c]. cbn [Emitter.called] in IH.
      destruct IH as (Hthrow & Hret & Hexit).
      split; [exact Hthrow|]. split.
      * intros Hc. rewrite (Hret Hc), <- app_assoc. reflexivity.
      * intros code' Hc. destruct (Hexit code' Hc) as [n Hn].
        exists (Datatypes.S n). rewrite Hn, <- app_assoc. reflexivity.
    + split; [discriminate|]. split; [discriminate|].
      intros code' _. exists 1%nat. cbn. rewrite take_0. reflexivity.
Qed.

(** When no callback exits the process, the loop returns. *)
Lemma emit_loop_returns (event : string) (args : list Arg)
    (callbacks : list Emitter.Callback) :
  (forall callback h, In callback callbacks ->
                      exited (snd (callback_effect react callback args h)) = false) ->
  forall o : Emitter.Observed User,
    snd (emit_loop event callbacks args o) = Returned tt.
Proof.
  induction callbacks as [|callback rest IH]; intros Hstay o; [reflexivity|].
  rewrite emit_loop_turn. cbv zeta. rewrite invoke_effect.
  pose proof (Hstay callback (Emitter.heap o) (or_introl eq_refl)) as Hcb.
  assert (Hrest : forall callback h, In callback rest ->
            exited (snd (callback_effect react callback args h)) = false)
    by (intros cb h Hin; apply Hstay; right; exact Hin).
  destruct (callback_effect react callback args (Emitter.heap o))
    as [h' [[]|err|code]].
  - apply IH. exact Hrest.
  - apply IH. exact Hrest.
  - discriminate Hcb.
Qed.


Section Bus.
Context {Data Program : Type}.
Variable bus_react : nat -> list Data -> M (EventBus.Heap Program) unit.

(** The calls of the emitter of the platform stop at the first listener
    that throws. *)
Lemma call_listeners_delivers (args : list Data) (listeners : list nat) :
  forall h : EventBus.Heap Program,
    delivered_until_throw bus_react args listeners h
      (EventBus.call_listeners bus_react listeners args h).
Proof.
  induction listeners as [|listener rest IH]; intros h.
  - cbn. constructor.
  - cbn [EventBus.call_listeners]. unfold bind.
    destruct (bus_react listener args h) as [h1 [[]|e|code]] eqn:Hcall.
    + eapply bus_returned; [exact Hcall | apply IH].
    + eapply bus_threw. exact Hcall.
    + eapply bus_exited. exact Hcall.
Qed.

(** C8 (amended): [emit] of [core/EventEmitter.ts] calls all the callbacks
    that are registered for the event when it is called, in registration
    order, before it returns, each on the heap that the one before it left;
    what a callback raises is caught and printed: it reaches neither the
    caller of [emit], which never throws, nor the callbacks that follow,
    which are still called.  [emit] of the bus of [core/events.ts] calls
    the listeners of the event in registration order until one of them
    throws: what it threw is thrown by [emit], and the listeners after it
    are not called. *)
Theorem emit_runs_all_listeners_in_order (event : string) (args : list Arg)
    (o : Emitter.Observed User) :
  let registered := default [] (Emitter.events (Emitter.heap o) !! event) in
  (let '(o', c) := emit event args o in
   delivered_to_all react event args registered (Emitter.heap o) (Emitter.heap o', c)
   /\ (forall e, c <> Threw e)
   /\ (c = Returned tt -> Emitter.called o' = Emitter.called o ++ registered)
   /\ ((forall callback h,
          In callback registered ->
          exited (snd (callback_effect react callback args h)) = false) ->
       c = Returned tt))
  /\ (forall (callback : Emitter.Callback) (h : Emitter.Heap User),
         Emitter.events (fst (Emitter.on event callback h)) !! event
         = Some (default [] (Emitter.events h !! event) ++ [callback]))
  /\ (forall (kind : EventBus.EventType) (data : Data) (h : EventBus.Heap Program),
         delivered_until_throw bus_react [data] (EventBus.registered h kind) h
           (EventBus.emit bus_react kind data h))
  /\ (forall (kind : EventBus.EventType) (listener : nat) (h : EventBus.Heap Program),
         EventBus.registered (fst (EventBus.on kind listener h)) kind
         = EventBus.registered h kind ++ [listener]).
Proof.
  intros registered. subst registered.
  split; [|split; [intros callback h; apply on_appends|split]].
  - unfold Emitter.emit, bind, get_state.
    destruct (Emitter.events (Emitter.heap o) !! event) as [callbacks|] eqn:Hevent.
    + cbn [default].
      pose proof (emit_loop_delivers event args callbacks o) as Hdelivers.
      pose proof (emit_loop_calls_all event args callbacks o) as Hall.
      pose proof (emit_loop_returns event args callbacks) as Hreturns.
      destruct (emit_loop event callbacks args o) as [o' c] eqn:Hloop.
      destruct Hall as (Hthrow & Hret & _).
      split; [exact Hdelivers|]. split; [exact Hthrow|]. split; [exact Hret|].
      intros Hstay. specialize (Hreturns Hstay o).
      rewrite Hloop in Hreturns. exact Hreturns.
    + cbn [default ret]. split; [constructor|]. split; [discriminate|].
      split; [intros _; symmetry; apply app_nil_r | reflexivity].
  - intros kind data h. unfold EventBus.emit, bind, get_state.
    apply call_listeners_delivers.
  - intros kind listener h. unfold EventBus.on, modify_state. cbn.
    destruct (decide (kind = kind)) as [_|Hne]; [reflexivity | congruence].
Qed.

End Bus.

End Emission.

Example emit_three_listeners :
  let '(o', c) :=
    Emitter.emit example_react "trade:complete" ["result"]
      {| Emitter.heap := three_listeners; Emitter.called := [] |} in
  c = Returned tt
  /\ Emitter.called o'
     = [Emitter.Listener 1; Emitter.Listener 2;
        Emitter.OnceCallback 0 "trade:complete" (Emitter.Listener 3)]
  /\ Emitter.user (Emitter.heap o') = [1; 3]%nat
  /\ Emitter.console (Emitter.heap o')
     = [Emitter.ListenerError "trade:complete" (ErrorObject "listener failed")]
  /\ Emitter.listenerCount "trade:complete" (Emitter.heap o') = 2%nat.
Proof. vm_compute. repeat split; reflexivity. Qed.

(** The theorem at three listeners, the second of which throws: on the
    emitter of [core/EventEmitter.ts] all three are called and the call
    returns; on the bus the call throws. *)
Lemma emit_runs_all_listeners_in_order_witness :
  let o := {| Emitter.heap := three_listeners; Emitter.called := [] |} in
  snd (Emitter.emit example_react "trade:complete" ["result"] o) = Returned tt
  /\ Emitter.called (fst (Emitter.emit example_react "trade:complete" ["result"] o))
     = [Emitter.Listener 1; Emitter.Listener 2;
        Emitter.OnceCallback 0 "trade:complete" (Emitter.Listener 3)]
  /\ delivered_until_throw bus_react ["result"] [1; 2; 3]%nat three_bus_listeners
       (EventBus.emit bus_react EventBus.TRADE_COMPLETE "result" three_bus_listeners).
Proof.
  intros o.
  pose proof (emit_runs_all_listeners_in_order example_react bus_react
                "trade:complete" ["result"] o) as H.
  cbv zeta in H.
  destruct H as (Hemit & _ & Hbus & _).
  split; [|split].
  - destruct (Emitter.emit example_react "trade:complete" ["result"] o) as [o' c].
    destruct Hemit as (_ & _ & _ & Hreturns). cbn [snd].
    apply Hreturns. intros callback h Hin.
    vm_compute in Hin.
    destruct Hin as [<-|[<-|[<-|[]]]]; cbn;
      unfold bind, Emitter.off, modify_state, example_react; cbn; reflexivity.
  - destruct (Emitter.emit example_react "trade:complete" ["result"] o) as [o' c] eqn:He.
    destruct Hemit as (_ & _ & Hcalled & Hreturns). cbn [fst].
    rewrite Hcalled; [vm_compute; reflexivity|].
    apply Hreturns. intros callback h Hin.
    vm_compute in Hin.
    destruct Hin as [<-|[<-|[<-|[]]]]; cbn;
      unfold bind, Emitter.off, modify_state, example_react; cbn; reflexivity.
  - exact (Hbus EventBus.TRADE_COMPLETE "result" three_bus_listeners).
Defined.

(** C8, as stated, fails on the bus: of three listeners the second throws;
    its error is thrown by [emit], and the third listener is not called. *)
Lemma bus_listener_error_reaches_the_emitter :
  let '(h', c) :=
    EventBus.emit bus_react EventBus.TRADE_COMPLETE "result" three_bus_listeners in
  EventBus.registered three_bus_listeners EventBus.TRADE_COMPLETE = [1; 2; 3]%nat
  /\ c = Threw (ErrorObject "listener failed")
  /\ EventBus.user h' = [1]%nat.
Proof. vm_compute. repeat split; reflexivity. Qed.

(** ** The plugins of the application *)

Ltac unfold_app :=
  unfold bind, try_catch, lift, ret, complete, get_state, modify_state,
    App.invoked, App.eventBus_emit, App.print, App.set_isRunning.

Section Plugins.
Variable subscribers : App.Subscribers.

(** The loop of [start], whatever the subscribers do.  The plugins are
    called in the order of the map; the error of a plugin that was called
    is reported on the bus; the loop ends early only by what a subscriber of
    the error event throws. *)
Lemma start_loop_general (entries : list (string * App.Plugin)) :
  forall w : App.World,
    let '(w', c) := App.start_loop subscribers entries w in
    App.plugins w' = App.plugins w
    /\ App.isRunning w' = App.isRunning w
    /\ (exists new, App.emitted w' = App.emitted w ++ new)
    /\ exists n,
         App.invocations w' = App.invocations w ++ map called_start (take n entries)
         /\ (forall name plugin e,
               In (name, plugin) (take n entries) -> App.start plugin = inl e ->
               In (App.PLUGIN_ERROR name (describe e)) (App.emitted w'))
         /\ match c with
            | Returned _ => n = length entries
            | Threw e =>
                exists history name message,
                  subscribers history (App.PLUGIN_ERROR name message) = inl e
            | Exited _ => False
            end.
Proof.
  induction entries as [|[name plugin] entries IH]; intros w.
  - cbn. split; [reflexivity|]. split; [reflexivity|].
    split; [exists []; symmetry; apply app_nil_r|].
    exists 0%nat. cbn. rewrite app_nil_r. split; [reflexivity|].
    split; [intros ? ? ? []|reflexivity].
  - cbn [App.start_loop]. unfold_app. cbn.
    destruct (App.start plugin) as [e|[]] eqn:Hstart; cbn.
    + destruct (subscribers (App.emitted w) (App.PLUGIN_ERROR name (describe e)))
        as [e2|[]] eqn:Hsub; cbn.
      * split; [reflexivity|]. split; [reflexivity|].
        split; [eexists; reflexivity|].
        exists 1%nat. cbn. rewrite take_0. cbn.
        split; [reflexivity|]. split.
        -- intros name' plugin' e' [Heq|[]] Hstart'. injection Heq as <- <-.
           rewrite Hstart in Hstart'. injection Hstart' as <-.
           apply in_or_app. right. left. reflexivity.
        -- eauto.
      * match goal with
        | |- context [App.start_loop subscribers entries ?w1] => specialize (IH w1)
        end.
        destruct (App.start_loop subscribers entries _) as [w' c]. cbn in IH.
        destruct IH as (Hp & Hr & [new Hnew] & n & Hcalls & Hreported & Hc).
        split; [exact Hp|]. split; [exact Hr|].
        split; [eexists; rewrite Hnew, <- app_assoc; reflexivity|].
        exists (S n). cbn [take map].
        split; [rewrite Hcalls, <- app_assoc; reflexivity|]. split.
        -- intros name' plugin' e' [Heq|Hin] Hstart'.
           ++ injection Heq as <- <-. rewrite Hstart in Hstart'. injection Hstart' as <-.
              rewrite Hnew. apply in_or_app. left. apply in_or_app. right.
              left. reflexivity.
           ++ exact (Hreported name' plugin' e' Hin Hstart').
        -- destruct c as [[]|e3|code]; [cbn; congruence | exact Hc | exact Hc].
    + destruct (subscribers (App.emitted w) (App.PLUGIN_STARTED name))
        as [e2|[]] eqn:Hsub; cbn.
      * destruct (subscribers (App.emitted w ++ [App.PLUGIN_STARTED name])
                    (App.PLUGIN_ERROR name (describe e2))) as [e3|[]] eqn:Hsub'; cbn.
        -- split; [reflexivity|]. split; [reflexivity|].
           split; [eexists; rewrite <- app_assoc; reflexivity|].
           exists 1%nat. cbn. rewrite take_0. cbn.
           split; [reflexivity|]. split.
           ++ intros name' plugin' e' [Heq|[]] Hstart'. injection Heq as <- <-.
              rewrite Hstart in Hstart'. discriminate Hstart'.
           ++ eauto.
        -- match goal with
           | |- context [App.start_loop subscribers entries ?w1] => specialize (IH w1)
           end.
           destruct (App.start_loop subscribers entries _) as [w' c]. cbn in IH.
           destruct IH as (Hp & Hr & [new Hnew] & n & Hcalls & Hreported & Hc).
           split; [exact Hp|]. split; [exact Hr|].
           split; [eexists; rewrite Hnew, <- !app_assoc; reflexivity|].
           exists (S n). cbn [take map].
           split; [rewrite Hcalls, <- app_assoc; reflexivity|]. split.
           ++ intros name' plugin' e' [Heq|Hin] Hstart'.
              ** injection Heq as <- <-. rewrite Hstart in Hstart'. discriminate Hstart'.
              ** exact (Hreported name' plugin' e' Hin Hstart').
           ++ destruct c as [[]|e4|code]; [cbn; congruence | exact Hc | exact Hc].
      * match goal with
        | |- context [App.start_loop subscribers entries ?w1] => specialize (IH w1)
        end.
        destruct (App.start_loop subscribers entries _) as [w' c]. cbn in IH.
        destruct IH as (Hp & Hr & [new Hnew] & n & Hcalls & Hreported & Hc).
        split; [exact Hp|]. split; [exact Hr|].
        split; [eexists; rewrite Hnew, <- app_assoc; reflexivity|].
        exists (S n). cbn [take map].
        split; [rewrite Hcalls, <- app_assoc; reflexivity|]. split.
        -- intros name' plugin' e' [Heq|Hin] Hstart'.
           ++ injection Heq as <- <-. rewrite Hstart in Hstart'. discriminate Hstart'.
           ++ exact (Hreported name' plugin' e' Hin Hstart').
        -- destruct c as [[]|e3|code]; [cbn; congruence | exact Hc | exact Hc].
Qed.

(** The loop of [stop], likewise. *)
Lemma stop_loop_general (entries : list (string * App.Plugin)) :
  forall w : App.World,
    let '(w', c) := App.stop_loop subscribers entries w in
    App.plugins w' = App.plugins w
    /\ App.isRunning w' = App.isRunning w
    /\ (exists new, App.emitted w' = App.emitted w ++ new)
    /\ exists n,
         App.invocations w' = App.invocations w ++ map called_stop (take n entries)
         /\ (forall name plugin e,
               In (name, plugin) (take n entries) -> App.stop plugin = inl e ->
               In (App.PLUGIN_ERROR name (describe e)) (App.emitted w'))
         /\ match c with
            | Returned _ => n = length entries
            | Threw e =>
                exists history name message,
                  subscribers history (App.PLUGIN_ERROR name message) = inl e
            | Exited _ => False
            end.
Proof.
  induction entries as [|[name plugin] entries IH]; intros w.
  - cbn. split; [reflexivity|]. split; [reflexivity|].
    split; [exists []; symmetry; apply app_nil_r|].
    exists 0%nat. cbn. rewrite app_nil_r. split; [reflexivity|].
    split; [intros ? ? ? []|reflexivity].
  - cbn [App.stop_loop]. unfold_app. cbn.
    destruct (App.stop plugin) as [e|[]] eqn:Hstop; cbn.
    + destruct (subscribers (App.emitted w) (App.PLUGIN_ERROR name (describe e)))
        as [e2|[]] eqn:Hsub; cbn.
      * split; [reflexivity|]. split; [reflexivity|].
        split; [eexists; reflexivity|].
        exists 1%nat. cbn. rewrite take_0. cbn.
        split; [reflexivity|]. split.
        -- intros name' plugin' e' [Heq|[]] Hstop'. injection Heq as <- <-.
           rewrite Hstop in Hstop'. injection Hstop' as <-.
           apply in_or_app. right. left. reflexivity.
        -- eauto.
      * match goal with
        | |- context [App.stop_loop subscribers entries ?w1] => specialize (IH w1)
        end.
        destruct (App.stop_loop subscribers entries _) as [w' c]. cbn in IH.
        destruct IH as (Hp & Hr & [new Hnew] & n & Hcalls & Hreported & Hc).
        split; [exact Hp|]. split; [exact Hr|].
        split; [eexists; rewrite Hnew, <- app_assoc; reflexivity|].
        exists (S n). cbn [take map].
        split; [rewrite Hcalls, <- app_assoc; reflexivity|]. split.
        -- intros name' plugin' e' [Heq|Hin] Hstop'.
           ++ injection Heq as <- <-. rewrite Hstop in Hstop'. injection Hstop' as <-.
              rewrite Hnew. apply in_or_app. left. apply in_or_app. right.
              left. reflexivity.
           ++ exact (Hreported name' plugin' e' Hin Hstop').
        -- destruct c as [[]|e3|code]; [cbn; congruence | exact Hc | exact Hc].
    + destruct (subscribers (App.emitted w) (App.PLUGIN_STOPPED name))
        as [e2|[]] eqn:Hsub; cbn.
      * destruct (subscribers (App.emitted w ++ [App.PLUGIN_STOPPED name])
                    (App.PLUGIN_ERROR name (describe e2))) as [e3|[]] eqn:Hsub'; cbn.
        -- split; [reflexivity|]. split; [reflexivity|].
           split; [eexists; rewrite <- app_assoc; reflexivity|].
           exists 1%nat. cbn. rewrite take_0. cbn.
           split; [reflexivity|]. split.
           ++ intros name' plugin' e' [Heq|[]] Hstop'. injection Heq as <- <-.
              rewrite Hstop in Hstop'. discriminate Hstop'.
           ++ eauto.
        -- match goal with
           | |- context [App.stop_loop subscribers entries ?w1] => specialize (IH w1)
           end.
           destruct (App.stop_loop subscribers entries _) as [w' c]. cbn in IH.
           destruct IH as (Hp & Hr & [new Hnew] & n & Hcalls & Hreported & Hc).
           split; [exact Hp|]. split; [exact Hr|].
           split; [eexists; rewrite Hnew, <- !app_assoc; reflexivity|].
           exists (S n). cbn [take map].
           split; [rewrite Hcalls, <- app_assoc; reflexivity|]. split.
           ++ intros name' plugin' e' [Heq|Hin] Hstop'.
              ** injection Heq as <- <-. rewrite Hstop in Hstop'. discriminate Hstop'.
              ** exact (Hreported name' plugin' e' Hin Hstop').
           ++ destruct c as [[]|e4|code]; [cbn; congruence | exact Hc | exact Hc].
      * match goal with
        | |- context [App.stop_loop subscribers entries ?w1] => specialize (IH w1)
        end.
        destruct (App.stop_loop subscribers entries _) as [w' c]. cbn in IH.
        destruct IH as (Hp & Hr & [new Hnew] & n & Hcalls & Hreported & Hc).
        split; [exact Hp|]. split; [exact Hr|].
        split; [eexists; rewrite Hnew, <- app_assoc; reflexivity|].
        exists (S n). cbn [take map].
        split; [rewrite Hcalls, <- app_assoc; reflexivity|]. split.
        -- intros name' plugin' e' [Heq|Hin] Hstop'.
           ++ injection Heq as <- <-. rewrite Hstop in Hstop'. discriminate Hstop'.
           ++ exact (Hreported name' plugin' e' Hin Hstop').
        -- destruct c as [[]|e3|code]; [cbn; congruence | exact Hc | exact Hc].
Qed.


(** [start] on an application that is not running, whatever the
    subscribers do. *)
Lemma start_general (w : App.World) :
  App.isRunning w = false ->
  let '(w', c) := App.Application_start subscribers w in
  App.plugins w' = App.plugins w
  /\ exists n,
       App.invocations w'
       = App.invocations w ++ map called_start (take n (App.plugins w))
       /\ (forall name plugin e,
             In (name, plugin) (take n (App.plugins w)) -> App.start plugin = inl e ->
             In (App.PLUGIN_ERROR name (describe e)) (App.emitted w'))
       /\ (c = Returned tt -> n = length (App.plugins w) /\ App.isRunning w' = true)
       /\ (forall e, c = Threw e -> exists history event, subscribers history event = inl e)
       /\ exited c = false.
Proof.
  intros Hoff. unfold App.Application_start. unfold_app. rewrite Hoff. cbn.
  match goal with
  | |- context [App.start_loop subscribers ?es ?w1] =>
      pose proof (start_loop_general es w1) as H
  end.
  destruct (App.start_loop subscribers _ _) as [w1 c1]. cbn in H.
  destruct H as (Hp & Hr & [new Hnew] & n & Hcalls & Hreported & Hc).
  destruct c1 as [[]|e|code]; cbn.
  - destruct (subscribers (App.emitted w1) App.SYSTEM_READY) as [e|[]] eqn:Hsub; cbn.
    + split; [exact Hp|]. exists n. split; [exact Hcalls|]. split.
      * intros name plugin e' Hin Hstart. apply in_or_app. left.
        exact (Hreported name plugin e' Hin Hstart).
      * split; [discriminate|]. split; [|reflexivity].
        intros e' He. injection He as <-. eauto.
    + split; [exact Hp|]. exists n. split; [exact Hcalls|]. split.
      * intros name plugin e' Hin Hstart. apply in_or_app. left.
        exact (Hreported name plugin e' Hin Hstart).
      * split; [intros _; split; [exact Hc | reflexivity]|].
        split; [discriminate | reflexivity].
  - split; [exact Hp|]. exists n. split; [exact Hcalls|].
    split; [exact Hreported|]. split; [discriminate|]. split; [|reflexivity].
    intros e' He. injection He as <-.
    destruct Hc as (history & name & message & Hsub). eauto.
  - contradiction.
Qed.

Lemma stop_general (w : App.World) :
  App.isRunning w = true ->
  let '(w', c) := App.Application_stop subscribers w in
  App.plugins w' = App.plugins w
  /\ exists n,
       App.invocations w'
       = App.invocations w ++ map called_stop (take n (App.plugins w))
       /\ (forall name plugin e,
             In (name, plugin) (take n (App.plugins w)) -> App.stop plugin = inl e ->
             In (App.PLUGIN_ERROR name (describe e)) (App.emitted w'))
       /\ (c = Returned tt -> n = length (App.plugins w) /\ App.isRunning w' = false)
       /\ (forall e, c = Threw e -> exists history event, subscribers history event = inl e)
       /\ exited c = false.
Proof.
  intros Hon. unfold App.Application_stop. unfold_app. rewrite Hon. cbn.
  match goal with
  | |- context [App.stop_loop subscribers ?es ?w1] =>
      pose proof (stop_loop_general es w1) as H
  end.
  destruct (App.stop_loop subscribers _ _) as [w1 c1]. cbn in H.
  destruct H as (Hp & Hr & [new Hnew] & n & Hcalls & Hreported & Hc).
  destruct c1 as [[]|e|code]; cbn.
  - destruct (subscribers (App.emitted w1) App.SYSTEM_SHUTDOWN) as [e|[]] eqn:Hsub; cbn.
    + split; [exact Hp|]. exists n. split; [exact Hcalls|]. split.
      * intros name plugin e' Hin Hstop. apply in_or_app. left.
        exact (Hreported name plugin e' Hin Hstop).
      * split; [discriminate|]. split; [|reflexivity].
        intros e' He. injection He as <-. eauto.
    + split; [exact Hp|]. exists n. split; [exact Hcalls|]. split.
      * intros name plugin e' Hin Hstop. apply in_or_app. left.
        exact (Hreported name plugin e' Hin Hstop).
      * split; [intros _; split; [exact Hc | reflexivity]|].
        split; [discriminate | reflexivity].
  - split; [exact Hp|]. exists n. split; [exact Hcalls|].
    split; [exact Hreported|]. split; [discriminate|]. split; [|reflexivity].
    intros e' He. injection He as <-.
    destruct Hc as (history & name & message & Hsub). eauto.
  - contradiction.
Qed.

Section QuietSubscribers.
Hypothesis quiet : subscribers_quiet subscribers.

(** With subscribers that do not throw, the loop of [start] returns, calls
    [start] on every plugin in the order of the map, and emits one event for
    each of them: started, or the error with the plugin's name. *)
Lemma start_loop_all (entries : list (string * App.Plugin)) :
  forall w : App.World,
    let '(w', c) := App.start_loop subscribers entries w in
    c = Returned tt
    /\ App.plugins w' = App.plugins w
    /\ App.isRunning w' = App.isRunning w
    /\ App.invocations w' = App.invocations w ++ map called_start entries
    /\ App.emitted w' = App.emitted w ++ map start_event entries.
Proof.
  induction entries as [|[name plugin] entries IH]; intros w.
  - cbn. rewrite !app_nil_r. repeat split; reflexivity.
  - cbn [App.start_loop]. unfold_app. cbn.
    destruct (App.start plugin) as [e|[]] eqn:Hstart; cbn; rewrite quiet; cbn;
      match goal with
      | |- context [App.start_loop subscribers entries ?w1] => specialize (IH w1)
      end;
      destruct (App.start_loop subscribers entries _) as [w' c];
      cbn in IH; destruct IH as (Hc & Hp & Hr & Hi & He);
      unfold start_event; cbn [fst snd]; rewrite Hstart;
      rewrite Hi, He, <- !app_assoc; repeat split; assumption.
Qed.

Lemma stop_loop_all (entries : list (string * App.Plugin)) :
  forall w : App.World,
    let '(w', c) := App.stop_loop subscribers entries w in
    c = Returned tt
    /\ App.plugins w' = App.plugins w
    /\ App.isRunning w' = App.isRunning w
    /\ App.invocations w' = App.invocations w ++ map called_stop entries
    /\ App.emitted w' = App.emitted w ++ map stop_event entries.
Proof.
  induction entries as [|[name plugin] entries IH]; intros w.
  - cbn. rewrite !app_nil_r. repeat split; reflexivity.
  - cbn [App.stop_loop]. unfold_app. cbn.
    destruct (App.stop plugin) as [e|[]] eqn:Hstop; cbn; rewrite quiet; cbn;
      match goal with
      | |- context [App.stop_loop subscribers entries ?w1] => specialize (IH w1)
      end;
      destruct (App.stop_loop subscribers entries _) as [w' c];
      cbn in IH; destruct IH as (Hc & Hp & Hr & Hi & He);
      unfold stop_event; cbn [fst snd]; rewrite Hstop;
      rewrite Hi, He, <- !app_assoc; repeat split; assumption.
Qed.

(** [start] on an application that is not running, and [stop] on one that
    is, with subscribers that do not throw. *)
Lemma start_effect (w : App.World) :
  App.isRunning w = false ->
  let '(w', c) := App.Application_start subscribers w in
  c = Returned tt
  /\ App.isRunning w' = true
  /\ App.plugins w' = App.plugins w
  /\ App.invocations w' = App.invocations w ++ map called_start (App.plugins w)
  /\ App.emitted w'
     = App.emitted w ++ map start_event (App.plugins w) ++ [App.SYSTEM_READY].
Proof.
  intros Hoff. unfold App.Application_start. unfold_app. rewrite Hoff. cbn.
  match goal with
  | |- context [App.start_loop subscribers ?es ?w1] =>
      pose proof (start_loop_all es w1) as H
  end.
  destruct (App.start_loop subscribers _ _) as [w1 c1]. cbn in H.
  destruct H as (-> & Hp & Hr & Hi & He). cbn. rewrite quiet. cbn.
  rewrite Hi, He, <- app_assoc. repeat split. exact Hp.
Qed.

Lemma stop_effect (w : App.World) :
  App.isRunning w = true ->
  let '(w', c) := App.Application_stop subscribers w in
  c = Returned tt
  /\ App.isRunning w' = false
  /\ App.plugins w' = App.plugins w
  /\ App.invocations w' = App.invocations w ++ map called_stop (App.plugins w)
  /\ App.emitted w'
     = App.emitted w ++ map stop_event (App.plugins w) ++ [App.SYSTEM_SHUTDOWN].
Proof.
  intros Hon. unfold App.Application_stop. unfold_app. rewrite Hon. cbn.
  match goal with
  | |- context [App.stop_loop subscribers ?es ?w1] =>
      pose proof (stop_loop_all es w1) as H
  end.
  destruct (App.stop_loop subscribers _ _) as [w1 c1]. cbn in H.
  destruct H as (-> & Hp & Hr & Hi & He). cbn. rewrite quiet. cbn.
  rewrite Hi, He, <- app_assoc. repeat split. exact Hp.
Qed.

End QuietSubscribers.

Lemma reported_start (entries : list (string * App.Plugin)) name plugin e :
  In (name, plugin) entries -> App.start plugin = inl e ->
  In (App.PLUGIN_ERROR name (describe e)) (map start_event entries).
Proof.
  intros Hin Hstart. apply (in_map start_event) in Hin.
  unfold start_event in Hin at 1. cbn [fst snd] in Hin. rewrite Hstart in Hin.
  exact Hin.
Qed.

Lemma reported_stop (entries : list (string * App.Plugin)) name plugin e :
  In (name, plugin) entries -> App.stop plugin = inl e ->
  In (App.PLUGIN_ERROR name (describe e)) (map stop_event entries).
Proof.
  intros Hin Hstop. apply (in_map stop_event) in Hin.
  unfold stop_event in Hin at 1. cbn [fst snd] in Hin. rewrite Hstop in Hin.
  exact Hin.
Qed.

(** C9 (amended): [Application.start], on an application that is not
    running, and [Application.stop], on one that is, call [start] (or
    [stop]) on the registered plugins in the order of registration.  What a
    plugin throws is caught and reported on the bus, by the error event with
    the name of the plugin and the description of the error; the only error
    that leaves [start] or [stop] is one thrown by a subscriber of the bus.
    With subscribers that do not throw, the call returns and every
    registered plugin has been called, whatever the plugins before it
    did. *)
Theorem plugin_failures_are_isolated (w : App.World) :
  (App.isRunning w = false ->
   let '(w', c) := App.Application_start subscribers w in
   (exists n,
      App.invocations w'
      = App.invocations w ++ map called_start (take n (App.plugins w))
      /\ (forall name plugin e,
            In (name, plugin) (take n (App.plugins w)) -> App.start plugin = inl e ->
            In (App.PLUGIN_ERROR name (describe e)) (App.emitted w'))
      /\ (c = Returned tt -> n = length (App.plugins w) /\ App.isRunning w' = true)
      /\ (forall e, c = Threw e ->
            exists history event, subscribers history event = inl e))
   /\ (subscribers_quiet subscribers ->
       c = Returned tt
       /\ App.isRunning w' = true
       /\ App.invocations w' = App.invocations w ++ map called_start (App.plugins w)
       /\ App.emitted w'
          = App.emitted w ++ map start_event (App.plugins w) ++ [App.SYSTEM_READY]
       /\ forall name plugin e,
            In (name, plugin) (App.plugins w) -> App.start plugin = inl e ->
            In (App.PLUGIN_ERROR name (describe e)) (App.emitted w')))
  /\
  (App.isRunning w = true ->
   let '(w', c) := App.Application_stop subscribers w in
   (exists n,
      App.invocations w'
      = App.invocations w ++ map called_stop (take n (App.plugins w))
      /\ (forall name plugin e,
            In (name, plugin) (take n (App.plugins w)) -> App.stop plugin = inl e ->
            In (App.PLUGIN_ERROR name (describe e)) (App.emitted w'))
      /\ (c = Returned tt -> n = length (App.plugins w) /\ App.isRunning w' = false)
      /\ (forall e, c = Threw e ->
            exists history event, subscribers history event = inl e))
   /\ (subscribers_quiet subscribers ->
       c = Returned tt
       /\ App.isRunning w' = false
       /\ App.invocations w' = App.invocations w ++ map called_stop (App.plugins w)
       /\ App.emitted w'
          = App.emitted w ++ map stop_event (App.plugins w) ++ [App.SYSTEM_SHUTDOWN]
       /\ forall name plugin e,
            In (name, plugin) (App.plugins w) -> App.stop plugin = inl e ->
            In (App.PLUGIN_ERROR name (describe e)) (App.emitted w'))).
Proof.
  split.
  - intros Hoff.
    pose proof (start_general w Hoff) as Hgeneral.
    pose proof (fun quiet => start_effect quiet w Hoff) as Hquiet.
    destruct (App.Application_start subscribers w) as [w' c].
    split.
    { destruct Hgeneral as (_ & n & Hcalls & Hreported & Hreturned & Hthrown & _).
      exists n. split; [exact Hcalls|]. split; [exact Hreported|].
      split; [exact Hreturned | exact Hthrown]. }
    intros quiet. destruct (Hquiet quiet) as (Hc & Hrun & _ & Hcalls & Hemitted).
    split; [exact Hc|]. split; [exact Hrun|]. split; [exact Hcalls|].
    split; [exact Hemitted|].
    intros name plugin e Hin Hstart. rewrite Hemitted.
    apply in_or_app. right. apply in_or_app. left.
    exact (reported_start _ name plugin e Hin Hstart).
  - intros Hon.
    pose proof (stop_general w Hon) as Hgeneral.
    pose proof (fun quiet => stop_effect quiet w Hon) as Hquiet.
    destruct (App.Application_stop subscribers w) as [w' c].
    split.
    { destruct Hgeneral as (_ & n & Hcalls & Hreported & Hreturned & Hthrown & _).
      exists n. split; [exact Hcalls|]. split; [exact Hreported|].
      split; [exact Hreturned | exact Hthrown]. }
    intros quiet. destruct (Hquiet quiet) as (Hc & Hrun & _ & Hcalls & Hemitted).
    split; [exact Hc|]. split; [exact Hrun|]. split; [exact Hcalls|].
    split; [exact Hemitted|].
    intros name plugin e Hin Hstop. rewrite Hemitted.
    apply in_or_app. right. apply in_or_app. left.
    exact (reported_stop _ name plugin e Hin Hstop).
Qed.

End Plugins.

Lemma no_subscribers_quiet : subscribers_quiet no_subscribers.
Proof. intros history e. reflexivity. Qed.

(** The theorem at three plugins, the second of which fails to start and to
    stop, on a bus without subscribers. *)
Lemma plugin_failures_are_isolated_witness :
  let '(started, c) := App.Application_start no_subscribers three_plugins in
  c = Returned tt
  /\ App.invocations started
     = App.invocations three_plugins
       ++ [App.CalledStart "logger"; App.CalledStart "telegram";
           App.CalledStart "metrics"]
  /\ In (App.PLUGIN_ERROR "telegram" "port in use") (App.emitted started)
  /\ let '(stopped, c') := App.Application_stop no_subscribers started in
     c' = Returned tt
     /\ App.invocations stopped
        = App.invocations started
          ++ [App.CalledStop "logger"; App.CalledStop "telegram";
              App.CalledStop "metrics"]
     /\ In (App.PLUGIN_ERROR "telegram" "not started") (App.emitted stopped).
Proof.
  pose proof (proj1 (plugin_failures_are_isolated no_subscribers three_plugins) eq_refl)
    as Hstart.
  destruct (App.Application_start no_subscribers three_plugins) as [started c] eqn:Erun.
  destruct Hstart as [_ Hstart].
  destruct (Hstart no_subscribers_quiet) as (Hc & Hrunning & Hcalls & _ & Herr).
  split; [exact Hc|]. split; [exact Hcalls|].
  split.
  { apply (Herr "telegram" (plugin "telegram" true) (ErrorObject "port in use"));
      [vm_compute; tauto | reflexivity]. }
  pose proof (proj2 (plugin_failures_are_isolated no_subscribers started) Hrunning)
    as Hstop.
  destruct (App.Application_stop no_subscribers started) as [stopped c'].
  destruct Hstop as [_ Hstop].
  destruct (Hstop no_subscribers_quiet) as (Hc' & _ & Hcalls' & _ & Herr').
  assert (Hplugins : App.plugins started = App.plugins three_plugins).
  { vm_compute in Erun. injection Erun as <- _. reflexivity. }
  split; [exact Hc'|]. split.
  { rewrite Hcalls', Hplugins. reflexivity. }
  apply (Herr' "telegram" (plugin "telegram" true) (ThrownValue "not started"));
    [rewrite Hplugins; vm_compute; tauto | reflexivity].
Defined.

(** C9, as stated, fails: with a subscriber of the error event that throws,
    the failure of the second plugin to start is reported, the error of the
    subscriber leaves [start], and the third plugin is never started; the
    application is left not running. *)
Lemma subscriber_error_ends_the_start :
  let '(w', c) := App.Application_start alerting_subscriber three_plugins in
  c = Threw (ErrorObject "alert channel unavailable")
  /\ map fst (App.plugins w') = ["logger"; "telegram"; "metrics"]
  /\ App.invocations w'
     = App.invocations three_plugins
       ++ [App.CalledStart "logger"; App.CalledStart "telegram"]
  /\ ~ In (App.CalledStart "metrics") (App.invocations w')
  /\ App.isRunning w' = false.
Proof.
  vm_compute. split; [reflexivity|]. split; [reflexivity|]. split; [reflexivity|].
  split; [|reflexivity].
  intros H. repeat (destruct H as [H|H]; [discriminate H|]). exact H.
Qed.

(** ** The scenarios of the specification, evaluated *)

(** 100 units in, a quote of 101, a minimum of 0.5 %: the profit of 1 %
    clears the minimum, the trade line is printed and the side flips; the
    iteration is 1 and its status is 0. *)
Example pingpong_cycle_trades :
  CacheStrategies.PingPongStrategy_execute
    (example_outside (inr (Some {| routesInfos := Some [route_via "Orca" 101] |})))
    example_context (example_world true)
  = ({| CacheStrategies.cache :=
          CacheStrategies.set_sideBuy false
            (CacheStrategies.set_queue (<[1 := 0]> (<[1 := -1]> ∅))
               (CacheStrategies.set_availableRoutes
                  {| CacheStrategies.buy := 1; CacheStrategies.sell := 0 |}
                  (CacheStrategies.set_iteration 1 (example_cache true))));
        CacheStrategies.console :=
          [CacheStrategies.PingPongIteration "11/2/2026, 9:00:00 AM" 1 true (Fin 1) 1;
           CacheStrategies.TradeWouldBeExecuted (Fin 1)] |},
     Returned tt).
Proof. vm_compute. reflexivity. Qed.

(** The same quote with trading disabled: no trade line, the side stays. *)
Example pingpong_cycle_disabled :
  let '(w', c) :=
    CacheStrategies.PingPongStrategy_execute
      (example_outside (inr (Some {| routesInfos := Some [route_via "Orca" 101] |})))
      example_context (example_world false) in
  c = Returned tt
  /\ CacheStrategies.sideBuy (CacheStrategies.cache w') = true
  /\ CacheStrategies.console w'
     = [CacheStrategies.PingPongIteration "11/2/2026, 9:00:00 AM" 1 true (Fin 1) 1].
Proof. vm_compute. repeat split; reflexivity. Qed.

(** Four candidates for the arbitrage strategy: the best profit printed is
    that of the first route with the greatest output; with one candidate
    nothing is selected. *)
Example arbitrage_cycle_selects :
  CacheStrategies.console
    (fst (CacheStrategies.ArbitrageStrategy_execute
            (example_outside
               (inr (Some {| routesInfos :=
                               Some [route_via "Orca" 99; route_via "Raydium" 102;
                                     route_via "Meteora" 102; route_via "Lifinity" 100] |})))
            example_context (example_world true)))
  = [CacheStrategies.ArbitrageBest "11/2/2026, 9:00:00 AM" 1 (Fin 2) 4;
     CacheStrategies.ExecutingArbitrage (Fin 2)]
  /\ CacheStrategies.console
       (fst (CacheStrategies.ArbitrageStrategy_execute
               (example_outside
                  (inr (Some {| routesInfos := Some [route_via "Orca" 105] |})))
               example_context (example_world true)))
     = [CacheStrategies.NotEnoughRoutes].
Proof. vm_compute. split; reflexivity. Qed.

(** A successful call of [execute] of [strategies/pingpong.ts]: the
    direction flips, the trade is remembered, the result carries the
    signature. *)
Example api_call_succeeds :
  let '(w', c) := ApiPingPong.call good_call api_fresh in
  ApiPingPong.direction (ApiPingPong.this w') = ApiPingPong.pong
  /\ ApiPingPong.errorCount (ApiPingPong.this w') = 0
  /\ c = Returned
           {| success := true; inputAmount := Fin 100; outputAmount := Fin 101;
              profit := Fin 0; profitPercentage := Fin 0;
              fees := Some (Fin 0);
              txId := Some "5VERv8NMvzbJMEkV8xnrLkEaWRtSz9CosKDYjCJjBRnb";
              error := None; latency := Fin 250 |}.
Proof. vm_compute. repeat split; reflexivity. Qed.

(** A zero-route answer in [strategies/pingpong.ts] is an early return: no
    exit, and the error counter is not touched. *)
Example api_call_without_routes :
  let '(w', c) := ApiPingPong.call (api_call (inr (Some []))) api_fresh in
  ApiPingPong.errorCount (ApiPingPong.this w') = 0
  /\ ApiPingPong.console w' = []
  /\ c = Returned (ApiPingPong.failure (Fin 100) "No routes found" (Fin 250)).
Proof. vm_compute. repeat split; reflexivity. Qed.

(** A call of [execute] of [strategies/arbitrage.ts] whose swap is made:
    the conversion of the output amount throws, the call is counted as an
    error and returns the failure with the message of the conversion. *)
Example sdk_call_after_swap :
  let '(w', c) :=
    SdkArbitrage.call
      (sdk_call (inr (Some "5VERv8NMvzbJMEkV8xnrLkEaWRtSz9CosKDYjCJjBRnb")))
      sdk_fresh in
  SdkArbitrage.errorCount (SdkArbitrage.this w') = 1
  /\ c = Returned
           (SdkArbitrage.failure (Fin 100)
              "Convert JSBI instances to native numbers using `toNumber`." (Fin 250)).
Proof. vm_compute. split; reflexivity. Qed.

(** ** The registrations of the emitter *)

Section Registrations.
Context {Arg User : Type}.
Variable react : nat -> list Arg -> M (Emitter.Heap User) unit.
Implicit Types (h : Emitter.Heap User) (callback : Emitter.Callback)
  (callbacks : list Emitter.Callback) (event : string).

Lemma set_events_same h : Emitter.set_events (Emitter.events h) h = h.
Proof. destruct h. reflexivity. Qed.

Lemma indexOf_absent callbacks callback :
  ~ In callback callbacks -> Emitter.indexOf callbacks callback = None.
Proof.
  induction callbacks as [|c rest IH]; intros Hnot; [reflexivity|].
  cbn. destruct (decide (c = callback)) as [->|Hne].
  - exfalso. apply Hnot. left. reflexivity.
  - rewrite IH; [reflexivity|]. intros Hin. apply Hnot. right. exact Hin.
Qed.

(** [indexOf] finds the first occurrence, and [splice] takes it out. *)
Lemma indexOf_first (before after : list Emitter.Callback) callback :
  ~ In callback before ->
  Emitter.indexOf (before ++ callback :: after) callback = Some (length before)
  /\ Emitter.splice1 (before ++ callback :: after) (length before) = before ++ after.
Proof.
  induction before as [|c rest IH]; intros Hnot.
  - cbn. destruct (decide (callback = callback)); [split; reflexivity | congruence].
  - cbn. destruct (decide (c = callback)) as [->|Hne].
    + exfalso. apply Hnot. left. reflexivity.
    + destruct IH as [Hi Hs]; [intros Hin; apply Hnot; right; exact Hin|].
      rewrite Hi, Hs. split; reflexivity.
Qed.

(** The registrations after [off]. *)
Lemma off_events event callback h :
  Emitter.events (fst (Emitter.off event callback h))
  = match Emitter.events h !! event with
    | None => Emitter.events h
    | Some callbacks =>
        match Emitter.indexOf callbacks callback with
        | None => Emitter.events h
        | Some index =>
            match Emitter.splice1 callbacks index with
            | [] => delete event (Emitter.events h)
            | c :: rest => <[event := c :: rest]> (Emitter.events h)
            end
        end
    end.
Proof.
  unfold Emitter.off, modify_state. cbn.
  destruct (Emitter.events h !! event) as [callbacks|]; [|reflexivity].
  destruct (Emitter.indexOf callbacks callback) as [index|]; [|reflexivity].
  destruct (Emitter.splice1 callbacks index); reflexivity.
Qed.

Lemma off_rest event callback h :
  Emitter.onceCount (fst (Emitter.off event callback h)) = Emitter.onceCount h
  /\ Emitter.user (fst (Emitter.off event callback h)) = Emitter.user h
  /\ Emitter.console (fst (Emitter.off event callback h)) = Emitter.console h
  /\ snd (Emitter.off event callback h) = Returned tt.
Proof.
  unfold Emitter.off, modify_state. cbn.
  destruct (Emitter.events h !! event) as [callbacks|]; [|repeat split].
  destruct (Emitter.indexOf callbacks callback) as [index|]; [|repeat split].
  destruct (length _ =? 0)%nat; repeat split.
Qed.

Lemma heap_eq h h' :
  Emitter.events h' = Emitter.events h ->
  Emitter.onceCount h' = Emitter.onceCount h ->
  Emitter.user h' = Emitter.user h ->
  Emitter.console h' = Emitter.console h ->
  h' = h.
Proof. destruct h, h'. cbn. intros -> -> -> ->. reflexivity. Qed.

(** X1: [off(event, callback)] returns and takes out of the array of the
    event the first occurrence of the callback, and nothing else: the other
    events keep their arrays, the callbacks around it keep their order, an
    array that becomes empty is deleted from the map, and when the callback
    is not registered for the event the emitter is left as it was. *)
Theorem off_removes_first_occurrence event callback h :
  let h' := fst (Emitter.off event callback h) in
  snd (Emitter.off event callback h) = Returned tt
  /\ (forall other, other <> event ->
        Emitter.events h' !! other = Emitter.events h !! other)
  /\ (~ In callback (default [] (Emitter.events h !! event)) -> h' = h)
  /\ (forall before after,
        Emitter.events h !! event = Some (before ++ callback :: after) ->
        ~ In callback before ->
        Emitter.events h' !! event
        = match before ++ after with
          | [] => None
          | remaining => Some remaining
          end).
Proof.
  intros h'. subst h'.
  destruct (off_rest event callback h) as (Hcount & Huser & Hconsole & Hret).
  split; [exact Hret|].
  pose proof (off_events event callback h) as Hev.
  split; [|split].
  - intros other Hne. rewrite Hev.
    destruct (Emitter.events h !! event) as [callbacks|]; [|reflexivity].
    destruct (Emitter.indexOf callbacks callback) as [index|]; [|reflexivity].
    destruct (Emitter.splice1 callbacks index).
    + apply lookup_delete_ne. congruence.
    + apply lookup_insert_ne. congruence.
  - intros Hnot. apply heap_eq; try assumption. rewrite Hev.
    destruct (Emitter.events h !! event) as [callbacks|]; [|reflexivity].
    cbn in Hnot. rewrite (indexOf_absent _ _ Hnot). reflexivity.
  - intros before after Hreg Hnot. rewrite Hev, Hreg.
    destruct (indexOf_first before after callback Hnot) as [-> ->].
    destruct (before ++ after).
    + apply lookup_delete_eq.
    + apply lookup_insert_eq.
Qed.

Lemma no_empty_arrays_on event callback h :
  no_empty_arrays h -> no_empty_arrays (fst (Emitter.on event callback h)).
Proof.
  unfold no_empty_arrays, Emitter.on, modify_state. cbn. intros Hinv.
  apply map_Forall_insert_2; [|exact Hinv].
  destruct (default [] _); discriminate.
Qed.

Lemma no_empty_arrays_once event callback h :
  no_empty_arrays h -> no_empty_arrays (fst (Emitter.once event callback h)).
Proof.
  intros Hinv. unfold Emitter.once, bind, get_state.
  apply (no_empty_arrays_on event _
           {| Emitter.events := Emitter.events h;
              Emitter.onceCount := S (Emitter.onceCount h);
              Emitter.user := Emitter.user h;
              Emitter.console := Emitter.console h |}).
  exact Hinv.
Qed.

Lemma no_empty_arrays_off event callback h :
  no_empty_arrays h -> no_empty_arrays (fst (Emitter.off event callback h)).
Proof.
  unfold no_empty_arrays. intros Hinv. rewrite off_events.
  destruct (Emitter.events h !! event) as [callbacks|]; [|exact Hinv].
  destruct (Emitter.indexOf callbacks callback) as [index|]; [|exact Hinv].
  destruct (Emitter.splice1 callbacks index).
  - apply map_Forall_delete. exact Hinv.
  - apply map_Forall_insert_2; [discriminate | exact Hinv].
Qed.

(** X2: the methods that change the registrations keep the map free of
    empty arrays, so that [listenerCount] is zero exactly for the events
    that are not in the map. *)
Theorem registrations_are_never_empty h :
  no_empty_arrays h ->
  (forall event callback,
      no_empty_arrays (fst (Emitter.on event callback h))
      /\ no_empty_arrays (fst (Emitter.off event callback h))
      /\ no_empty_arrays (fst (Emitter.once event callback h)))
  /\ (forall scope, no_empty_arrays (fst (Emitter.removeAllListeners scope h)))
  /\ (forall event,
        Emitter.listenerCount event h = 0%nat <-> Emitter.events h !! event = None).
Proof.
  intros Hinv. split; [|split].
  - intros event callback.
    split; [apply no_empty_arrays_on; exact Hinv|].
    split; [apply no_empty_arrays_off | apply no_empty_arrays_once]; exact Hinv.
  - unfold no_empty_arrays in *.
    intros [e|]; unfold Emitter.removeAllListeners, modify_state; cbn.
    + destruct (decide (e = "")); cbn.
      * apply map_Forall_empty.
      * apply map_Forall_delete. exact Hinv.
    + apply map_Forall_empty.
  - intros event. unfold Emitter.listenerCount.
    destruct (Emitter.events h !! event) as [callbacks|] eqn:Hreg.
    + split; [|discriminate]. intros Hlen.
      destruct callbacks; [|discriminate].
      exfalso. exact (Hinv event [] Hreg eq_refl).
    + split; reflexivity.
Qed.

(** Taking out a callback that was appended to the array of its event
    gives back the registrations. *)
Lemma off_undoes_append event callback h h1 :
  no_empty_arrays h ->
  ~ In callback (default [] (Emitter.events h !! event)) ->
  Emitter.events h1
  = <[event := default [] (Emitter.events h !! event) ++ [callback]]> (Emitter.events h) ->
  Emitter.events (fst (Emitter.off event callback h1)) = Emitter.events h.
Proof.
  intros Hinv Hnot Hadded.
  rewrite off_events, Hadded, lookup_insert_eq.
  destruct (indexOf_first _ [] callback Hnot) as [-> ->].
  rewrite app_nil_r.
  destruct (Emitter.events h !! event) as [callbacks|] eqn:Hold; cbn.
  - destruct callbacks as [|c rest].
    + exfalso. exact (Hinv event [] Hold eq_refl).
    + rewrite insert_insert_eq. apply insert_id. exact Hold.
  - rewrite delete_insert_eq. apply delete_id. exact Hold.
Qed.

(** X3: registering a callback that the event does not have yet and
    removing it again gives back the emitter as it was. *)
Theorem on_then_off_restores event callback h :
  no_empty_arrays h ->
  ~ In callback (default [] (Emitter.events h !! event)) ->
  fst (Emitter.off event callback (fst (Emitter.on event callback h))) = h.
Proof.
  intros Hinv Hnot.
  set (h1 := fst (Emitter.on event callback h)).
  destruct (off_rest event callback h1) as (Hcount & Huser & Hconsole & _).
  apply heap_eq; try assumption.
  apply off_undoes_append; [exact Hinv | exact Hnot | reflexivity].
Qed.


Section QuietListeners.
(** The functions of the program neither touch the registrations nor end
    the process. *)
Hypothesis react_keeps_events :
  forall id (args : list Arg) h,
    Emitter.events (fst (react id args h)) = Emitter.events h
    /\ exited (snd (react id args h)) = false.






End QuietListeners.

(** X5: [removeAllListeners(event)] silences the event and leaves the
    arrays of the other events; without an argument, and also with the empty
    string as the event, it silences every event. *)
Theorem removeAllListeners_scope (scope : option string) (args : list Arg)
    (already : list Emitter.Callback) h :
  let h' := fst (Emitter.removeAllListeners scope h) in
  let silent event :=
    Emitter.emit react event args {| Emitter.heap := h'; Emitter.called := already |}
    = ({| Emitter.heap := h'; Emitter.called := already |}, Returned tt)
    /\ Emitter.listenerCount event h' = 0%nat in
  (forall event, scope = Some event -> event <> "" ->
     silent event
     /\ forall other, other <> event ->
          Emitter.events h' !! other = Emitter.events h !! other)
  /\ (scope = None \/ scope = Some "" -> forall event, silent event)
  /\ Emitter.user h' = Emitter.user h
  /\ Emitter.console h' = Emitter.console h.
Proof.
  intros h' silent.
  assert (Hsilent : forall event, Emitter.events h' !! event = None -> silent event).
  { intros event Hnone. unfold silent, Emitter.emit, Emitter.listenerCount, bind,
      get_state. cbn [Emitter.heap]. rewrite Hnone. split; reflexivity. }
  split; [|split; [|split]].
  - intros event -> Hne. subst h'.
    unfold Emitter.removeAllListeners, modify_state in *. cbn in *.
    destruct (decide (event = "")) as [Heq|_]; [contradiction|]. cbn in *.
    split.
    + apply Hsilent. apply lookup_delete_eq.
    + intros other Hother. apply lookup_delete_ne. congruence.
  - intros Hscope event. apply Hsilent. subst h'.
    unfold Emitter.removeAllListeners, modify_state.
    destruct Hscope as [-> | ->]; cbn; apply lookup_empty.
  - subst h'. unfold Emitter.removeAllListeners, modify_state.
    destruct scope as [e|]; cbn; [destruct (decide (e = ""))|]; reflexivity.
  - subst h'. unfold Emitter.removeAllListeners, modify_state.
    destruct scope as [e|]; cbn; [destruct (decide (e = ""))|]; reflexivity.
Qed.

End Registrations.

Lemma three_listeners_no_empty_arrays : no_empty_arrays three_listeners.
Proof.
  change three_listeners
    with (fst (Emitter.once "trade:complete" (Emitter.Listener 3)
            (fst (Emitter.on "trade:complete" (Emitter.Listener 2)
               (fst (Emitter.on "trade:complete" (Emitter.Listener 1) no_listeners)))))).
  apply no_empty_arrays_once, no_empty_arrays_on, no_empty_arrays_on.
  apply map_Forall_empty.
Qed.


(** The theorem at the three listeners of the examples: the once callback
    is taken out, and the event that never had a listener counts none. *)
Lemma registrations_are_never_empty_witness :
  no_empty_arrays
    (fst (Emitter.off "trade:complete"
            (Emitter.OnceCallback 0 "trade:complete" (Emitter.Listener 3))
            three_listeners))
  /\ Emitter.events three_listeners !! "system:ready" = None.
Proof.
  destruct (registrations_are_never_empty three_listeners
              three_listeners_no_empty_arrays) as (Hall & _ & Hcount).
  split.
  - exact (proj1 (proj2 (Hall "trade:complete"
             (Emitter.OnceCallback 0 "trade:complete" (Emitter.Listener 3))))).
  - apply (proj1 (Hcount "system:ready")). vm_compute. reflexivity.
Defined.

(** The theorem at a fourth listener. *)
Lemma on_then_off_restores_witness :
  fst (Emitter.off "trade:complete" (Emitter.Listener 4)
         (fst (Emitter.on "trade:complete" (Emitter.Listener 4) three_listeners)))
  = three_listeners.
Proof.
  apply (on_then_off_restores "trade:complete" (Emitter.Listener 4) three_listeners).
  - exact three_listeners_no_empty_arrays.
  - vm_compute. intros [H|[H|[H|[]]]]; discriminate H.
Defined.

(** A callback registered twice and removed once: the first registration
    goes, so that the callback moves behind those registered in between. *)
Example off_reorders_double_registration :
  let h := fst (Emitter.on "trade:complete" (Emitter.Listener 1) two_listeners) in
  Emitter.events h !! "trade:complete"
  = Some [Emitter.Listener 1; Emitter.Listener 2; Emitter.Listener 1]
  /\ Emitter.events (fst (Emitter.off "trade:complete" (Emitter.Listener 1) h))
       !! "trade:complete"
     = Some [Emitter.Listener 2; Emitter.Listener 1].
Proof. vm_compute. split; reflexivity. Qed.


(** The function given to [once] runs in the first [emit] and not in the
    second: the state records 1 and 3, then 1 again (2 throws). *)
Example once_listener_effect :
  let h1 := fst (Emitter.once "trade:complete" (Emitter.Listener 3) two_listeners) in
  let '(o1, c1) :=
    Emitter.emit example_react "trade:complete" ["result"]
      {| Emitter.heap := h1; Emitter.called := [] |} in
  let '(o2, c2) := Emitter.emit example_react "trade:complete" ["result"] o1 in
  Emitter.user (Emitter.heap o1) = [1; 3]%nat
  /\ Emitter.user (Emitter.heap o2) = [1; 3; 1]%nat.
Proof. vm_compute. split; reflexivity. Qed.

(** ** Registration and life cycle of the plugins *)

Lemma has_iff_key (entries : list (string * App.Plugin)) (key : string) :
  App.has entries key = true <-> In key (map fst entries).
Proof.
  induction entries as [|[k q] rest IH]; cbn.
  - split; [discriminate | intros []].
  - destruct (String.eqb_spec k key) as [->|Hne].
    + split; [intros _; left; reflexivity | reflexivity].
    + rewrite IH. split; [intros Hin; right; exact Hin|].
      intros [Heq|Hin]; [congruence | exact Hin].
Qed.

(** [set] with a key that the map does not have adds the entry at the
    end. *)
Lemma set_new_key (entries : list (string * App.Plugin)) (key : string)
    (p : App.Plugin) :
  App.has entries key = false -> App.set entries key p = entries ++ [(key, p)].
Proof.
  induction entries as [|[k q] rest IH]; cbn; [reflexivity|].
  destruct (String.eqb k key); [discriminate|].
  intros Hrest. rewrite (IH Hrest). reflexivity.
Qed.

Section Registering.
Variable subscribers : App.Subscribers.

(** The map of plugins after [registerPlugin]. *)
Lemma registerPlugin_plugins (p : App.Plugin) (w : App.World) :
  App.plugins (fst (App.registerPlugin subscribers p w))
  = if App.has (App.plugins w) (App.name p) then App.plugins w
    else match App.initialize p with
         | inl _ => App.plugins w
         | inr _ => App.plugins w ++ [(App.name p, p)]
         end.
Proof.
  unfold App.registerPlugin. unfold_app.
  destruct (App.has (App.plugins w) (App.name p)) eqn:Hhas; [reflexivity|].
  cbn. destruct (App.initialize p) as [e|[]]; cbn; [reflexivity|].
  destruct (subscribers _ _) as [e|[]]; cbn; apply set_new_key; exact Hhas.
Qed.

(** X6: [registerPlugin] has four outcomes.  A plugin whose name is
    already registered is refused with an error before anything is called
    or changed.  A plugin whose [initialize] throws is not stored and no
    event is emitted for it; the error goes to the caller.  Otherwise the
    plugin is stored behind those registered before it and its loading is
    emitted on the bus; then the line is printed and the call returns,
    unless a subscriber throws: its error goes to the caller, the line is
    not printed and the plugin stays stored. *)
Theorem registerPlugin_outcomes (p : App.Plugin) (w : App.World) :
  let '(w', c) := App.registerPlugin subscribers p w in
  if App.has (App.plugins w) (App.name p)
  then c = Threw (ErrorObject ("Plugin '" ++ App.name p ++ "' is already registered"))
       /\ w' = w
  else
    App.invocations w' = App.invocations w ++ [App.CalledInitialize (App.name p)]
    /\ App.isRunning w' = App.isRunning w
    /\ match App.initialize p with
       | inl e =>
           c = Threw e
           /\ App.plugins w' = App.plugins w
           /\ App.emitted w' = App.emitted w
           /\ App.console w' = App.console w
       | inr _ =>
           App.plugins w' = App.plugins w ++ [(App.name p, p)]
           /\ App.emitted w'
              = App.emitted w ++ [App.PLUGIN_LOADED (App.name p) (App.version p)]
           /\ match subscribers (App.emitted w)
                      (App.PLUGIN_LOADED (App.name p) (App.version p)) with
              | inr _ =>
                  c = Returned tt
                  /\ App.console w'
                     = App.console w
                       ++ [App.PluginRegistered (App.name p) (App.version p)]
              | inl e => c = Threw e /\ App.console w' = App.console w
              end
       end.
Proof.
  unfold App.registerPlugin. unfold_app.
  destruct (App.has (App.plugins w) (App.name p)) eqn:Hhas.
  - split; reflexivity.
  - cbn. destruct (App.initialize p) as [e|[]]; cbn.
    + repeat split.
    + destruct (subscribers _ _) as [e|[]]; cbn;
        rewrite (set_new_key _ _ _ Hhas); repeat split.
Qed.

(** X7: the keys of the map of plugins are the names of the plugins and are
    pairwise distinct, and every method of the application keeps it so. *)
Theorem plugins_stay_keyed_by_name (w : App.World) :
  keyed_by_name (App.plugins w) ->
  (forall p, keyed_by_name (App.plugins (fst (App.registerPlugin subscribers p w))))
  /\ App.plugins (fst (App.Application_start subscribers w)) = App.plugins w
  /\ App.plugins (fst (App.Application_stop subscribers w)) = App.plugins w.
Proof.
  intros [Hnodup Hkeys]. split; [|split].
  - intros p. rewrite registerPlugin_plugins.
    destruct (App.has (App.plugins w) (App.name p)) eqn:Hhas; [split; assumption|].
    destruct (App.initialize p) as [e|[]]; [split; assumption|].
    split.
    + rewrite map_app. cbn. apply NoDup_app. split; [exact Hnodup|].
      split; [|apply NoDup_singleton].
      intros key Hin Hnew. apply list_elem_of_singleton in Hnew. subst key.
      apply list_elem_of_In in Hin. apply has_iff_key in Hin. congruence.
    + apply Forall_app. split; [exact Hkeys|]. repeat constructor.
  - destruct (App.isRunning w) eqn:Hrun.
    + unfold App.Application_start. unfold_app. rewrite Hrun. reflexivity.
    + pose proof (start_general subscribers w Hrun) as H.
      destruct (App.Application_start subscribers w) as [w' c]. apply H.
  - destruct (App.isRunning w) eqn:Hrun.
    + pose proof (stop_general subscribers w Hrun) as H.
      destruct (App.Application_stop subscribers w) as [w' c]. apply H.
    + unfold App.Application_stop. unfold_app. rewrite Hrun. reflexivity.
Qed.

(** X8: the guards of the life cycle.  [start] on a running application
    and [stop] on one that is not running call no plugin and emit nothing:
    they print one line and return.  With subscribers that do not throw, a
    [start] leaves the application running, and a [start] followed by a
    [stop] has called [start] and then [stop] on every plugin, once each and
    in the order of registration, and leaves the application not running
    with the plugins it had. *)
Theorem life_cycle_guards (w : App.World) :
  let with_line l (w0 : App.World) :=
    {| App.plugins := App.plugins w0; App.isRunning := App.isRunning w0;
       App.emitted := App.emitted w0; App.console := App.console w0 ++ [l];
       App.invocations := App.invocations w0 |} in
  (App.isRunning w = true ->
   App.Application_start subscribers w = (with_line App.AlreadyRunning w, Returned tt))
  /\ (App.isRunning w = false ->
      App.Application_stop subscribers w = (with_line App.NotRunning w, Returned tt))
  /\ (App.isRunning w = false -> subscribers_quiet subscribers ->
      let started := fst (App.Application_start subscribers w) in
      let stopped := fst (App.Application_stop subscribers started) in
      App.isRunning started = true
      /\ App.Application_start subscribers started
         = (with_line App.AlreadyRunning started, Returned tt)
      /\ App.Application_stop subscribers stopped
         = (with_line App.NotRunning stopped, Returned tt)
      /\ App.isRunning stopped = false
      /\ App.plugins stopped = App.plugins w
      /\ App.invocations stopped
         = App.invocations w
           ++ map called_start (App.plugins w) ++ map called_stop (App.plugins w)
      /\ App.emitted stopped
         = App.emitted w
           ++ map start_event (App.plugins w) ++ [App.SYSTEM_READY]
           ++ map stop_event (App.plugins w) ++ [App.SYSTEM_SHUTDOWN]).
Proof.
  intros with_line.
  assert (Hrunning_guard : forall w0, App.isRunning w0 = true ->
            App.Application_start subscribers w0
            = (with_line App.AlreadyRunning w0, Returned tt)).
  { intros w0 Hon. unfold App.Application_start. unfold_app. rewrite Hon. reflexivity. }
  assert (Hstopped_guard : forall w0, App.isRunning w0 = false ->
            App.Application_stop subscribers w0
            = (with_line App.NotRunning w0, Returned tt)).
  { intros w0 Hoff. unfold App.Application_stop. unfold_app. rewrite Hoff. reflexivity. }
  split; [apply Hrunning_guard|]. split; [apply Hstopped_guard|].
  intros Hoff quiet started stopped.
  pose proof (start_effect subscribers quiet w Hoff) as Hstart.
  subst stopped started.
  destruct (App.Application_start subscribers w) as [started c] eqn:Estart. cbn [fst].
  destruct Hstart as (_ & Hrunning & Hplugins & Hcalls & Hemitted).
  pose proof (stop_effect subscribers quiet started Hrunning) as Hstop.
  destruct (App.Application_stop subscribers started) as [stopped c'] eqn:Estop.
  cbn [fst].
  destruct Hstop as (_ & Hrunning' & Hplugins' & Hcalls' & Hemitted').
  split; [exact Hrunning|].
  split; [exact (Hrunning_guard started Hrunning)|].
  split; [exact (Hstopped_guard stopped Hrunning')|].
  split; [exact Hrunning'|]. split; [congruence|].
  rewrite Hcalls', Hemitted', Hcalls, Hemitted, Hplugins, <- !app_assoc.
  split; reflexivity.
Qed.

End Registering.

(** The theorem at the three plugins of the examples and a fourth one. *)
Lemma plugins_stay_keyed_by_name_witness :
  keyed_by_name
    (App.plugins
       (fst (App.registerPlugin no_subscribers (plugin "webhook" false) three_plugins))).
Proof.
  assert (Hkeyed : keyed_by_name (App.plugins three_plugins)).
  { vm_compute. split; [|repeat constructor].
    repeat (apply NoDup_cons_2;
            [intros Hin; apply list_elem_of_In in Hin; cbn in Hin;
             intuition discriminate|]).
    apply NoDup_nil_2. }
  exact (proj1 (plugins_stay_keyed_by_name no_subscribers three_plugins Hkeyed)
           (plugin "webhook" false)).
Defined.

(** A second registration under a name that is taken is refused, and the
    plugin that has the name stays. *)
Example registerPlugin_refuses_duplicate :
  App.registerPlugin no_subscribers (plugin "telegram" false) three_plugins
  = (three_plugins,
     Threw (ErrorObject "Plugin 'telegram' is already registered")).
Proof. vm_compute. reflexivity. Qed.

(** A subscriber that throws when the loading is announced: the caller of
    [registerPlugin] gets its error, and the plugin is registered all the
    same. *)
Example registerPlugin_with_throwing_subscriber :
  let '(w', c) :=
    App.registerPlugin (fun _ _ => inl (ErrorObject "dashboard offline"))
      (plugin "webhook" false) three_plugins in
  c = Threw (ErrorObject "dashboard offline")
  /\ map fst (App.plugins w') = ["logger"; "telegram"; "metrics"; "webhook"]
  /\ App.console w' = App.console three_plugins.
Proof. vm_compute. repeat split; reflexivity. Qed.

(** The theorem at the three plugins of the examples, on a bus without
    subscribers. *)
Lemma life_cycle_guards_witness :
  App.invocations
    (fst (App.Application_stop no_subscribers
            (fst (App.Application_start no_subscribers three_plugins))))
  = App.invocations three_plugins
    ++ [App.CalledStart "logger"; App.CalledStart "telegram"; App.CalledStart "metrics"]
    ++ [App.CalledStop "logger"; App.CalledStop "telegram"; App.CalledStop "metrics"].
Proof.
  pose proof (proj2 (proj2 (life_cycle_guards no_subscribers three_plugins))
                eq_refl no_subscribers_quiet) as H.
  cbv zeta in H.
  destruct H as (_ & _ & _ & _ & _ & Hcalls & _). exact Hcalls.
Defined.

(** ** Submission with retry, for every budget *)

Section RetryBudget.
Variables (answers : nat -> Thrown + string) (transaction : string)
  (signers : list string).

(** The loop from [retries] failures on, when the next [failed] submissions
    fail: it makes one more submission, whose signature it returns, or whose
    error it raises when the budget is used up. *)
Lemma retry_loop_run (maxRetries : Z) (signature : string) :
  forall (failed fuel : nat) (retries : Z) (w : TransactionUtils.World),
    retries + Z.of_nat failed < maxRetries ->
    (Z.to_nat (maxRetries - retries) <= fuel)%nat ->
    (forall j, (j < failed)%nat ->
               exists e, answers (TransactionUtils.submissions w + j)%nat = inl e) ->
    let w' :=
      {| TransactionUtils.submissions := (TransactionUtils.submissions w + S failed)%nat;
         TransactionUtils.timeline :=
           TransactionUtils.timeline w
           ++ attempts transaction signers maxRetries failed retries |} in
    let run :=
      TransactionUtils.retry_loop fuel answers transaction signers maxRetries
        signature retries w in
    match answers (TransactionUtils.submissions w + failed)%nat with
    | inr sent => run = (w', Returned sent)
    | inl e => retries + Z.of_nat failed = maxRetries - 1 -> run = (w', Threw e)
    end.
Proof.
  induction failed as [|failed IH]; intros fuel retries w Hbudget Hfuel Hfail w' run;
    subst w' run.
  - destruct fuel as [|fuel]; [lia|].
    cbn [TransactionUtils.retry_loop attempts].
    assert (E : (retries <? maxRetries) = true) by (apply Z.ltb_lt; lia).
    rewrite E.
    unfold bind, try_catch, TransactionUtils.sendAndConfirmTransaction, lift,
      ret, complete, TransactionUtils.observe.
    rewrite Nat.add_0_r, Nat.add_1_r.
    destruct (answers (TransactionUtils.submissions w)) as [e|sent]; [|reflexivity].
    intros Hlast.
    assert (G : (retries + 1 >=? maxRetries) = true)
      by (rewrite Z.geb_leb; apply Z.leb_le; lia).
    rewrite G. reflexivity.
  - destruct fuel as [|fuel]; [lia|].
    cbn [TransactionUtils.retry_loop attempts].
    assert (E : (retries <? maxRetries) = true) by (apply Z.ltb_lt; lia).
    rewrite E.
    unfold bind, try_catch, TransactionUtils.sendAndConfirmTransaction, lift,
      ret, complete, TransactionUtils.observe.
    destruct (Hfail 0%nat ltac:(lia)) as [e0 He0]. rewrite Nat.add_0_r in He0.
    rewrite He0.
    assert (G : (retries + 1 >=? maxRetries) = false)
      by (rewrite Z.geb_leb; apply Z.leb_gt; lia).
    rewrite G. cbn [TransactionUtils.submissions TransactionUtils.timeline].
    rewrite <- !app_assoc. cbn [app].
    match goal with
    | |- context [TransactionUtils.retry_loop fuel _ _ _ _ _ _ ?w1] =>
        specialize (IH fuel (retries + 1) w1)
    end.
    cbn [TransactionUtils.submissions TransactionUtils.timeline] in IH.
    rewrite <- !app_assoc in IH. cbn [app] in IH.
    replace (TransactionUtils.submissions w + S (S failed))%nat
      with (S (TransactionUtils.submissions w) + S failed)%nat by lia.
    replace (TransactionUtils.submissions w + S failed)%nat
      with (S (TransactionUtils.submissions w) + failed)%nat by lia.
    assert (IH' := IH ltac:(lia) ltac:(lia)). clear IH.
    assert (Hrest : forall j, (j < failed)%nat ->
              exists e, answers (S (TransactionUtils.submissions w) + j)%nat = inl e).
    { intros j Hj. destruct (Hfail (S j) ltac:(lia)) as [e He]. exists e.
      rewrite <- He. f_equal. lia. }
    specialize (IH' Hrest).
    destruct (answers (S (TransactionUtils.submissions w) + failed)%nat) as [e|sent].
    + intros Hlast. apply IH'. lia.
    + exact IH'.
Qed.

(** X9: for every budget [maxRetries] and every connection whose first
    [failed] submissions fail, with [failed] below the budget: the call
    submits [failed + 1] times and waits 1000 ms after each failure; it
    returns the signature of the submission that succeeds, and when that
    last submission fails too and the budget is used up it raises the error
    of that last submission. *)
Theorem sendTransactionWithRetry_budget (maxRetries : Z) (failed : nat) :
  Z.of_nat failed < maxRetries ->
  (forall j, (j < failed)%nat -> exists e, answers j = inl e) ->
  let run :=
    TransactionUtils.sendTransactionWithRetry answers transaction signers
      (Some maxRetries) TransactionUtils.fresh in
  let w' :=
    {| TransactionUtils.submissions := S failed;
       TransactionUtils.timeline := attempts transaction signers maxRetries failed 0 |} in
  match answers failed with
  | inr sent => run = (w', Returned sent)
  | inl e => Z.of_nat failed = maxRetries - 1 -> run = (w', Threw e)
  end.
Proof.
  intros Hbudget Hfail run w'. subst run w'.
  unfold TransactionUtils.sendTransactionWithRetry.
  pose proof (retry_loop_run maxRetries "" failed (Z.to_nat maxRetries) 0
                TransactionUtils.fresh) as Hrun.
  cbn [TransactionUtils.fresh TransactionUtils.submissions TransactionUtils.timeline
       Nat.add app] in Hrun.
  specialize (Hrun ltac:(lia) ltac:(rewrite Z.sub_0_r; lia) Hfail).
  destruct (answers failed) as [e|sent]; [|exact Hrun].
  intros Hlast. apply Hrun. lia.
Qed.

(** X10: with a budget that is not positive, nothing is submitted: the
    call returns the empty signature and raises no error. *)
Theorem sendTransactionWithRetry_without_budget (maxRetries : Z) :
  maxRetries <= 0 ->
  TransactionUtils.sendTransactionWithRetry answers transaction signers
    (Some maxRetries) TransactionUtils.fresh
  = (TransactionUtils.fresh, Returned "").
Proof.
  intros Hnone. unfold TransactionUtils.sendTransactionWithRetry.
  assert (Hfuel : Z.to_nat maxRetries = 0%nat) by lia.
  rewrite Hfuel. cbn [TransactionUtils.retry_loop].
  assert (E : (0 <? maxRetries) = false) by (apply Z.ltb_ge; exact Hnone).
  rewrite E. reflexivity.
Qed.

End RetryBudget.

(** The theorem at a budget of five and a connection that fails three
    times. *)
Lemma sendTransactionWithRetry_budget_witness :
  let answers n :=
    if (n <? 3)%nat then inl (ErrorObject "Node is behind")
    else inr "3nVfDq5sLYTiSKGt5BAjLRU5PqDApcLVkUEPjqPYy4Wp" in
  TransactionUtils.sendTransactionWithRetry answers "tx" ["payer"] (Some 5)
    TransactionUtils.fresh
  = ({| TransactionUtils.submissions := 4;
        TransactionUtils.timeline := attempts "tx" ["payer"] 5 3 0 |},
     Returned "3nVfDq5sLYTiSKGt5BAjLRU5PqDApcLVkUEPjqPYy4Wp").
Proof.
  intros answers.
  apply (sendTransactionWithRetry_budget answers "tx" ["payer"] 5 3).
  - lia.
  - intros j Hj. exists (ErrorObject "Node is behind"). unfold answers.
    destruct (Nat.ltb_spec j 3); [reflexivity | lia].
Defined.

(** The theorem at a budget of zero. *)
Lemma sendTransactionWithRetry_without_budget_witness :
  TransactionUtils.sendTransactionWithRetry
    (fun _ => inl (ErrorObject "Node is behind")) "tx" ["payer"] (Some 0)
    TransactionUtils.fresh
  = (TransactionUtils.fresh, Returned "").
Proof.
  apply (sendTransactionWithRetry_without_budget
           (fun _ => inl (ErrorObject "Node is behind")) "tx" ["payer"] 0).
  lia.
Defined.

(** ** What the cycles leave alone *)

Section CacheFrame.
Context {number : Type} {JN : JsNumber number}.
Implicit Types (out : CacheStrategies.Outside number)
  (ctx : CacheStrategies.StrategyContext number)
  (w : CacheStrategies.World number).

Lemma ArbitrageStrategy_frame out ctx w :
  let c' := CacheStrategies.cache (fst (CacheStrategies.ArbitrageStrategy_execute out ctx w)) in
  same_funds (CacheStrategies.cache w) c'
  /\ CacheStrategies.sideBuy c' = CacheStrategies.sideBuy (CacheStrategies.cache w)
  /\ CacheStrategies.availableRoutes c'
     = CacheStrategies.availableRoutes (CacheStrategies.cache w).
Proof.
  unfold CacheStrategies.ArbitrageStrategy_execute, same_funds. unfold_monad.
  cbn -[Z.add]. split_cases; repeat split.
Qed.

Lemma PingPongStrategy_frame out ctx w :
  same_funds (CacheStrategies.cache w)
    (CacheStrategies.cache (fst (CacheStrategies.PingPongStrategy_execute out ctx w))).
Proof.
  unfold CacheStrategies.PingPongStrategy_execute, same_funds. unfold_monad.
  cbn -[Z.add]. split_cases; repeat split.
Qed.

(** One cycle of either strategy: it does not throw, it counts one
    iteration, it gives the iteration a status and leaves the other
    entries of the queue, and it leaves the funds and the configuration. *)
Lemma run_cycle_effect (c : Cycle number) w :
  let '(w', done) := run_cycle c w in
  let i := CacheStrategies.iteration (CacheStrategies.cache w) + 1 in
  (forall e, done <> Threw e)
  /\ CacheStrategies.iteration (CacheStrategies.cache w') = i
  /\ (CacheStrategies.queue (CacheStrategies.cache w') !! i = Some 0
      \/ CacheStrategies.queue (CacheStrategies.cache w') !! i = Some (-1))
  /\ (forall j, j <> i ->
        CacheStrategies.queue (CacheStrategies.cache w') !! j
        = CacheStrategies.queue (CacheStrategies.cache w) !! j)
  /\ same_funds (CacheStrategies.cache w) (CacheStrategies.cache w').
Proof.
  destruct c as [out ctx|out ctx]; cbn [run_cycle].
  - pose proof (ArbitrageStrategy_never_throws out ctx w) as Hthrow.
    pose proof (ArbitrageStrategy_iteration out ctx w) as Hiter.
    pose proof (ArbitrageStrategy_status out ctx w) as Hstatus.
    pose proof (ArbitrageStrategy_frame out ctx w) as Hframe.
    destruct (CacheStrategies.ArbitrageStrategy_execute out ctx w) as [w' done].
    cbn [fst snd] in *. cbv zeta in *.
    split; [exact Hthrow|]. split; [exact Hiter|].
    split; [|split; [|apply Hframe]].
    + destruct Hstatus as [-> | [-> _]];
        [left | right]; apply lookup_insert_eq.
    + intros j Hj. destruct Hstatus as [-> | [-> _]];
        rewrite ?lookup_insert_ne by congruence; reflexivity.
  - pose proof (PingPongStrategy_never_throws out ctx w) as Hthrow.
    pose proof (PingPongStrategy_iteration out ctx w) as Hiter.
    pose proof (PingPongStrategy_status out ctx w) as Hstatus.
    pose proof (PingPongStrategy_frame out ctx w) as Hframe.
    destruct (CacheStrategies.PingPongStrategy_execute out ctx w) as [w' done].
    cbn [fst snd] in *. cbv zeta in *.
    split; [exact Hthrow|]. split; [exact Hiter|].
    split; [|split; [|apply Hframe]].
    + destruct Hstatus as [-> | [-> _]];
        [left | right]; apply lookup_insert_eq.
    + intros j Hj. destruct Hstatus as [-> | [-> _]];
        rewrite ?lookup_insert_ne by congruence; reflexivity.
Qed.

(** X11: the strategies never write the balances, the configuration or
    the trading switch, and the arbitrage strategy writes neither the side
    nor the route counts; so every cycle of an unchanged side trades the
    same amount.  Of the queue a cycle writes the entry of its own
    iteration only. *)
Theorem cycles_leave_funds_and_settings out ctx w :
  let before := CacheStrategies.cache w in
  let arbitrage :=
    CacheStrategies.cache (fst (CacheStrategies.ArbitrageStrategy_execute out ctx w)) in
  let pingpong :=
    CacheStrategies.cache (fst (CacheStrategies.PingPongStrategy_execute out ctx w)) in
  same_funds before arbitrage
  /\ same_funds before pingpong
  /\ CacheStrategies.sideBuy arbitrage = CacheStrategies.sideBuy before
  /\ CacheStrategies.availableRoutes arbitrage = CacheStrategies.availableRoutes before
  /\ forall j, j <> CacheStrategies.iteration before + 1 ->
       CacheStrategies.queue arbitrage !! j = CacheStrategies.queue before !! j
       /\ CacheStrategies.queue pingpong !! j = CacheStrategies.queue before !! j.
Proof.
  intros before arbitrage pingpong. subst before arbitrage pingpong.
  destruct (ArbitrageStrategy_frame out ctx w) as (Hfunds & Hside & Hroutes).
  pose proof (PingPongStrategy_frame out ctx w) as Hfunds'.
  pose proof (run_cycle_effect (ArbitrageCycle out ctx) w) as Ha.
  pose proof (run_cycle_effect (PingPongCycle out ctx) w) as Hp.
  cbn [run_cycle] in Ha, Hp.
  destruct (CacheStrategies.ArbitrageStrategy_execute out ctx w) as [wa da].
  destruct (CacheStrategies.PingPongStrategy_execute out ctx w) as [wp dp].
  cbn [fst] in *.
  destruct Ha as (_ & _ & _ & Hqa & _). destruct Hp as (_ & _ & _ & Hqp & _).
  repeat split; try assumption; try apply Hfunds; try apply Hfunds';
    [apply Hqa | apply Hqp]; assumption.
Qed.

(** X12: along a run of cycles on the same cache, no cycle throws, the
    iteration counter goes up by one for each cycle made, every iteration of
    the run still has its entry in the queue at the end of the run (with
    status 0 or -1: no entry is ever removed), the entries from before the
    run are as they were, and so are the funds and the configuration. *)
Theorem run_of_cycles_fills_the_queue (cycles : list (Cycle number)) :
  forall w,
    let '(w', outs) := run_calls run_cycle cycles w in
    let first := CacheStrategies.iteration (CacheStrategies.cache w) in
    let last := CacheStrategies.iteration (CacheStrategies.cache w') in
    Forall (fun done => forall e, done <> Threw e) outs
    /\ last = first + Z.of_nat (length outs)
    /\ (forall i, first < i <= last ->
          CacheStrategies.queue (CacheStrategies.cache w') !! i = Some 0
          \/ CacheStrategies.queue (CacheStrategies.cache w') !! i = Some (-1))
    /\ (forall i, i <= first \/ last < i ->
          CacheStrategies.queue (CacheStrategies.cache w') !! i
          = CacheStrategies.queue (CacheStrategies.cache w) !! i)
    /\ same_funds (CacheStrategies.cache w) (CacheStrategies.cache w').
Proof.
  induction cycles as [|c rest IH]; intros w.
  - cbn. split; [constructor|]. split; [lia|]. split; [intros i Hi; lia|].
    split; [reflexivity|]. repeat split.
  - cbn [run_calls].
    pose proof (run_cycle_effect c w) as Hstep.
    destruct (run_cycle c w) as [w1 done].
    cbv zeta in Hstep. destruct Hstep as (Hthrow & Hiter & Hstatus & Hothers & Hfunds).
    assert (Hone :
      let first := CacheStrategies.iteration (CacheStrategies.cache w) in
      Forall (fun done => forall e, done <> Threw e) [done]
      /\ CacheStrategies.iteration (CacheStrategies.cache w1)
         = first + Z.of_nat (length [done])
      /\ (forall i, first < i <= CacheStrategies.iteration (CacheStrategies.cache w1) ->
            CacheStrategies.queue (CacheStrategies.cache w1) !! i = Some 0
            \/ CacheStrategies.queue (CacheStrategies.cache w1) !! i = Some (-1))
      /\ (forall i, i <= first
                    \/ CacheStrategies.iteration (CacheStrategies.cache w1) < i ->
            CacheStrategies.queue (CacheStrategies.cache w1) !! i
            = CacheStrategies.queue (CacheStrategies.cache w) !! i)
      /\ same_funds (CacheStrategies.cache w) (CacheStrategies.cache w1)).
    { cbv zeta. split; [repeat constructor; exact Hthrow|].
      split; [cbn; lia|]. split; [|split; [|exact Hfunds]].
      - intros i Hi. replace i with (CacheStrategies.iteration (CacheStrategies.cache w) + 1)
          by lia. exact Hstatus.
      - intros i Hi. apply Hothers. lia. }
    specialize (IH w1).
    destruct (run_calls run_cycle rest w1) as [w2 outs].
    cbv zeta in IH. destruct IH as (Hall & Hlast & Hrun & Hkept & Hfunds2).
    assert (Hmany :
      let first := CacheStrategies.iteration (CacheStrategies.cache w) in
      let last := CacheStrategies.iteration (CacheStrategies.cache w2) in
      Forall (fun done => forall e, done <> Threw e) (done :: outs)
      /\ last = first + Z.of_nat (length (done :: outs))
      /\ (forall i, first < i <= last ->
            CacheStrategies.queue (CacheStrategies.cache w2) !! i = Some 0
            \/ CacheStrategies.queue (CacheStrategies.cache w2) !! i = Some (-1))
      /\ (forall i, i <= first \/ last < i ->
            CacheStrategies.queue (CacheStrategies.cache w2) !! i
            = CacheStrategies.queue (CacheStrategies.cache w) !! i)
      /\ same_funds (CacheStrategies.cache w) (CacheStrategies.cache w2)).
    { cbv zeta. split; [constructor; [exact Hthrow | exact Hall]|].
      split; [cbn [length]; lia|]. split; [|split].
      - intros i Hi.
        destruct (Z.eq_dec i (CacheStrategies.iteration (CacheStrategies.cache w) + 1))
          as [->|Hne].
        + rewrite Hkept by lia. exact Hstatus.
        + apply Hrun. lia.
      - intros i Hi. rewrite Hkept by lia. apply Hothers. lia.
      - unfold same_funds in *. intuition congruence. }
    destruct done as [[]|e|code]; [exact Hmany | exact Hmany | exact Hone].
Qed.

End CacheFrame.

(** ** The results of [execute] *)

Section TradeResults.
Context {number : Type} {JN : JsNumber number}.

(** What a successful call of [execute] of [strategies/pingpong.ts] leaves
    and reports. *)
Lemma api_success_effect (c : ApiPingPong.Call number) (w : ApiPingPong.World number)
    (r : TradeResult number) :
  snd (ApiPingPong.call c w) = Returned r -> success r = true ->
  let t := ApiPingPong.this w in
  let t' := ApiPingPong.this (fst (ApiPingPong.call c w)) in
  inputAmount r = ApiPingPong.call_amount c
  /\ ApiPingPong.direction t' = flip (ApiPingPong.direction t)
  /\ ApiPingPong.lastTrade t'
     = Some {| ApiPingPong.lt_inputToken := ApiPingPong.call_inputToken c;
               ApiPingPong.lt_outputToken := ApiPingPong.call_outputToken c;
               ApiPingPong.lt_inputAmount := ApiPingPong.call_amount c;
               ApiPingPong.lt_outputAmount := outputAmount r;
               ApiPingPong.lt_timestamp :=
                 ApiPingPong.now_stamp (ApiPingPong.call_outside c) |}
  /\ (profit r, profitPercentage r)
     = match ApiPingPong.lastTrade t, ApiPingPong.direction t with
       | Some last, ApiPingPong.pong =>
           let gain := num_sub (outputAmount r) (ApiPingPong.lt_inputAmount last) in
           (gain,
            num_mul (num_div gain (ApiPingPong.lt_inputAmount last)) (num_of_Z 100))
       | _, _ => (num_of_Z 0, num_of_Z 0)
       end.
Proof.
  unfold_api. cbn -[Z.add]. split_cases; cbn -[Z.add]; intros Hr Hs;
    try discriminate Hr; injection Hr as <-; try discriminate Hs;
    repeat split; first [reflexivity | congruence].
Qed.

(** X13: two successful calls of [execute] of [strategies/pingpong.ts] in a
    row, from the direction ping: the first reports no profit; the second
    reports as profit its output minus the amount that went into the
    first, and as percentage that profit over that amount, whatever tokens
    and amount the second call trades; the direction is ping again and the
    error counter is as before. *)
Theorem pingpong_round_trip_profit (c1 c2 : ApiPingPong.Call number)
    (w : ApiPingPong.World number) (r1 r2 : TradeResult number) :
  ApiPingPong.direction (ApiPingPong.this w) = ApiPingPong.ping ->
  snd (ApiPingPong.call c1 w) = Returned r1 -> success r1 = true ->
  let w1 := fst (ApiPingPong.call c1 w) in
  snd (ApiPingPong.call c2 w1) = Returned r2 -> success r2 = true ->
  let w2 := fst (ApiPingPong.call c2 w1) in
  profit r1 = num_of_Z 0
  /\ profitPercentage r1 = num_of_Z 0
  /\ profit r2 = num_sub (outputAmount r2) (ApiPingPong.call_amount c1)
  /\ profitPercentage r2
     = num_mul (num_div (profit r2) (ApiPingPong.call_amount c1)) (num_of_Z 100)
  /\ ApiPingPong.direction (ApiPingPong.this w2) = ApiPingPong.ping
  /\ ApiPingPong.errorCount (ApiPingPong.this w2)
     = ApiPingPong.errorCount (ApiPingPong.this w).
Proof.
  intros Hping Hr1 Hs1 w1 Hr2 Hs2 w2.
  destruct (api_success_effect c1 w r1 Hr1 Hs1) as (_ & Hd1 & Hl1 & Hp1).
  destruct (api_success_effect c2 w1 r2 Hr2 Hs2) as (_ & Hd2 & _ & Hp2).
  destruct (api_success_not_counted c1 w r1 Hr1 Hs1) as [_ He1].
  destruct (api_success_not_counted c2 w1 r2 Hr2 Hs2) as [_ He2].
  fold w1 in Hd1, Hl1, He1. fold w2 in Hd2, He2.
  rewrite Hping in Hp1, Hd1. cbn [flip] in Hd1.
  assert (Hfirst : (profit r1, profitPercentage r1)
                   = (num_of_Z 0 : number, num_of_Z 0 : number))
    by (rewrite Hp1; destruct (ApiPingPong.lastTrade (ApiPingPong.this w)); reflexivity).
  rewrite Hl1, Hd1 in Hp2. cbn in Hp2.
  injection Hfirst as -> ->. injection Hp2 as Hprofit Hpct.
  rewrite Hd2, Hd1, He2, He1, Hpct, Hprofit. repeat split.
Qed.

(** X14: a strategy that has no wallet ([strategies/pingpong.ts]) or no SDK
    ([strategies/arbitrage.ts]) refuses every call of [execute] before it
    asks anything of its collaborators: along every run of calls the
    strategy object and the console stay as they were, no call throws or
    ends the process, and every call returns the failure with the input
    amount and zero latency. *)
Theorem execute_refused_without_wallet_or_sdk :
  (forall (calls : list (ApiPingPong.Call number)) (w : ApiPingPong.World number),
      ApiPingPong.wallet (ApiPingPong.this w) = None ->
      run_calls ApiPingPong.call calls w
      = (w, map (fun c => Returned
                            (ApiPingPong.failure (ApiPingPong.call_amount c)
                               "No wallet available for execution" (num_of_Z 0)))
              calls))
  /\ (forall (calls : list (SdkArbitrage.Call number)) (w : SdkArbitrage.World),
         SdkArbitrage.jupiter (SdkArbitrage.this w) = None ->
         run_calls SdkArbitrage.call calls w
         = (w, map (fun c => Returned
                               (SdkArbitrage.failure (SdkArbitrage.call_amount c)
                                  "Jupiter not initialized" (num_of_Z 0)))
                 calls)).
Proof.
  split.
  - intros calls w Hnone. induction calls as [|c calls IH]; [reflexivity|].
    cbn [run_calls map].
    assert (Hcall : ApiPingPong.call c w
                    = (w, Returned (ApiPingPong.failure (ApiPingPong.call_amount c)
                                      "No wallet available for execution" (num_of_Z 0))))
      by (unfold_api; rewrite Hnone; reflexivity).
    rewrite Hcall, IH. reflexivity.
  - intros calls w Hnone. induction calls as [|c calls IH]; [reflexivity|].
    cbn [run_calls map].
    assert (Hcall : SdkArbitrage.call c w
                    = (w, Returned (SdkArbitrage.failure (SdkArbitrage.call_amount c)
                                      "Jupiter not initialized" (num_of_Z 0))))
      by (unfold_sdk; rewrite Hnone; reflexivity).
    rewrite Hcall, IH. reflexivity.
Qed.

(** X15: [execute] of both strategies never throws to its caller, and the
    result it returns carries the input amount.  A failure carries an error
    message, zero output and profit, and neither signature nor fees; a
    success carries no error message.  Every result that [execute] of
    [strategies/arbitrage.ts] returns is such a failure: when the SDK gives
    routes and the swap is made, the conversion of the output amount of the
    route throws inside the [try] block. *)
Theorem execute_results_are_well_formed :
  (forall (c : ApiPingPong.Call number) (w : ApiPingPong.World number),
      match snd (ApiPingPong.call c w) with
      | Threw _ => False
      | Exited _ => True
      | Returned r =>
          inputAmount r = ApiPingPong.call_amount c
          /\ if success r then error r = None
             else outputAmount r = num_of_Z 0 /\ profit r = num_of_Z 0
                  /\ profitPercentage r = num_of_Z 0
                  /\ txId r = None /\ fees r = None /\ error r <> None
      end)
  /\ (forall (c : SdkArbitrage.Call number) (w : SdkArbitrage.World),
         match snd (SdkArbitrage.call c w) with
         | Threw _ => False
         | Exited _ => True
         | Returned r =>
             inputAmount r = SdkArbitrage.call_amount c
             /\ success r = false
             /\ outputAmount r = num_of_Z 0 /\ profit r = num_of_Z 0
             /\ profitPercentage r = num_of_Z 0
             /\ txId r = None /\ fees r = None /\ error r <> None
         end).
Proof.
  split; intros c w.
  - unfold_api. cbn -[Z.add]. split_cases; cbn -[Z.add];
      repeat split; discriminate.
  - unfold_sdk. unfold Number_of_JSBI. cbn -[Z.add]. split_cases; cbn -[Z.add];
      repeat split; discriminate.
Qed.

End TradeResults.

(** The theorem at two calls that trade USDC for SOL: the second one
    reports a profit of 1 although it traded in the same direction. *)
Lemma pingpong_round_trip_profit_witness :
  exists r2,
    snd (ApiPingPong.call good_call (fst (ApiPingPong.call good_call api_fresh)))
    = Returned r2
    /\ profit r2 = num_sub (outputAmount r2) (Fin 100)
    /\ profit r2 = Fin 1.
Proof.
  eexists. split; [vm_compute; reflexivity|]. split; [|reflexivity].
  eapply (pingpong_round_trip_profit good_call good_call api_fresh);
    vm_compute; reflexivity.
Defined.

(** The theorem at a strategy without a wallet and three calls, the third
    of which would have failed. *)
Lemma execute_refused_without_wallet_or_sdk_witness :
  run_calls ApiPingPong.call [good_call; good_call; failing_call] api_without_wallet
  = (api_without_wallet,
     [Returned (ApiPingPong.failure (Fin 100) "No wallet available for execution" (Fin 0));
      Returned (ApiPingPong.failure (Fin 100) "No wallet available for execution" (Fin 0));
      Returned (ApiPingPong.failure (Fin 100) "No wallet available for execution" (Fin 0))]).
Proof.
  exact (proj1 execute_refused_without_wallet_or_sdk
           [good_call; good_call; failing_call] api_without_wallet eq_refl).
Defined.

(** ** Simulation *)

Ltac unfold_simulation :=
  cbv beta iota zeta delta
    [Simulation.PingPongStrategy_simulate Simulation.ArbitrageStrategy_simulate
     Simulation.in_strategy Simulation.print_simulation_error Simulation.sim_failure
     ApiPingPong.get_this SdkArbitrage.get_this
     bind ret try_catch lift complete process_exit get_state modify_state].

Section Simulations.
Context {number : Type} {JN : JsNumber number}.

(** What [simulate] of [strategies/pingpong.ts] leaves and returns. *)
Lemma PingPongStrategy_simulate_effect (out : Simulation.PingPongOutside number)
    (inputToken outputToken : Token number) (amount : number)
    (s : Simulation.Simulated (ApiPingPong.World number)) :
  let '(s', c) :=
    Simulation.PingPongStrategy_simulate out inputToken outputToken amount s in
  Simulation.strategy s' = Simulation.strategy s
  /\ exists r,
       c = Returned r
       /\ Simulation.sim_inputAmount r = amount
       /\ (if Simulation.sim_success r
           then Simulation.simulation_errors s' = Simulation.simulation_errors s
                /\ Simulation.sim_error r = None
           else Simulation.sim_outputAmount r = num_of_Z 0
                /\ Simulation.expectedProfit r = num_of_Z 0
                /\ Simulation.expectedProfitPercentage r = num_of_Z 0
                /\ Simulation.sim_error r <> None)
       /\ (Simulation.sim_success r = true ->
           ApiPingPong.direction (ApiPingPong.this (Simulation.strategy s))
           = ApiPingPong.pong ->
           (Simulation.expectedProfit r, Simulation.expectedProfitPercentage r)
           = match ApiPingPong.lastTrade (ApiPingPong.this (Simulation.strategy s)) with
             | Some last =>
                 let gain := num_sub (Simulation.sim_outputAmount r)
                                     (ApiPingPong.lt_inputAmount last) in
                 (gain,
                  num_mul (num_div gain (ApiPingPong.lt_inputAmount last))
                          (num_of_Z 100))
             | None => (num_of_Z 0, num_of_Z 0)
             end).
Proof.
  unfold_simulation. cbn. split_cases; cbn;
    (split; [destruct s; reflexivity|]); eexists; (split; [reflexivity|]); cbn;
    repeat split; first [discriminate | congruence].
Qed.

Lemma ArbitrageStrategy_simulate_effect (out : SdkArbitrage.Outside number)
    (inputToken outputToken : Token number) (amount : number)
    (s : Simulation.Simulated SdkArbitrage.World) :
  let '(s', c) :=
    Simulation.ArbitrageStrategy_simulate out inputToken outputToken amount s in
  Simulation.strategy s' = Simulation.strategy s
  /\ exists r,
       c = Returned r
       /\ Simulation.sim_inputAmount r = amount
       /\ Simulation.sim_success r = false
       /\ Simulation.sim_outputAmount r = num_of_Z 0
       /\ Simulation.expectedProfit r = num_of_Z 0
       /\ Simulation.expectedProfitPercentage r = num_of_Z 0
       /\ Simulation.sim_error r <> None.
Proof.
  unfold_simulation. unfold Number_of_JSBI. cbn. split_cases; cbn;
    (split; [destruct s; reflexivity|]); eexists; (split; [reflexivity|]); cbn;
    repeat split; first [discriminate | congruence].
Qed.

(** X16: [simulate] of both strategies is an observation.  It always
    returns a result (it neither throws nor ends the process), the result
    carries the input amount, and the strategy object is left as it was:
    direction, last trade, error counter and wallet.  A failed simulation
    reports zero output and zero expected profit, with an error message.
    Every simulation of [strategies/arbitrage.ts] is a failed one: without
    routes by the early return, and with routes because the conversion of
    the output amount of the route throws. *)
Theorem simulate_only_observes (inputToken outputToken : Token number)
    (amount : number) :
  (forall (out : Simulation.PingPongOutside number)
          (s : Simulation.Simulated (ApiPingPong.World number)),
      let '(s', c) :=
        Simulation.PingPongStrategy_simulate out inputToken outputToken amount s in
      Simulation.strategy s' = Simulation.strategy s
      /\ exists r,
           c = Returned r
           /\ Simulation.sim_inputAmount r = amount
           /\ (Simulation.sim_success r = false ->
               Simulation.sim_outputAmount r = num_of_Z 0
               /\ Simulation.expectedProfit r = num_of_Z 0
               /\ Simulation.expectedProfitPercentage r = num_of_Z 0
               /\ Simulation.sim_error r <> None))
  /\ (forall (out : SdkArbitrage.Outside number)
             (s : Simulation.Simulated SdkArbitrage.World),
         let '(s', c) :=
           Simulation.ArbitrageStrategy_simulate out inputToken outputToken amount s in
         Simulation.strategy s' = Simulation.strategy s
         /\ exists r,
              c = Returned r
              /\ Simulation.sim_inputAmount r = amount
              /\ Simulation.sim_success r = false
              /\ Simulation.sim_outputAmount r = num_of_Z 0
              /\ Simulation.expectedProfit r = num_of_Z 0
              /\ Simulation.expectedProfitPercentage r = num_of_Z 0
              /\ Simulation.sim_error r <> None).
Proof.
  split.
  - intros out s.
    pose proof (PingPongStrategy_simulate_effect out inputToken outputToken amount s)
      as Heffect.
    destruct (Simulation.PingPongStrategy_simulate _ _ _ _ _) as [s' c].
    destruct Heffect as (Hsame & r & Hc & Hin & Hshape & _).
    split; [exact Hsame|]. exists r. split; [exact Hc|]. split; [exact Hin|].
    intros Hfailed. rewrite Hfailed in Hshape. exact Hshape.
  - intros out s.
    pose proof (ArbitrageStrategy_simulate_effect out inputToken outputToken amount s)
      as Heffect.
    destruct (Simulation.ArbitrageStrategy_simulate _ _ _ _ _) as [s' c].
    exact Heffect.
Qed.

(** X17: when a simulation and an execution of [strategies/pingpong.ts]
    both succeed on the same strategy object and their quotes give the same
    output amount, the profit that [execute] reports in the direction pong
    is the one [simulate] expected.  In the direction ping [execute] reports
    a profit of zero whatever [simulate] expected of the round trip. *)
Theorem simulation_predicts_reported_profit (inputToken outputToken : Token number)
    (amount slippage : number)
    (sim_out : Simulation.PingPongOutside number)
    (exec_out : ApiPingPong.Outside number)
    (s : Simulation.Simulated (ApiPingPong.World number))
    (expected : Simulation.SimulationResult number) (r : TradeResult number) :
  snd (Simulation.PingPongStrategy_simulate sim_out inputToken outputToken amount s)
  = Returned expected ->
  Simulation.sim_success expected = true ->
  snd (ApiPingPong.execute exec_out inputToken outputToken amount slippage
         (Simulation.strategy s)) = Returned r ->
  success r = true ->
  Simulation.sim_outputAmount expected = outputAmount r ->
  match ApiPingPong.direction (ApiPingPong.this (Simulation.strategy s)) with
  | ApiPingPong.pong =>
      profit r = Simulation.expectedProfit expected
      /\ profitPercentage r = Simulation.expectedProfitPercentage expected
  | ApiPingPong.ping =>
      profit r = num_of_Z 0 /\ profitPercentage r = num_of_Z 0
  end.
Proof.
  intros Hsim Hok Hexec Hsuccess Hsame.
  pose proof (PingPongStrategy_simulate_effect sim_out inputToken outputToken amount s)
    as Heffect.
  destruct (Simulation.PingPongStrategy_simulate _ _ _ _ _) as [s' c].
  cbn [snd] in Hsim. subst c.
  destruct Heffect as (_ & r0 & Hr0 & _ & _ & Hpong). injection Hr0 as <-.
  pose proof (api_success_effect
                {| ApiPingPong.call_outside := exec_out;
                   ApiPingPong.call_inputToken := inputToken;
                   ApiPingPong.call_outputToken := outputToken;
                   ApiPingPong.call_amount := amount;
                   ApiPingPong.call_slippage := slippage |}
                (Simulation.strategy s) r Hexec Hsuccess) as Hreported.
  cbv zeta in Hreported. destruct Hreported as (_ & _ & _ & Hprofit).
  destruct (ApiPingPong.direction (ApiPingPong.this (Simulation.strategy s))).
  - destruct (ApiPingPong.lastTrade (ApiPingPong.this (Simulation.strategy s)));
      injection Hprofit as -> ->; split; reflexivity.
  - specialize (Hpong Hok eq_refl). rewrite Hsame in Hpong.
    destruct (ApiPingPong.lastTrade (ApiPingPong.this (Simulation.strategy s)));
      cbv zeta in *; split; congruence.
Qed.

End Simulations.
(** ** The ticks of the loop *)

Ltac unfold_bot :=
  cbv beta iota zeta delta
    [Bot.runTrading_tick Bot.runSimulation_tick Bot.on_strategy Bot.print
     Bot.eventBus_emit simulation_tick trading_tick
     bind ret try_catch lift complete process_exit get_state modify_state].

Section Loop.
Context {number : Type} {JN : JsNumber number} {W : Type}.
Implicit Types (strategy : Bot.TradingStrategy number W)
  (config : Bot.TradingConfig number) (b : Bot.World number W).

(** A tick of [runTrading], by the outcome of the simulation. *)
Lemma runTrading_tick_cases strategy config
    (listeners : Bot.BusEvent number -> Thrown + unit) b :
  Bot.runTrading_tick strategy config listeners b
  = let after w1 emitted' console' :=
      {| Bot.strategy_object := w1; Bot.emitted := emitted';
         Bot.console := console' |} in
    match Bot.simulate strategy (Bot.inputToken config) (Bot.outputToken config)
            (Bot.tradeSize config) (Bot.strategy_object b) with
    | (w1, Returned r) =>
        if clears_minimum config r
        then
          match Bot.execute strategy (Bot.inputToken config) (Bot.outputToken config)
                  (Bot.tradeSize config) (Bot.slippage config) w1 with
          | (w2, Returned result) =>
              let announced := Bot.emitted b ++ [Bot.TRADE_COMPLETE result] in
              match listeners (Bot.TRADE_COMPLETE result) with
              | inr _ => (after w2 announced (Bot.console b), Returned tt)
              | inl e =>
                  (after w2 announced (Bot.console b ++ [Bot.TradingError e]),
                   Returned tt)
              end
          | (w2, Threw e) =>
              (after w2 (Bot.emitted b) (Bot.console b ++ [Bot.TradingError e]),
               Returned tt)
          | (w2, Exited code) =>
              (after w2 (Bot.emitted b) (Bot.console b), Exited code)
          end
        else (after w1 (Bot.emitted b)
                (Bot.console b ++ [Bot.SimulationNotProfitable]), Returned tt)
    | (w1, Threw e) =>
        (after w1 (Bot.emitted b) (Bot.console b ++ [Bot.TradingError e]), Returned tt)
    | (w1, Exited code) => (after w1 (Bot.emitted b) (Bot.console b), Exited code)
    end.
Proof.
  unfold_bot. unfold clears_minimum. cbn.
  destruct (Bot.simulate _ _ _ _ _) as [w1 [r|e|code]]; cbn; [|reflexivity..].
  destruct (Simulation.sim_success r && _); cbn; [|reflexivity].
  destruct (Bot.execute _ _ _ _ _ _) as [w2 [result|e|code]]; cbn; [|reflexivity..].
  destruct (listeners _) as [e|[]]; reflexivity.
Qed.

(** A tick of [runSimulation]. *)
Lemma runSimulation_tick_cases strategy config
    (listeners : Bot.BusEvent number -> Thrown + unit) b :
  Bot.runSimulation_tick strategy config listeners b
  = let after w1 emitted' console' :=
      {| Bot.strategy_object := w1; Bot.emitted := emitted';
         Bot.console := console' |} in
    match Bot.simulate strategy (Bot.inputToken config) (Bot.outputToken config)
            (Bot.tradeSize config) (Bot.strategy_object b) with
    | (w1, Returned r) =>
        let announced := Bot.emitted b ++ [Bot.SIMULATION_COMPLETE r] in
        match listeners (Bot.SIMULATION_COMPLETE r) with
        | inr _ => (after w1 announced (Bot.console b), Returned tt)
        | inl e =>
            (after w1 announced (Bot.console b ++ [Bot.SimulationError e]),
             Returned tt)
        end
    | (w1, Threw e) =>
        (after w1 (Bot.emitted b) (Bot.console b ++ [Bot.SimulationError e]),
         Returned tt)
    | (w1, Exited code) => (after w1 (Bot.emitted b) (Bot.console b), Exited code)
    end.
Proof.
  unfold_bot. cbn.
  destruct (Bot.simulate _ _ _ _ _) as [w1 [r|e|code]]; cbn; [|reflexivity..].
  destruct (listeners _) as [e|[]]; reflexivity.
Qed.

(** Ticks of [runSimulation] with strategies whose [simulate] returns and
    leaves a part [view] of the strategy object: the run leaves that part,
    every tick returns, and every tick announces one simulation. *)
Lemma simulation_run_keeps {V : Type} (view : W -> V) config
    (ticks : list (Tick number W)) :
  (forall t inputToken outputToken amount w,
      In t ticks ->
      view (fst (Bot.simulate (tick_strategy t) inputToken outputToken amount w))
      = view w
      /\ exists r,
           snd (Bot.simulate (tick_strategy t) inputToken outputToken amount w)
           = Returned r) ->
  forall b,
    let '(b', outs) := run_calls (simulation_tick config) ticks b in
    view (Bot.strategy_object b') = view (Bot.strategy_object b)
    /\ outs = map (fun _ => Returned tt) ticks
    /\ exists results,
         Bot.emitted b' = Bot.emitted b ++ map Bot.SIMULATION_COMPLETE results
         /\ length results = length ticks.
Proof.
  induction ticks as [|t ticks IH]; intros Hsim b.
  - cbn. split; [reflexivity|]. split; [reflexivity|].
    exists []. cbn. rewrite app_nil_r. split; reflexivity.
  - cbn [run_calls map]. unfold simulation_tick at 1.
    rewrite runSimulation_tick_cases. cbv zeta.
    destruct (Hsim t (Bot.inputToken config) (Bot.outputToken config)
                (Bot.tradeSize config) (Bot.strategy_object b) (or_introl eq_refl))
      as [Hview [r Hr]].
    destruct (Bot.simulate _ _ _ _ _) as [w1 c]. cbn [fst snd] in Hview, Hr. subst c.
    assert (Hrest : forall t0 inputToken outputToken amount w,
              In t0 ticks ->
              view (fst (Bot.simulate (tick_strategy t0) inputToken outputToken amount w))
              = view w
              /\ exists r0,
                   snd (Bot.simulate (tick_strategy t0) inputToken outputToken amount w)
                   = Returned r0)
      by (intros t0 i o a w Hin; apply Hsim; right; exact Hin).
    destruct (tick_listeners t (Bot.SIMULATION_COMPLETE r)) as [e|[]];
      match goal with
      | |- context [run_calls (simulation_tick config) ticks ?b1] =>
          specialize (IH Hrest b1)
      end;
      destruct (run_calls (simulation_tick config) ticks _) as [b' outs];
      cbn [Bot.strategy_object Bot.emitted] in IH;
      destruct IH as (Hkept & -> & results & Hemitted & Hlength);
      (split; [congruence|]); (split; [reflexivity|]);
      exists (r :: results); cbn [map length];
      rewrite Hemitted, <- app_assoc, Hlength; split; reflexivity.
Qed.

End Loop.

Section ApiLoop.
Context {number : Type} {JN : JsNumber number}.

Lemma api_execute_never_throws (out : ApiPingPong.Outside number)
    (inputToken outputToken : Token number) (amount slippage : number)
    (w : ApiPingPong.World number) :
  match snd (ApiPingPong.execute out inputToken outputToken amount slippage w) with
  | Threw _ => False
  | _ => True
  end.
Proof.
  unfold_api. cbn -[Z.add]. split_cases; cbn -[Z.add]; exact I.
Qed.

(** X18: a tick of [runTrading] on the strategy of [strategies/pingpong.ts]
    never throws.  The simulation gives a result; when it failed or its
    expected percentage is below the minimum, the tick calls nothing else:
    direction, last trade, error counter and wallet are as before and no
    event is emitted.  Otherwise the tick is the call of [execute] on the
    strategy object as it was: it ends the process exactly when that call
    does, and it emits the result of the call when it returns one. *)
Theorem trading_tick_trades_only_above_minimum
    (sim_out : Simulation.PingPongOutside number)
    (exec_out : ApiPingPong.Outside number)
    (listeners : Bot.BusEvent number -> Thrown + unit)
    (config : Bot.TradingConfig number)
    (b : Bot.World number (Simulation.Simulated (ApiPingPong.World number))) :
  let before := Simulation.strategy (Bot.strategy_object b) in
  let run_simulate :=
    Simulation.PingPongStrategy_simulate sim_out (Bot.inputToken config)
      (Bot.outputToken config) (Bot.tradeSize config) (Bot.strategy_object b) in
  let run_execute :=
    ApiPingPong.execute exec_out (Bot.inputToken config) (Bot.outputToken config)
      (Bot.tradeSize config) (Bot.slippage config) before in
  let '(b', c) :=
    Bot.runTrading_tick (api_strategy sim_out exec_out) config listeners b in
  (forall e, c <> Threw e)
  /\ exists r,
       snd run_simulate = Returned r
       /\ if clears_minimum config r
          then Simulation.strategy (Bot.strategy_object b') = fst run_execute
               /\ match snd run_execute with
                  | Returned result =>
                      c = Returned tt
                      /\ Bot.emitted b' = Bot.emitted b ++ [Bot.TRADE_COMPLETE result]
                  | Threw _ => False
                  | Exited code => c = Exited code /\ Bot.emitted b' = Bot.emitted b
                  end
          else c = Returned tt
               /\ Simulation.strategy (Bot.strategy_object b') = before
               /\ Bot.emitted b' = Bot.emitted b
               /\ Bot.console b' = Bot.console b ++ [Bot.SimulationNotProfitable].
Proof.
  intros before run_simulate run_execute. subst before run_simulate run_execute.
  rewrite runTrading_tick_cases. cbv zeta. cbn [api_strategy Bot.simulate Bot.execute].
  pose proof (PingPongStrategy_simulate_effect sim_out (Bot.inputToken config)
                (Bot.outputToken config) (Bot.tradeSize config) (Bot.strategy_object b))
    as Heffect.
  destruct (Simulation.PingPongStrategy_simulate _ _ _ _ _) as [s1 c1].
  destruct Heffect as (Hsame & r & -> & _). cbn [snd].
  destruct (clears_minimum config r) eqn:Hgate.
  - unfold Simulation.in_strategy. rewrite Hsame.
    pose proof (api_execute_never_throws exec_out (Bot.inputToken config)
                  (Bot.outputToken config) (Bot.tradeSize config) (Bot.slippage config)
                  (Simulation.strategy (Bot.strategy_object b))) as Hnothrow.
    destruct (ApiPingPong.execute _ _ _ _ _ _) as [w2 [result|e|code]];
      cbn [fst snd] in *.
    + destruct (listeners _) as [e|[]]; (split; [discriminate|]);
        exists r; (split; [reflexivity|]); rewrite Hgate; repeat split.
    + contradiction.
    + split; [discriminate|]. exists r. split; [reflexivity|].
      rewrite Hgate. repeat split.
  - split; [discriminate|]. exists r. split; [reflexivity|].
    rewrite Hgate. repeat split. exact Hsame.
Qed.

(** X19: in simulation mode nothing is traded.  Along every run of ticks
    of [runSimulation], with either strategy and whatever the quote
    service, the clock and the listeners do, the strategy object stays as it
    was, every tick returns, and every tick emits one simulation result. *)
Theorem simulation_mode_never_trades (config : Bot.TradingConfig number) :
  (forall ticks b,
      let '(b', outs) := run_calls (simulation_tick config) (map api_tick ticks) b in
      Simulation.strategy (Bot.strategy_object b')
      = Simulation.strategy (Bot.strategy_object b)
      /\ outs = map (fun _ => Returned tt) ticks
      /\ exists results,
           Bot.emitted b' = Bot.emitted b ++ map Bot.SIMULATION_COMPLETE results
           /\ length results = length ticks)
  /\ (forall ticks b,
         let '(b', outs) := run_calls (simulation_tick config) (map sdk_tick ticks) b in
         Simulation.strategy (Bot.strategy_object b')
         = Simulation.strategy (Bot.strategy_object b)
         /\ outs = map (fun _ => Returned tt) ticks
         /\ exists results,
              Bot.emitted b' = Bot.emitted b ++ map Bot.SIMULATION_COMPLETE results
              /\ length results = length ticks).
Proof.
  split; intros ticks b.
  - pose proof (simulation_run_keeps Simulation.strategy config (map api_tick ticks))
      as Hrun.
    rewrite !length_map, map_map in Hrun. apply Hrun.
    intros t inputToken outputToken amount w Hin.
    apply in_map_iff in Hin as ([[sim_out exec_out] listeners] & <- & _).
    cbn [api_tick tick_strategy api_strategy Bot.simulate].
    pose proof (PingPongStrategy_simulate_effect sim_out inputToken outputToken amount w)
      as Heffect.
    destruct (Simulation.PingPongStrategy_simulate _ _ _ _ _) as [s' c].
    destruct Heffect as (Hsame & r & -> & _).
    split; [exact Hsame | exists r; reflexivity].
  - pose proof (simulation_run_keeps Simulation.strategy config (map sdk_tick ticks))
      as Hrun.
    rewrite !length_map, map_map in Hrun. apply Hrun.
    intros t inputToken outputToken amount w Hin.
    apply in_map_iff in Hin as ([[sim_out exec_out] listeners] & <- & _).
    cbn [sdk_tick tick_strategy sdk_strategy Bot.simulate].
    pose proof (ArbitrageStrategy_simulate_effect sim_out inputToken outputToken amount w)
      as Heffect.
    destruct (Simulation.ArbitrageStrategy_simulate _ _ _ _ _) as [s' c].
    destruct Heffect as (Hsame & r & -> & _).
    split; [exact Hsame | exists r; reflexivity].
Qed.

End ApiLoop.
(** The theorem after a first trade of 100 USDC: the simulation and the
    execution of a second trade, on the same quote, agree on a profit
    of 1. *)
Lemma simulation_predicts_reported_profit_witness :
  let s := {| Simulation.strategy := fst (ApiPingPong.call good_call api_fresh);
              Simulation.simulation_errors := [] |} in
  exists expected r,
    snd (Simulation.PingPongStrategy_simulate
           (example_simulation (quote_of "101000000000") (quote_of "101000000"))
           USDC SOL (Fin 100) s) = Returned expected
    /\ snd (ApiPingPong.execute (api_outside (quote_of "101000000000"))
              USDC SOL (Fin 100) (Fin 50) (Simulation.strategy s)) = Returned r
    /\ profit r = Simulation.expectedProfit expected
    /\ profit r = Fin 1.
Proof.
  intros s. eexists. eexists.
  split; [vm_compute; reflexivity|]. split; [vm_compute; reflexivity|].
  split; [|reflexivity].
  refine (proj1 (simulation_predicts_reported_profit USDC SOL (Fin 100) (Fin 50)
                   (example_simulation (quote_of "101000000000") (quote_of "101000000"))
                   (api_outside (quote_of "101000000000")) s _ _ _ _ _ _ _));
    vm_compute; reflexivity.
Defined.

(** A tick whose round trip is expected to give 101 for 100 trades; one
    whose round trip is expected to give 100.2 does not, and leaves the
    strategy as it was. *)
Example trading_tick_trades :
  let '(b', c) :=
    trading_tick example_config
      (example_tick (quote_of "101000000000") (quote_of "101000000")) example_bot in
  c = Returned tt
  /\ ApiPingPong.direction (ApiPingPong.this (Simulation.strategy (Bot.strategy_object b')))
     = ApiPingPong.pong
  /\ length (Bot.emitted b') = 1%nat
  /\ Bot.console b' = [].
Proof. vm_compute. repeat split; reflexivity. Qed.

Example trading_tick_skips :
  trading_tick example_config
    (example_tick (quote_of "101000000000") (quote_of "100200000")) example_bot
  = ({| Bot.strategy_object := Bot.strategy_object example_bot;
        Bot.emitted := [];
        Bot.console := [Bot.SimulationNotProfitable] |}, Returned tt).
Proof. vm_compute. reflexivity. Qed.

(** ** Configuration *)

Section Objects.
Implicit Types (fields entries output : list (string * Config.Json))
  (key : string) (value target : Config.Json).

Lemma get_set_eq fields key value :
  Config.get (Config.set fields key value) key = Some value.
Proof.
  induction fields as [|[k v] rest IH]; cbn.
  - rewrite String.eqb_refl. reflexivity.
  - destruct (String.eqb k key) eqn:E; cbn; rewrite E; [reflexivity | exact IH].
Qed.

Lemma get_set_ne fields key other value :
  other <> key -> Config.get (Config.set fields key value) other = Config.get fields other.
Proof.
  intros Hne. induction fields as [|[k v] rest IH]; cbn.
  - destruct (String.eqb_spec key other); [congruence | reflexivity].
  - destruct (String.eqb_spec k key) as [->|Hk]; cbn.
    + destruct (String.eqb_spec key other); [congruence | reflexivity].
    + destruct (String.eqb k other); [reflexivity | exact IH].
Qed.

Lemma get_absent fields key :
  ~ In key (map fst fields) -> Config.get fields key = None.
Proof.
  induction fields as [|[k v] rest IH]; cbn; [reflexivity|].
  intros Hnot. destruct (String.eqb_spec k key) as [->|Hk].
  - exfalso. apply Hnot. left. reflexivity.
  - apply IH. intros Hin. apply Hnot. right. exact Hin.
Qed.

Lemma get_assign_eq output key value :
  Config.get (Config.assign output key value) key
  = match Config.get output key with
    | Some _ => Some value
    | None => if String.eqb key "__proto__" then None else Some value
    end.
Proof.
  unfold Config.assign.
  destruct (Config.get output key) eqn:Hown; [apply get_set_eq|].
  destruct (String.eqb key "__proto__"); [exact Hown | apply get_set_eq].
Qed.

Lemma get_assign_ne output key other value :
  other <> key ->
  Config.get (Config.assign output key value) other = Config.get output other.
Proof.
  intros Hne. unfold Config.assign.
  destruct (Config.get output key); [apply get_set_ne; exact Hne|].
  destruct (String.eqb key "__proto__"); [reflexivity | apply get_set_ne; exact Hne].
Qed.

Lemma mergeConfigs_objects target entries :
  Config.mergeConfigs target (Config.JObj entries)
  = if Config.isObject target
    then Config.JObj (forEach target entries (Config.spread target))
    else Config.JObj (Config.spread target).
Proof.
  cbn [Config.mergeConfigs]. destruct (Config.isObject target); [|reflexivity].
  f_equal. generalize (Config.spread target).
  induction entries as [|[k v] rest IH]; intros output; [reflexivity|].
  cbn [forEach]. rewrite <- IH. reflexivity.
Qed.

(** The properties after the loop, when it starts from the own properties
    of the target: those of the source, merged, and the others as they
    were. *)
Lemma forEach_get fields entries :
  NoDup (map fst entries) ->
  forall output key,
    Config.get output key = Config.get fields key ->
    Config.get (forEach (Config.JObj fields) entries output) key
    = match Config.get entries key with
      | Some value => merged_value (Config.get fields key) key value
      | None => Config.get fields key
      end.
Proof.
  induction entries as [|[k v] rest IH]; intros Hnodup output key Hsame;
    [exact Hsame|].
  cbn [map fst] in Hnodup. apply NoDup_cons in Hnodup as [Hfresh Hrest].
  cbn [forEach Config.get Config.property].
  destruct (String.eqb_spec k key) as [->|Hne].
  - assert (Habsent : Config.get rest key = None)
      by (apply get_absent; intros Hin; apply Hfresh, list_elem_of_In; exact Hin).
    assert (Hstays : forall output',
              Config.get (forEach (Config.JObj fields) rest output') key
              = Config.get output' key).
    { intros output'. clear IH Hsame.
      revert output'. induction rest as [|[k' v'] rest' IH']; intros output';
        [reflexivity|].
      cbn [map fst] in Hrest, Hfresh. apply NoDup_cons in Hrest as [_ Hrest'].
      cbn [Config.get] in Habsent.
      destruct (String.eqb_spec k' key) as [->|Hk']; [discriminate Habsent|].
      cbn [forEach]. rewrite IH'; [|rewrite not_elem_of_cons in Hfresh; tauto
                                   |exact Hrest'|exact Habsent].
      cbn [Config.property].
      destruct v'; try (apply get_assign_ne; congruence).
      destruct (Config.get fields k'); [apply get_assign_ne; congruence|].
      destruct (Config.is_inherited k'); apply get_assign_ne; congruence. }
    rewrite Hstays. unfold merged_value.
    destruct v; rewrite ?get_assign_eq, ?Hsame;
      try (destruct (Config.get fields key); reflexivity).
    destruct (Config.get fields key) eqn:Hown.
    + rewrite get_assign_eq, Hsame, ?Hown. reflexivity.
    + destruct (Config.is_inherited key); rewrite get_assign_eq, Hsame, ?Hown;
        reflexivity.
  - apply IH; [exact Hrest|]. rewrite <- Hsame.
    destruct v; try (apply get_assign_ne; congruence).
    destruct (Config.get fields k); [apply get_assign_ne; congruence|].
    destruct (Config.is_inherited k); apply get_assign_ne; congruence.
Qed.

(** X20: [mergeConfigs] on two objects is a deep merge of their own
    properties.  A key that the source does not have keeps the value of the
    target.  A key of the source gets the value of the source, except that
    an object of the source under a key that the target has is merged into
    the value of the target, that an object of the source under a name that
    the target inherits from [Object.prototype] is replaced by the empty
    object, and that nothing is stored under the key [__proto__] when the
    target does not have it. *)
Theorem mergeConfigs_is_a_deep_merge fields entries key :
  NoDup (map fst entries) ->
  Config.property (Config.mergeConfigs (Config.JObj fields) (Config.JObj entries)) key
  = match Config.get entries key with
    | Some value => merged_value (Config.get fields key) key value
    | None => Config.get fields key
    end.
Proof.
  intros Hnodup. rewrite mergeConfigs_objects. cbn [Config.isObject Config.property].
  apply (forEach_get _ _ Hnodup). reflexivity.
Qed.

(** X21: what [mergeConfigs] does not merge.  A source that is not an
    object (an array, a string, a number, [null]) is ignored: the result is
    the copy of the target.  An object of the source that meets a number, a
    boolean or [null] in the target is dropped, and the empty object is
    stored in its place. *)
Theorem mergeConfigs_outside_objects :
  (forall target source,
      Config.isObject source = false ->
      Config.mergeConfigs target source = Config.JObj (Config.spread target))
  /\ (forall fields entries key inner inside,
         NoDup (map fst entries) ->
         Config.get fields key = Some inner ->
         Config.spread inner = [] -> Config.isObject inner = false ->
         Config.get entries key = Some (Config.JObj inside) ->
         Config.property
           (Config.mergeConfigs (Config.JObj fields) (Config.JObj entries)) key
         = Some (Config.JObj [])).
Proof.
  split.
  - intros target source Hsource.
    destruct source; try reflexivity. discriminate Hsource.
  - intros fields entries key inner inside Hnodup Htarget Hempty Hprimitive Hsource.
    rewrite mergeConfigs_objects. cbn [Config.isObject Config.property].
    rewrite (forEach_get _ _ Hnodup) by reflexivity. rewrite Hsource.
    rewrite Htarget. unfold merged_value.
    rewrite mergeConfigs_objects, Hprimitive, Hempty. reflexivity.
Qed.

(** X22: [verifyConfig] on an object prints and returns [false] as soon as
    one of the seven required keys is absent or has a falsy value, so that
    a minimum profit or a slippage of zero is rejected like a missing key;
    it returns [true] only when every required key has a truthy value. *)
Theorem verifyConfig_rejects_falsy_values fields (console : list Config.LogLine) :
  let '(console', c) := Config.verifyConfig (Config.JObj fields) console in
  (forall key, In key Config.requiredKeys ->
     Config.falsy_property (Config.JObj fields) key = true ->
     c = Returned false
     /\ exists missingKeys,
          console' = console ++ [Config.MissingRequiredKeys missingKeys]
          /\ In key missingKeys)
  /\ (c = Returned true ->
      console' = console
      /\ forall key, In key Config.requiredKeys ->
           exists value, Config.get fields key = Some value
                         /\ Config.truthy value = true)
  /\ (c = Returned true \/ c = Returned false).
Proof.
  unfold Config.verifyConfig, bind, ret, modify_state.
  set (missingKeys := filter (Config.falsy_property (Config.JObj fields))
                        Config.requiredKeys).
  assert (Hmissing : forall key, In key missingKeys
                     <-> In key Config.requiredKeys
                         /\ Config.falsy_property (Config.JObj fields) key = true).
  { intros key. unfold missingKeys.
    rewrite <- !list_elem_of_In, list_elem_of_filter. rewrite Is_true_true. tauto. }
  destruct missingKeys as [|first others] eqn:Hkeys; cbn [length Nat.ltb Nat.leb].
  - split; [|split; [|left; reflexivity]].
    + intros key Hrequired Hfalsy. exfalso.
      exact (proj2 (Hmissing key) (conj Hrequired Hfalsy)).
    + intros _. split; [reflexivity|].
      intros key Hrequired.
      destruct (Config.falsy_property (Config.JObj fields) key) eqn:Hfalsy.
      * exfalso. exact (proj2 (Hmissing key) (conj Hrequired Hfalsy)).
      * unfold Config.falsy_property in Hfalsy. cbn [Config.property] in Hfalsy.
        destruct (Config.get fields key) as [value|]; [|discriminate Hfalsy].
        exists value. split; [reflexivity|].
        apply negb_false_iff. exact Hfalsy.
  - split; [|split; [|right; reflexivity]].
    + intros key Hrequired Hfalsy. split; [reflexivity|].
      exists (first :: others). split; [reflexivity|].
      apply Hmissing. split; assumption.
    + discriminate.
Qed.

End Objects.

(** The theorem at the configuration of the examples: the strategy of the
    file wins, the minimum profit of the defaults stays. *)
Lemma mergeConfigs_is_a_deep_merge_witness :
  Config.property
    (Config.mergeConfigs example_defaults example_file) "trading"
  = Some (Config.JObj [("strategy", Config.JStr "pingpong");
                       ("tradeSize", Config.JObj []);
                       ("minPercProfit", Config.JNum (1 # 10))])
  /\ Config.property
       (Config.mergeConfigs example_defaults example_file) "onlyDirectRoutes"
     = Some (Config.JBool false).
Proof.
  assert (Hnodup : NoDup (map fst [("trading",
                     Config.JObj [("strategy", Config.JStr "pingpong");
                                  ("tradeSize",
                                   Config.JObj [("value", Config.JNum 5)])])])).
  { cbn. apply NoDup_singleton. }
  split.
  - exact (mergeConfigs_is_a_deep_merge _ _ "trading" Hnodup).
  - exact (mergeConfigs_is_a_deep_merge _ _ "onlyDirectRoutes" Hnodup).
Defined.

(** Keys of the source that are names of [Object.prototype]: an object
    under [toString] is replaced by the empty object, a number under
    [valueOf] is stored, and nothing is stored under [__proto__]. *)
Example mergeConfigs_inherited_names :
  let merged :=
    Config.mergeConfigs (Config.JObj [("network", Config.JStr "mainnet")])
      (Config.JObj [("toString", Config.JObj [("radix", Config.JNum 2)]);
                    ("valueOf", Config.JNum 1);
                    ("__proto__", Config.JObj [("network", Config.JStr "devnet")])]) in
  merged
  = Config.JObj [("network", Config.JStr "mainnet");
                 ("toString", Config.JObj []);
                 ("valueOf", Config.JNum 1)].
Proof. vm_compute. reflexivity. Qed.

(** A configuration that has every required key, with a minimum profit of
    zero: it is rejected. *)
Example verifyConfig_rejects_zero_profit :
  Config.verifyConfig
    (Config.JObj [("network", Config.JStr "mainnet"); ("rpc", Config.JArr []);
                  ("tradingStrategy", Config.JStr "pingpong");
                  ("tokens", Config.JObj []); ("tradeSize", Config.JNum 1);
                  ("minPercProfit", Config.JNum 0); ("slippage", Config.JNum 1)]) []
  = ([Config.MissingRequiredKeys ["minPercProfit"]], Returned false).
Proof. vm_compute. reflexivity. Qed.

(** The theorem at a trade size that the defaults give as a number and the
    file as an object. *)
Lemma mergeConfigs_outside_objects_witness :
  Config.property
    (Config.mergeConfigs
       (Config.JObj [("tradeSize", Config.JNum 1)])
       (Config.JObj [("tradeSize", Config.JObj [("value", Config.JNum 5)])]))
    "tradeSize"
  = Some (Config.JObj []).
Proof.
  apply (proj2 mergeConfigs_outside_objects
           [("tradeSize", Config.JNum 1)]
           [("tradeSize", Config.JObj [("value", Config.JNum 5)])]
           "tradeSize" (Config.JNum 1) [("value", Config.JNum 5)]);
    try reflexivity.
  cbn. apply NoDup_singleton.
Defined.

(** ** The plugin loader *)

Ltac unfold_loader :=
  cbv beta iota zeta delta
    [PluginLoader.print bind ret try_catch lift complete get_state modify_state].

Section Loader.
Implicit Types (entries : list (string * PluginLoader.Plugin))
  (w : PluginLoader.World) (out : PluginLoader.Outside).

Lemma loader_set_keys_known entries (key : string) (p : PluginLoader.Plugin) :
  In key (map fst entries) ->
  map fst (PluginLoader.set entries key p) = map fst entries.
Proof.
  induction entries as [|[k q] rest IH]; cbn [PluginLoader.set map fst];
    intros Hin; [destruct Hin|].
  destruct (String.eqb_spec k key) as [->|Hne]; cbn [map fst]; [reflexivity|].
  destruct Hin as [Heq|Hin]; [congruence|]. rewrite (IH Hin). reflexivity.
Qed.

Lemma loader_set_keys_new entries (key : string) (p : PluginLoader.Plugin) :
  ~ In key (map fst entries) ->
  map fst (PluginLoader.set entries key p) = map fst entries ++ [key].
Proof.
  induction entries as [|[k q] rest IH]; cbn [PluginLoader.set map fst];
    intros Hnot; [reflexivity|].
  destruct (String.eqb_spec k key) as [->|Hne]; cbn [map fst].
  - exfalso. apply Hnot. left. reflexivity.
  - rewrite IH; [reflexivity|]. intros Hin. apply Hnot. right. exact Hin.
Qed.

Lemma loader_set_keyed entries (p : PluginLoader.Plugin) :
  keyed_by_id entries -> keyed_by_id (PluginLoader.set entries (PluginLoader.id p) p).
Proof.
  intros [Hnodup Hkeys]. split.
  - destruct (in_dec String.string_dec (PluginLoader.id p) (map fst entries))
      as [Hin|Hnot].
    + rewrite (loader_set_keys_known _ _ _ Hin). exact Hnodup.
    + rewrite (loader_set_keys_new _ _ _ Hnot).
      apply NoDup_app. split; [exact Hnodup|]. split; [|apply NoDup_singleton].
      intros key Hin Hnew. apply list_elem_of_singleton in Hnew. subst key.
      apply Hnot, list_elem_of_In. exact Hin.
  - clear Hnodup. induction entries as [|[k q] rest IH]; cbn [PluginLoader.set].
    + repeat constructor.
    + apply Forall_cons in Hkeys as [Hk Hrest].
      destruct (String.eqb_spec k (PluginLoader.id p)) as [->|Hne].
      * constructor; [reflexivity | exact Hrest].
      * constructor; [exact Hk | exact (IH Hrest)].
Qed.

Lemma loader_set_registers entries (key other : string) (p : PluginLoader.Plugin) :
  other = key \/ In other (map fst entries) ->
  In other (map fst (PluginLoader.set entries key p)).
Proof.
  intros Hin.
  destruct (in_dec String.string_dec key (map fst entries)) as [Hknown|Hnew].
  - rewrite (loader_set_keys_known _ _ _ Hknown).
    destruct Hin as [->|Hin]; assumption.
  - rewrite (loader_set_keys_new _ _ _ Hnew). apply in_or_app.
    destruct Hin as [->|Hin]; [right; left; reflexivity | left; exact Hin].
Qed.

(** The loop of [loadPlugins]: it returns, asks [require] for every file
    in turn, keeps the map keyed, and a plugin that it has loaded stays
    known under its identifier. *)
Lemma load_loop_effect out (pluginsDir : string) (files : list string) :
  forall w,
    let '(w', c) := PluginLoader.load_loop out pluginsDir files w in
    c = Returned tt
    /\ PluginLoader.executed w' = PluginLoader.executed w
    /\ PluginLoader.required w'
       = PluginLoader.required w ++ map (PluginLoader.path_join out pluginsDir) files
    /\ (keyed_by_id (PluginLoader.plugins w) -> keyed_by_id (PluginLoader.plugins w'))
    /\ (forall key, In key (map fst (PluginLoader.plugins w)) ->
                    In key (map fst (PluginLoader.plugins w')))
    /\ (forall file plugin,
          In file files ->
          PluginLoader.require out (PluginLoader.path_join out pluginsDir file)
          = inr (Some plugin) ->
          In (PluginLoader.id plugin) (map fst (PluginLoader.plugins w'))).
Proof.
  induction files as [|file rest IH]; intros w.
  - cbn. rewrite app_nil_r. do 3 (split; [reflexivity|]).
    split; [tauto|]. split; [tauto|]. intros file plugin [].
  - cbn [PluginLoader.load_loop]. unfold_loader. cbn [PluginLoader.plugins
      PluginLoader.console PluginLoader.required PluginLoader.executed].
    destruct (PluginLoader.require out (PluginLoader.path_join out pluginsDir file))
      as [err|[plugin|]] eqn:Hrequire;
      match goal with
      | |- context [PluginLoader.load_loop out pluginsDir rest ?w1] =>
          specialize (IH w1)
      end;
      destruct (PluginLoader.load_loop out pluginsDir rest _) as [w' c];
      cbn [PluginLoader.plugins PluginLoader.console PluginLoader.required
           PluginLoader.executed] in IH;
      destruct IH as (Hc & Hexecuted & Hrequired & Hkeyed & Hkept & Hloaded);
      (split; [exact Hc|]); (split; [exact Hexecuted|]);
      (split; [rewrite Hrequired, <- app_assoc; reflexivity|]).
    + split; [exact Hkeyed|]. split; [exact Hkept|].
      intros file0 plugin0 [<-|Hin] Hok; [congruence | eauto].
    + split; [intros Hw; apply Hkeyed, loader_set_keyed, Hw|].
      split; [intros key Hin; apply Hkept, loader_set_registers; right; exact Hin|].
      intros file0 plugin0 [<-|Hin] Hok; [|eauto].
      rewrite Hrequire in Hok. injection Hok as <-.
      apply Hkept, loader_set_registers. left. reflexivity.
    + split; [exact Hkeyed|]. split; [exact Hkept|].
      intros file0 plugin0 [<-|Hin] Hok; [congruence | eauto].
Qed.

(** X23: [loadPlugins] always returns.  When the directory can be read, it
    asks [require] for every file that ends in [.js] or [.ts], in the order
    of the directory, and for no other file; a file that fails to load does
    not keep the files after it from being loaded, and every plugin that
    loads is known under its identifier afterwards.  The map stays keyed by
    the identifiers, without duplicates, and no plugin is executed. *)
Theorem loadPlugins_isolates_broken_files out (pluginsDir : string) w :
  let '(w', c) := PluginLoader.loadPlugins out pluginsDir w in
  c = Returned tt
  /\ PluginLoader.executed w' = PluginLoader.executed w
  /\ (keyed_by_id (PluginLoader.plugins w) -> keyed_by_id (PluginLoader.plugins w'))
  /\ match PluginLoader.existsSync out pluginsDir,
           PluginLoader.readdirSync out pluginsDir with
     | true, inr entries =>
         let files := List.filter is_plugin_file entries in
         PluginLoader.required w'
         = PluginLoader.required w ++ map (PluginLoader.path_join out pluginsDir) files
         /\ forall file plugin,
              In file files ->
              PluginLoader.require out (PluginLoader.path_join out pluginsDir file)
              = inr (Some plugin) ->
              In (PluginLoader.id plugin) (map fst (PluginLoader.plugins w'))
     | _, _ =>
         PluginLoader.required w' = PluginLoader.required w
         /\ PluginLoader.plugins w' = PluginLoader.plugins w
     end.
Proof.
  unfold PluginLoader.loadPlugins. unfold_loader.
  destruct (PluginLoader.existsSync out pluginsDir); cbn [negb];
    [|cbn; do 2 (split; [reflexivity|]); split; [exact (fun Hw => Hw)|];
      split; reflexivity].
  destruct (PluginLoader.readdirSync out pluginsDir) as [err|entries];
    [cbn; do 2 (split; [reflexivity|]); split; [exact (fun Hw => Hw)|];
     split; reflexivity|].
  fold is_plugin_file.
  pose proof (load_loop_effect out pluginsDir (List.filter is_plugin_file entries) w)
    as Hloop.
  change (fun file : string =>
            PluginLoader.endsWith file ".js" || PluginLoader.endsWith file ".ts")
    with is_plugin_file.
  destruct (PluginLoader.load_loop out pluginsDir _ w) as [w1 c1].
  destruct Hloop as (-> & Hexecuted & Hrequired & Hkeyed & _ & Hloaded).
  cbn. split; [reflexivity|]. split; [exact Hexecuted|]. split; [exact Hkeyed|].
  split; [exact Hrequired | exact Hloaded].
Qed.

(** The loop of [executePlugins]. *)
Lemma execute_loop_effect entries :
  forall w,
    let '(w', c) := PluginLoader.execute_loop entries w in
    c = Returned tt
    /\ PluginLoader.plugins w' = PluginLoader.plugins w
    /\ PluginLoader.required w' = PluginLoader.required w
    /\ PluginLoader.executed w'
       = PluginLoader.executed w
         ++ map PluginLoader.id (List.filter PluginLoader.enabled (map snd entries))
    /\ PluginLoader.console w' = PluginLoader.console w ++ execution_errors entries.
Proof.
  induction entries as [|[key plugin] rest IH]; intros w.
  - cbn. rewrite !app_nil_r. repeat split.
  - cbn [PluginLoader.execute_loop map snd List.filter execution_errors flat_map].
    unfold_loader.
    destruct (PluginLoader.enabled plugin);
      [destruct (PluginLoader.execute plugin) as [err|[]]|];
      cbn [PluginLoader.plugins PluginLoader.console PluginLoader.required
           PluginLoader.executed map app];
      match goal with
      | |- context [PluginLoader.execute_loop rest ?w1] => specialize (IH w1)
      end;
      destruct (PluginLoader.execute_loop rest _) as [w' c];
      cbn [PluginLoader.plugins PluginLoader.console PluginLoader.required
           PluginLoader.executed] in IH;
      destruct IH as (Hc & Hplugins & Hrequired & Hexecuted & Hconsole);
      fold (execution_errors rest);
      rewrite Hexecuted, Hconsole, <- ?app_assoc; repeat split; assumption.
Qed.

(** X24: [executePlugins] returns to its caller whatever the plugins do.
    It calls [execute] on the plugins that [getEnabledPlugins] lists, in the
    order of the map, and on no disabled plugin; a plugin whose [execute]
    throws gets one line on the console and the plugins after it are still
    executed. *)
Theorem executePlugins_runs_every_enabled_plugin w :
  let '(w', c) := PluginLoader.executePlugins w in
  c = Returned tt
  /\ PluginLoader.plugins w' = PluginLoader.plugins w
  /\ PluginLoader.executed w'
     = PluginLoader.executed w
       ++ map PluginLoader.id (PluginLoader.getEnabledPlugins w)
  /\ PluginLoader.console w'
     = PluginLoader.console w ++ execution_errors (PluginLoader.plugins w).
Proof.
  unfold PluginLoader.executePlugins, bind, get_state.
  pose proof (execute_loop_effect (PluginLoader.plugins w) w) as Hloop.
  destruct (PluginLoader.execute_loop _ w) as [w' c].
  destruct Hloop as (Hc & Hplugins & _ & Hexecuted & Hconsole).
  repeat split; assumption.
Qed.

End Loader.

(** The directory of the examples: the file that is not a module is not
    required, the module that throws is reported, and the two plugins are
    loaded; then both are executed although the second one throws. *)
Example loadPlugins_then_executePlugins :
  let '(loaded, c) := PluginLoader.loadPlugins example_directory "plugins" empty_loader in
  c = Returned tt
  /\ PluginLoader.required loaded
     = ["plugins/logger.js"; "plugins/broken.ts"; "plugins/notify.ts"]
  /\ map fst (PluginLoader.plugins loaded) = ["logger"; "notify"]
  /\ PluginLoader.console loaded
     = [PluginLoader.PluginLoaded "logger" "logger";
        PluginLoader.FailedToLoad "broken.ts" (ErrorObject "Unexpected token");
        PluginLoader.PluginLoaded "notify" "notify";
        PluginLoader.LoadedPlugins 2]
  /\ let '(ran, c') := PluginLoader.executePlugins loaded in
     c' = Returned tt
     /\ PluginLoader.executed ran = ["logger"; "notify"].
Proof. vm_compute. repeat split; reflexivity. Qed.

(** ** The wallet and the balances *)

(** X25: [loadWallet] never throws.  It returns a key pair exactly when a
    non-empty key is given or found in the environment, the given key
    first, and that key decodes; then it prints nothing.  In every other
    case it prints one line and returns [null]. *)
Theorem loadWallet_never_throws (out : Wallet.Outside) (env privateKey : option string)
    (console : list Wallet.LogLine) :
  let '(console', c) := Wallet.loadWallet out env privateKey console in
  exists wallet,
    c = Returned wallet
    /\ match wallet with
       | Some keypair =>
           console' = console
           /\ exists key,
                Wallet.or_else privateKey env = Some key /\ key <> ""
                /\ Wallet.createKeypairFromPrivateKey out (inl key) = inr keypair
       | None =>
           (exists line, console' = console ++ [line])
           /\ forall key keypair,
                Wallet.or_else privateKey env = Some key -> key <> "" ->
                Wallet.createKeypairFromPrivateKey out (inl key) <> inr keypair
       end.
Proof.
  unfold Wallet.loadWallet, bind, try_catch, lift, ret, modify_state.
  destruct (Wallet.or_else privateKey env) as [key|] eqn:Hkey.
  - destruct (String.eqb_spec key "") as [->|Hne].
    + exists None. split; [reflexivity|]. split; [eexists; reflexivity|].
      intros key keypair Hsome Hne. congruence.
    + destruct (Wallet.createKeypairFromPrivateKey out (inl key)) as [e|keypair] eqn:Hmake.
      * exists None. split; [reflexivity|]. split; [eexists; reflexivity|].
        intros key0 keypair Hsome _. injection Hsome as <-. congruence.
      * exists (Some keypair). split; [reflexivity|]. split; [reflexivity|].
        exists key. repeat split; assumption.
  - exists None. split; [reflexivity|]. split; [eexists; reflexivity|].
    intros key keypair Hsome. discriminate Hsome.
Qed.

(** A key that does not decode, and no key at all. *)
Example loadWallet_reports :
  Wallet.loadWallet example_keys (Some "3nVfDq5sLYTiSKGt") (Some "not base58!") []
  = ([Wallet.ErrorLoadingWallet (ErrorObject "Non-base58 character")], Returned None)
  /\ Wallet.loadWallet example_keys (Some "") None []
     = ([Wallet.NoPrivateKeyProvided], Returned None)
  /\ Wallet.loadWallet example_keys (Some "3nVfDq5sLYTiSKGt") (Some "") []
     = ([], Returned (Some {| ApiPingPong.publicKey :=
                               "7xKXtg2CW87d97TXJSDpbD5jBkheTqA83TZRuJosgAsU" |})).
Proof. vm_compute. repeat split; reflexivity. Qed.

Section Balances.
Context {number : Type} {JN : JsNumber number}.
Implicit Types (connection : TokenUtils.Connection number) (token : Token number).

Lemma find_first_account (accounts_before accounts_after : list (TokenUtils.TokenAccount number))
    (account : TokenUtils.TokenAccount number) (wanted : string) :
  Forall (fun other => TokenUtils.mint other <> wanted) accounts_before ->
  TokenUtils.mint account = wanted ->
  List.find (fun a => String.eqb (TokenUtils.mint a) wanted)
    (accounts_before ++ account :: accounts_after)
  = Some account.
Proof.
  intros Hbefore Hmint. induction accounts_before as [|other rest IH]; cbn.
  - rewrite Hmint, String.eqb_refl. reflexivity.
  - apply Forall_cons in Hbefore as [Hother Hrest].
    destruct (String.eqb_spec (TokenUtils.mint other) wanted); [contradiction|].
    exact (IH Hrest).
Qed.

Lemma find_no_account (accounts : list (TokenUtils.TokenAccount number))
    (wanted : string) :
  Forall (fun other => TokenUtils.mint other <> wanted) accounts ->
  List.find (fun a => String.eqb (TokenUtils.mint a) wanted) accounts = None.
Proof.
  induction accounts as [|other rest IH]; intros Hall; [reflexivity|].
  apply Forall_cons in Hall as [Hother Hrest]. cbn.
  destruct (String.eqb_spec (TokenUtils.mint other) wanted); [contradiction|].
  exact (IH Hrest).
Qed.

(** X26: the balance of a token other than native SOL is the [uiAmount] of
    the first account of the wallet that holds the token; the accounts
    after it are not read, also when they hold the same token.
    [hasSufficientBalance] compares the amount with that one balance. *)
Theorem balance_is_that_of_the_first_account connection (walletAddress : string)
    token (accounts_before accounts_after : list (TokenUtils.TokenAccount number))
    (account : TokenUtils.TokenAccount number) (amount : number)
    (console : list TokenUtils.LogLine) :
  address token <> native_mint ->
  TokenUtils.getParsedTokenAccountsByOwner connection walletAddress
  = inr (accounts_before ++ account :: accounts_after) ->
  Forall (fun other => TokenUtils.mint other <> address token) accounts_before ->
  TokenUtils.mint account = address token ->
  TokenUtils.getTokenBalance connection walletAddress token console
  = (console, Returned (TokenUtils.uiAmount account))
  /\ TokenUtils.hasSufficientBalance connection walletAddress token amount console
     = (console,
        Returned (num_leb amount (match TokenUtils.uiAmount account with
                                  | Some balance => balance
                                  | None => num_of_Z 0
                                  end))).
Proof.
  intros Hnative Haccounts Hbefore Hmint.
  assert (Hbalance :
            TokenUtils.getTokenBalance connection walletAddress token console
            = (console, Returned (TokenUtils.uiAmount account))).
  { unfold TokenUtils.getTokenBalance, bind, try_catch, lift, ret.
    destruct (String.eqb_spec (address token) native_mint) as [Heq|_];
      [contradiction|].
    unfold native_mint in *.
    destruct (String.eqb_spec (address token)
                "So11111111111111111111111111111111111111112"); [contradiction|].
    rewrite Haccounts, (find_first_account _ _ _ _ Hbefore Hmint). reflexivity. }
  split; [exact Hbalance|].
  unfold TokenUtils.hasSufficientBalance, bind, ret. rewrite Hbalance. reflexivity.
Qed.

(** X27: [getTokenBalance] never throws.  When the connection fails, it
    prints the error and reports a balance of zero; when the wallet has no
    account for the token, it reports zero and prints nothing.  In both
    cases [hasSufficientBalance] answers as for an empty wallet: the amount
    is covered exactly when it is at most zero. *)
Theorem balance_defaults_to_zero connection (walletAddress : string) token
    (amount : number) (console : list TokenUtils.LogLine) :
  (exists balance,
      snd (TokenUtils.getTokenBalance connection walletAddress token console)
      = Returned balance)
  /\ (forall e,
        (if String.eqb (address token) native_mint
         then TokenUtils.getBalance connection walletAddress = inl e
         else TokenUtils.getParsedTokenAccountsByOwner connection walletAddress = inl e) ->
        TokenUtils.getTokenBalance connection walletAddress token console
        = (console ++ [TokenUtils.ErrorGettingTokenBalance e],
           Returned (Some (num_of_Z 0)))
        /\ TokenUtils.hasSufficientBalance connection walletAddress token amount console
           = (console ++ [TokenUtils.ErrorGettingTokenBalance e],
              Returned (num_leb amount (num_of_Z 0))))
  /\ (forall accounts,
        address token <> native_mint ->
        TokenUtils.getParsedTokenAccountsByOwner connection walletAddress = inr accounts ->
        Forall (fun other => TokenUtils.mint other <> address token) accounts ->
        TokenUtils.getTokenBalance connection walletAddress token console
        = (console, Returned (Some (num_of_Z 0)))
        /\ TokenUtils.hasSufficientBalance connection walletAddress token amount console
           = (console, Returned (num_leb amount (num_of_Z 0)))).
Proof.
  unfold native_mint. split; [|split].
  - unfold TokenUtils.getTokenBalance, bind, try_catch, lift, ret, modify_state.
    destruct (String.eqb _ _).
    + destruct (TokenUtils.getBalance connection walletAddress); eexists; reflexivity.
    + destruct (TokenUtils.getParsedTokenAccountsByOwner connection walletAddress)
        as [e|accounts]; [eexists; reflexivity|].
      destruct (List.find _ accounts); eexists; reflexivity.
  - intros e Hfails.
    assert (Hbalance :
              TokenUtils.getTokenBalance connection walletAddress token console
              = (console ++ [TokenUtils.ErrorGettingTokenBalance e],
                 Returned (Some (num_of_Z 0)))).
    { unfold TokenUtils.getTokenBalance, bind, try_catch, lift, ret, modify_state.
      destruct (String.eqb _ _); rewrite Hfails; reflexivity. }
    split; [exact Hbalance|].
    unfold TokenUtils.hasSufficientBalance, bind, ret. rewrite Hbalance. reflexivity.
  - intros accounts Hnative Haccounts Hnone.
    assert (Hbalance :
              TokenUtils.getTokenBalance connection walletAddress token console
              = (console, Returned (Some (num_of_Z 0)))).
    { unfold TokenUtils.getTokenBalance, bind, try_catch, lift, ret.
      destruct (String.eqb_spec (address token)
                  "So11111111111111111111111111111111111111112"); [contradiction|].
      rewrite Haccounts, (find_no_account _ _ Hnone). reflexivity. }
    split; [exact Hbalance|].
    unfold TokenUtils.hasSufficientBalance, bind, ret. rewrite Hbalance. reflexivity.
Qed.

End Balances.

(** The theorem at the wallet of the examples: of its two accounts of USDC
    the empty one is read, so that 100 USDC are reported as not covered
    although the second account holds 250. *)
Lemma balance_is_that_of_the_first_account_witness :
  TokenUtils.getTokenBalance example_connection "wallet" USDC []
  = ([], Returned (Some (Fin 0)))
  /\ TokenUtils.hasSufficientBalance example_connection "wallet" USDC (Fin 100) []
     = ([], Returned false).
Proof.
  refine (balance_is_that_of_the_first_account example_connection "wallet" USDC
           [ {| TokenUtils.mint := "So11111111111111111111111111111111111111112";
                TokenUtils.uiAmount := Some (Fin 3) |} ]
           [ {| TokenUtils.mint := "EPjFWdd5AufqSSqeM2qN1xzybapC8G4wEGGkZwyTDt1v";
                TokenUtils.uiAmount := Some (Fin 250) |} ]
           {| TokenUtils.mint := "EPjFWdd5AufqSSqeM2qN1xzybapC8G4wEGGkZwyTDt1v";
              TokenUtils.uiAmount := Some (Fin 0) |}
           (Fin 100) [] _ _ _ _).
  - discriminate.
  - reflexivity.
  - repeat constructor. discriminate.
  - reflexivity.
Defined.

(** ** The bot *)

Ltac unfold_core :=
  cbv beta iota zeta delta
    [BotCore.start BotCore.stop BotCore.print BotCore.set_isRunning
     BotCore.strategy_execute
     bind ret try_catch lift complete get_state modify_state].

Section Core.
Context {number : Type} {JN : JsNumber number}.
Implicit Types (out : CacheStrategies.Outside number) (w : BotCore.World number).

(** X28: [start] on a bot that is initialised and not running, with a
    cache and a configuration that names a registered strategy, runs one
    cycle of that strategy on the cache of the bot: the iteration counter
    goes up by one, and the call ends as the cycle ends.  The bot is left
    running, so that a second [start] runs no cycle: it prints one line and
    changes nothing else. *)
Theorem start_runs_one_cycle out w (config : BotCore.TradingConfig number)
    (s : BotCore.StrategyClass) (cache : CacheStrategies.BotCache number) :
  BotCore.isRunning w = false ->
  initialised w = true ->
  BotCore.config w = Some config ->
  BotCore.get (BotCore.strategies w) (BotCore.tradingStrategy config) = Some s ->
  BotCore.cache w = Some cache ->
  let cycle :=
    run_cycle (cycle_of s out config)
      {| CacheStrategies.cache := cache; CacheStrategies.console := [] |} in
  let '(w', c) := BotCore.start out w in
  c = snd cycle
  /\ BotCore.cache w' = Some (CacheStrategies.cache (fst cycle))
  /\ option_map CacheStrategies.iteration (BotCore.cache w')
     = Some (CacheStrategies.iteration cache + 1)
  /\ BotCore.isRunning w' = true
  /\ BotCore.console w'
     = BotCore.console w
       ++ [BotCore.BotStarted; BotCore.StrategyInitialized (BotCore.strategy_name s)]
       ++ map BotCore.FromStrategy (CacheStrategies.console (fst cycle))
  /\ forall out', BotCore.start out' w' = (with_line BotCore.AlreadyRunning w', Returned tt).
Proof.
  intros Hoff Hready Hconfig Hstrategy Hcache cycle.
  pose proof (run_cycle_effect (cycle_of s out config)
                {| CacheStrategies.cache := cache; CacheStrategies.console := [] |})
    as Heffect.
  fold cycle in Heffect.
  unfold_core. unfold initialised in Hready.
  rewrite Hoff, Hconfig in *.
  destruct (BotCore.connection w) as [url|]; [|discriminate Hready].
  destruct (BotCore.wallet w) as [keypair|]; [|discriminate Hready].
  destruct (BotCore.jupiter w) as [sdk|]; [|discriminate Hready].
  rewrite Hstrategy. cbn -[Z.add]. rewrite Hcache.
  assert (Hrun : match s with
                 | BotCore.ArbitrageStrategy =>
                     CacheStrategies.ArbitrageStrategy_execute out
                       {| CacheStrategies.ctx_tokenA := BotCore.tokens_tokenA config;
                          CacheStrategies.ctx_tokenB := BotCore.tokens_tokenB config |}
                 | BotCore.PingPongStrategy =>
                     CacheStrategies.PingPongStrategy_execute out
                       {| CacheStrategies.ctx_tokenA := BotCore.tokens_tokenA config;
                          CacheStrategies.ctx_tokenB := BotCore.tokens_tokenB config |}
                 end {| CacheStrategies.cache := cache; CacheStrategies.console := [] |}
                 = cycle)
    by (subst cycle; destruct s; reflexivity).
  rewrite Hrun. destruct cycle as [sw done].
  destruct Heffect as (Hnothrow & Hiteration & _).
  cbn [fst snd CacheStrategies.cache] in *.
  destruct done as [[]|e|code]; [| exfalso; exact (Hnothrow e eq_refl) |];
    cbn -[Z.add]; rewrite Hiteration; unfold with_line;
    cbn [BotCore.console BotCore.connection BotCore.wallet BotCore.jupiter
         BotCore.strategies BotCore.cache BotCore.config BotCore.isRunning];
    rewrite <- ?app_assoc; repeat split.
Qed.

(** X29: [start] never throws.  On a bot that is not running it runs no
    cycle when the bot is not initialised (no configuration, connection,
    wallet or SDK): it prints one line and changes nothing else; and when
    the configuration names a strategy that is not registered: the bot is
    left not running, with its cache as it was and the error on the
    console.  The constructor registers the ping-pong strategy only. *)
Theorem start_refuses_without_strategy out w :
  (forall e, snd (BotCore.start out w) <> Threw e)
  /\ (BotCore.isRunning w = false -> initialised w = false ->
      BotCore.start out w = (with_line BotCore.NotProperlyInitialized w, Returned tt))
  /\ (forall config,
        BotCore.isRunning w = false -> initialised w = true ->
        BotCore.config w = Some config ->
        BotCore.get (BotCore.strategies w) (BotCore.tradingStrategy config) = None ->
        let '(w', c) := BotCore.start out w in
        c = Returned tt
        /\ BotCore.isRunning w' = false
        /\ BotCore.cache w' = BotCore.cache w
        /\ BotCore.console w'
           = BotCore.console w
             ++ [BotCore.BotStarted;
                 BotCore.ErrorStartingBot
                   (ErrorObject ("Strategy " ++ BotCore.tradingStrategy config
                                 ++ " not found"))])
  /\ BotCore.strategies (BotCore.constructed (number := number))
     = [("pingpong", BotCore.PingPongStrategy)].
Proof.
  split; [|split; [|split]].
  - intros e. unfold_core.
    destruct (BotCore.isRunning w); [discriminate|].
    destruct (BotCore.config w) as [config|]; [|discriminate].
    destruct (BotCore.connection w) as [url|]; [|discriminate].
    destruct (BotCore.wallet w) as [keypair|]; [|discriminate].
    destruct (BotCore.jupiter w) as [sdk|]; [|discriminate].
    destruct (BotCore.get _ _) as [s|]; cbn -[Z.add]; [|discriminate].
    destruct (BotCore.cache w) as [cache|]; [|discriminate].
    pose proof (run_cycle_effect (cycle_of s out config)
                  {| CacheStrategies.cache := cache; CacheStrategies.console := [] |})
      as Heffect.
    destruct s; cbn [cycle_of run_cycle] in Heffect;
      match goal with
      | |- context [?run out ?ctx ?sw] =>
          destruct (run out ctx sw) as [sw' done]
      end;
      destruct Heffect as (Hnothrow & _);
      destruct done as [[]|e'|code]; cbn; try discriminate;
      exfalso; exact (Hnothrow e' eq_refl).
  - intros Hoff Hnot. unfold_core. unfold initialised in Hnot. rewrite Hoff.
    destruct (BotCore.config w); [|reflexivity].
    destruct (BotCore.connection w); [|reflexivity].
    destruct (BotCore.wallet w); [|reflexivity].
    destruct (BotCore.jupiter w); [discriminate Hnot | reflexivity].
  - intros config Hoff Hready Hconfig Hunknown. unfold_core.
    unfold initialised in Hready. rewrite Hoff, Hconfig in *.
    destruct (BotCore.connection w); [|discriminate Hready].
    destruct (BotCore.wallet w); [|discriminate Hready].
    destruct (BotCore.jupiter w); [|discriminate Hready].
    rewrite Hunknown. cbn. rewrite <- app_assoc. repeat split.
  - reflexivity.
Qed.

End Core.

(** The theorem at the bot of the examples and a quote of 101 for 100:
    the cycle trades, and the bot is left running at iteration 1. *)
Lemma start_runs_one_cycle_witness :
  let out := example_outside (inr (Some {| routesInfos := Some [route_via "Orca" 101] |})) in
  let '(w', c) := BotCore.start out (example_core "pingpong") in
  c = Returned tt
  /\ option_map CacheStrategies.iteration (BotCore.cache w') = Some (0 + 1)
  /\ BotCore.isRunning w' = true.
Proof.
  intros out.
  pose proof (start_runs_one_cycle out (example_core "pingpong")
                {| BotCore.tradingStrategy := "pingpong";
                   BotCore.tokens_tokenA := USDC; BotCore.tokens_tokenB := SOL |}
                BotCore.PingPongStrategy (example_cache true)
                eq_refl eq_refl eq_refl eq_refl eq_refl) as H.
  cbv zeta in H.
  destruct (BotCore.start out (example_core "pingpong")) as [w' c].
  destruct H as (Hc & _ & Hiteration & Hrunning & _).
  split; [rewrite Hc; vm_compute; reflexivity|].
  split; [exact Hiteration | exact Hrunning].
Defined.

(** A configuration that names the arbitrage strategy: the constructor has
    not registered it, and the bot does not start. *)
Example start_without_arbitrage :
  let out := example_outside (inr (Some {| routesInfos := Some [route_via "Orca" 101] |})) in
  BotCore.start out (example_core "arbitrage")
  = ({| BotCore.connection := BotCore.connection (example_core "arbitrage");
        BotCore.wallet := BotCore.wallet (example_core "arbitrage");
        BotCore.jupiter := Some tt;
        BotCore.strategies := [("pingpong", BotCore.PingPongStrategy)];
        BotCore.cache := Some (example_cache true);
        BotCore.config := BotCore.config (example_core "arbitrage");
        BotCore.isRunning := false;
        BotCore.console :=
          [BotCore.BotStarted;
           BotCore.ErrorStartingBot (ErrorObject "Strategy arbitrage not found")] |},
     Returned tt).
Proof. vm_compute. reflexivity. Qed.
